(** * LMU settings editor: parsers, writers, change tracking and comparison

    A shallow embedding of the core of the repository
    (json_parser.py, ini_parser.py, field_state.py, configuration_model.py,
    comparison_engine.py) together with the part of the Python runtime these
    files rely on, and the properties of the design specification checked
    against it.

    Text is modelled as [string] (8-bit characters): the files the editor
    handles are ASCII settings files.  Python exceptions are modelled by the
    [result] type, files by an explicit [World]. *)

From Stdlib Require Import ZArith List String Ascii Bool Lia Floats DecimalString.
From Stdlib Require DecimalPos.
Import ListNotations.

Set Warnings "-inexact-float,-register-all".

Local Open Scope list_scope.
Local Open Scope string_scope.

(* ================================================================== *)
(** * The Python runtime the sources rely on *)
(* ================================================================== *)

Module Py.

(** ** Exceptions *)

Inductive exn : Type :=
| FileNotFoundError
| OSError
| ValueError
| TypeError
| OverflowError
| AttributeError
| RecursionError
| JSONDecodeError.

Inductive result (A : Type) : Type :=
| Ok (a : A)
| Raise (e : exn).

Arguments Ok {A} a.
Arguments Raise {A} e.

Definition bind {A B : Type} (m : result A) (k : A -> result B) : result B :=
  match m with
  | Ok a => k a
  | Raise e => Raise e
  end.

(** A loop that appends one result per element, left at the first
    exception. *)
Fixpoint map_result {A B : Type} (f : A -> result B) (l : list A)
  : result (list B) :=
  match l with
  | nil => Ok nil
  | cons x r =>
      bind (f x) (fun y =>
      bind (map_result f r) (fun ys => Ok (cons y ys)))
  end.

Definition exn_eqb (a b : exn) : bool :=
  match a, b with
  | FileNotFoundError, FileNotFoundError | OSError, OSError
  | ValueError, ValueError | TypeError, TypeError
  | OverflowError, OverflowError | AttributeError, AttributeError
  | RecursionError, RecursionError | JSONDecodeError, JSONDecodeError => true
  | _, _ => false
  end.

(** [except (e1, e2, ...)]: does a handler for the classes [handled] catch
    [e]?  json.JSONDecodeError is a subclass of ValueError and
    FileNotFoundError a subclass of OSError. *)
Definition isinstance_exn (e : exn) (handled : list exn) : bool :=
  existsb (exn_eqb e) handled
  || match e with
     | JSONDecodeError => existsb (exn_eqb ValueError) handled
     | FileNotFoundError => existsb (exn_eqb OSError) handled
     | _ => false
     end.

(** [try: m except handled: h] *)
Definition try_except {A : Type} (m : result A) (handled : list exn)
  (h : result A) : result A :=
  match m with
  | Ok a => Ok a
  | Raise e => if isinstance_exn e handled then h else Raise e
  end.

(** [try: m except Exception: h] *)
Definition try_except_all {A : Type} (m : result A) (h : exn -> A) : A :=
  match m with
  | Ok a => a
  | Raise e => h e
  end.

(** ** Characters *)

Definition nl : ascii := "010"%char.
Definition dquote : ascii := "034"%char.
Definition squote : ascii := "039"%char.
Definition backslash : ascii := "092"%char.

Definition code (c : ascii) : N := N_of_ascii c.

(** [str.isspace] on one character, which is also the regular expression
    class [\s]: TAB..CR, FS..US and SPACE, and above DEL the next-line
    control and the no-break space.  A character is a code point below
    256. *)
Definition is_space (c : ascii) : bool :=
  let n := code c in
  ((9 <=? n) && (n <=? 13) || (28 <=? n) && (n <=? 32)
   || (n =? 133) || (n =? 160))%N.

(** The blanks that [int] and [float] skip around a numeral: TAB..CR and
    SPACE only. *)
Definition is_blank (c : ascii) : bool :=
  let n := code c in ((9 <=? n) && (n <=? 13) || (n =? 32))%N.

Definition is_digit (c : ascii) : bool :=
  let n := code c in ((48 <=? n) && (n <=? 57))%N.

Definition digit_val (c : ascii) : Z := Z.of_N (code c) - 48.

Definition lower_char (c : ascii) : ascii :=
  let n := code c in
  if ((65 <=? n) && (n <=? 90))%N then ascii_of_N (n + 32) else c.

(** ** Strings *)

Fixpoint map_string (f : ascii -> ascii) (s : string) : string :=
  match s with
  | EmptyString => EmptyString
  | String c r => String (f c) (map_string f r)
  end.

(** [s.lower()] *)
Definition lower (s : string) : string := map_string lower_char s.

(** [s.lstrip()] *)
Fixpoint lstrip (s : string) : string :=
  match s with
  | EmptyString => EmptyString
  | String c r => if is_space c then lstrip r else s
  end.

(** [s.rstrip()] *)
Fixpoint rstrip (s : string) : string :=
  match s with
  | EmptyString => EmptyString
  | String c r =>
      match rstrip r with
      | EmptyString => if is_space c then EmptyString else String c EmptyString
      | r' => String c r'
      end
  end.

(** [s.strip()] *)
Definition strip (s : string) : string := lstrip (rstrip s).

(** The text [int] and [float] read of a string.  A space above DEL stands
    for a SPACE; any other character from DEL on is no decimal digit and is
    handed on as a question mark, which no numeral holds. *)
Definition numeral_char_of (c : ascii) : ascii :=
  let n := code c in
  if (n <? 127)%N then c
  else if ((n =? 133) || (n =? 160))%N then " "%char
  else "?"%char.

Fixpoint lstrip_blank (s : string) : string :=
  match s with
  | EmptyString => EmptyString
  | String c r => if is_blank c then lstrip_blank r else s
  end.

Fixpoint rstrip_blank (s : string) : string :=
  match s with
  | EmptyString => EmptyString
  | String c r =>
      match rstrip_blank r with
      | EmptyString => if is_blank c then EmptyString else String c EmptyString
      | r' => String c r'
      end
  end.

Definition numeral_text (s : string) : string :=
  lstrip_blank (rstrip_blank (map_string numeral_char_of s)).

(** [s.startswith(p)] *)
Definition startswith (p s : string) : bool := String.prefix p s.

(** [s.endswith(suf)] *)
Fixpoint endswith (suf s : string) : bool :=
  String.eqb suf s
  || match s with
     | EmptyString => false
     | String _ r => endswith suf r
     end.

(** [sub in s] *)
Fixpoint contains (sub s : string) : bool :=
  String.prefix sub s
  || match s with
     | EmptyString => false
     | String _ r => contains sub r
     end.

(** [s[n:]] *)
Fixpoint drop (n : nat) (s : string) : string :=
  match n, s with
  | O, _ => s
  | S k, String _ r => drop k r
  | S _, EmptyString => EmptyString
  end.

(** [s.split(sep, 1)] when [sep in s]: the text before and after the first
    occurrence of [sep]; [None] when [sep] does not occur. *)
Fixpoint split_once (sep s : string) : option (string * string) :=
  if String.prefix sep s then Some (EmptyString, drop (String.length sep) s)
  else match s with
       | EmptyString => None
       | String c r =>
           match split_once sep r with
           | Some (a, b) => Some (String c a, b)
           | None => None
           end
       end.

(** [s.split(c)] for a one-character separator. *)
Fixpoint split_char (c : ascii) (s : string) : list string :=
  match s with
  | EmptyString => [EmptyString]
  | String a r =>
      let parts := split_char c r in
      if Ascii.eqb a c then EmptyString :: parts
      else match parts with
           | p :: ps => String a p :: ps
           | [] => [String a EmptyString]
           end
  end.

(** [s.replace(old, new)]: every non-overlapping occurrence, left to right.
    [skip] counts the characters of an occurrence still to be passed over. *)
Fixpoint replace_from (old new : string) (skip : nat) (s : string) : string :=
  match s with
  | EmptyString => EmptyString
  | String c r =>
      match skip with
      | S k => replace_from old new k r
      | O =>
          if String.prefix old s
          then new ++ replace_from old new (String.length old - 1) r
          else String c (replace_from old new 0 r)
      end
  end.

Fixpoint intersperse (new s : string) : string :=
  match s with
  | EmptyString => EmptyString
  | String c r => String c (new ++ intersperse new r)
  end.

Definition replace (old new s : string) : string :=
  match old with
  | EmptyString => new ++ intersperse new s
  | _ => replace_from old new 0 s
  end.

(** [sep.join(parts)] *)
Definition join (sep : string) (parts : list string) : string :=
  String.concat sep parts.

(** The longest prefix of [s] whose characters satisfy [p], and the rest. *)
Fixpoint span (p : ascii -> bool) (s : string) : string * string :=
  match s with
  | EmptyString => (EmptyString, EmptyString)
  | String c r =>
      if p c then let (a, b) := span p r in (String c a, b)
      else (EmptyString, s)
  end.

Fixpoint last_char (s : string) : option ascii :=
  match s with
  | EmptyString => None
  | String c EmptyString => Some c
  | String _ r => last_char r
  end.

Definition is_empty (s : string) : bool :=
  match s with EmptyString => true | _ => false end.

(** [f.readlines()]: the lines of a text, each with its terminator. *)
Fixpoint readlines (s : string) : list string :=
  match s with
  | EmptyString => []
  | String c r =>
      if Ascii.eqb c nl then String c EmptyString :: readlines r
      else match readlines r with
           | [] => [String c EmptyString]
           | l :: ls => String c l :: ls
           end
  end.

(** [f.writelines(lines)]: the text written. *)
Definition writelines (lines : list string) : string :=
  String.concat EmptyString lines.

(** Text in which every apostrophe stands for a double quote: sample JSON
    documents are written with it. *)
Definition q (s : string) : string :=
  map_string (fun c => if Ascii.eqb c squote then dquote else c) s.

(** A line: the text followed by a line feed. *)
Definition ln (s : string) : string := s ++ String nl EmptyString.

(** ** Integers: [int(s)] and [str(n)] *)

Definition parse_sign (s : string) : bool * string :=
  match s with
  | String "-" r => (true, r)
  | String "+" r => (false, r)
  | _ => (false, s)
  end.

(** The digits of a numeral, an underscore allowed between two digits:
    the value read, the number of digits and the text left. *)
Fixpoint digits_loop (s : string) (acc : Z) (n : nat) : Z * nat * string :=
  match s with
  | EmptyString => (acc, n, s)
  | String c r =>
      if is_digit c then digits_loop r (10 * acc + digit_val c)%Z (S n)
      else if Ascii.eqb c "_" then
        match r with
        | String d r' =>
            if is_digit d then digits_loop r' (10 * acc + digit_val d)%Z (S n)
            else (acc, n, s)
        | EmptyString => (acc, n, s)
        end
      else (acc, n, s)
  end.

Definition digitpart (s : string) : option (Z * nat * string) :=
  match s with
  | String c _ => if is_digit c then Some (digits_loop s 0%Z 0) else None
  | EmptyString => None
  end.

(** [sys.get_int_max_str_digits()]: the longest numeral that [int] reads
    and [str] writes, in digits. *)
Definition max_str_digits : Z := 4300.

(** [int(s)] for a string, base ten: ValueError for a text that is no
    numeral, and for a numeral of more than [max_str_digits] digits. *)
Definition int_of_str (s : string) : result Z :=
  let (neg, r) := parse_sign (numeral_text s) in
  match digitpart r with
  | Some (v, n, EmptyString) =>
      if (Z.of_nat n <=? max_str_digits)%Z
      then Ok (if neg then (- v)%Z else v)
      else Raise ValueError
  | _ => Raise ValueError
  end.

(** The decimal numeral of an integer. *)
Definition decimal_of_int (n : Z) : string :=
  NilZero.string_of_int (Z.to_int n).

(** [str(n)] for an integer, which is also [repr(n)]: ValueError when the
    numeral has more than [max_str_digits] digits. *)
Definition str_of_int (n : Z) : result string :=
  if (Z.of_nat (String.length (decimal_of_int (Z.abs n))) <=? max_str_digits)%Z
  then Ok (decimal_of_int n)
  else Raise ValueError.

(** ** Floats: binary64, as CPython's [float] *)

Definition is_nan (f : float) : bool := PrimFloat.is_nan f.
Definition is_inf (f : float) : bool := PrimFloat.is_infinity f.

(** Rounding of an integer to the nearest float, ties to even. *)
Definition float_of_Z (z : Z) : float :=
  SF2Prim (binary_normalize prec emax z 0 false).

(** [float(n)] for an integer: OverflowError when out of range. *)
Definition float_of_int (n : Z) : result float :=
  let f := float_of_Z n in
  if is_inf f then Raise OverflowError else Ok f.

(** The float nearest to [m * 10^e], for [0 <= m].  For a negative [e] the
    quotient is taken with enough extra bits and a sticky bit, so that the
    final rounding is the rounding of the exact quotient. *)
Definition decimal_to_float (neg : bool) (m e : Z) : float :=
  let f :=
    if (m =? 0)%Z then PrimFloat.zero
    else if (0 <=? e)%Z then float_of_Z (m * 10 ^ e)
    else
      let d := (10 ^ (- e))%Z in
      let s := Z.max 0 (Z.log2 d - Z.log2 m + 70) in
      let num := (m * 2 ^ s)%Z in
      let sticky := if (num mod d =? 0)%Z then 0%Z else 1%Z in
      SF2Prim (binary_normalize prec emax (2 * (num / d) + sticky) (- s - 1) false)
  in if neg then PrimFloat.opp f else f.

(** An optional exponent part [e[+-]digits]: the exponent and the text left;
    [None] when an [e] is not followed by a well-formed exponent. *)
Definition parse_exponent (s : string) : option (Z * string) :=
  match s with
  | String c r =>
      if Ascii.eqb (lower_char c) "e" then
        let (neg, r1) := parse_sign r in
        match digitpart r1 with
        | Some (v, _, r2) => Some (if neg then (- v)%Z else v, r2)
        | None => None
        end
      else Some (0%Z, s)
  | EmptyString => Some (0%Z, s)
  end.

(** [float(s)] for a string. *)
Definition float_of_str (s : string) : result float :=
  let (neg, r) := parse_sign (numeral_text s) in
  let word := lower r in
  if String.eqb word "inf" || String.eqb word "infinity" then
    Ok (if neg then PrimFloat.neg_infinity else PrimFloat.infinity)
  else if String.eqb word "nan" then Ok PrimFloat.nan
  else
    let '(v1, n1, r1) :=
      match digitpart r with Some x => x | None => (0%Z, 0, r) end in
    let '(v2, n2, r2) :=
      match r1 with
      | String "." r1' =>
          match digitpart r1' with Some x => x | None => (0%Z, 0, r1') end
      | _ => (0%Z, 0, r1)
      end in
    if Nat.eqb (n1 + n2) 0 then Raise ValueError
    else
      match parse_exponent r2 with
      | Some (ex, EmptyString) =>
          Ok (decimal_to_float neg (v1 * 10 ^ Z.of_nat n2 + v2)
                (ex - Z.of_nat n2))
      | _ => Raise ValueError
      end.

(** The integer part of a finite float, towards zero. *)
Definition trunc_float (f : float) : Z :=
  match Prim2SF f with
  | S754_finite s m e =>
      let a := if (0 <=? e)%Z then (Zpos m * 2 ^ e)%Z else (Zpos m / 2 ^ (- e))%Z in
      if s then (- a)%Z else a
  | _ => 0%Z
  end.

(** [int(f)] for a float: ValueError on NaN, OverflowError on an infinity. *)
Definition int_of_float (f : float) : result Z :=
  if is_nan f then Raise ValueError
  else if is_inf f then Raise OverflowError
  else Ok (trunc_float f).

(** [f == n] for a float and an integer: Python compares the exact values. *)
Definition float_eq_int (f : float) (n : Z) : bool :=
  match Prim2SF f with
  | S754_zero _ => (n =? 0)%Z
  | S754_finite s m e =>
      let a := if s then Zneg m else Zpos m in
      if (0 <=? e)%Z then (n =? a * 2 ^ e)%Z else (n * 2 ^ (- e) =? a)%Z
  | _ => false
  end.

(** ** Formatting floats: [repr(f)] and [format(f, ".3f")] *)

Fixpoint zeros (n : nat) : string :=
  match n with
  | O => EmptyString
  | S k => String "0" (zeros k)
  end.

Definition pad_zeros (width : nat) (s : string) : string :=
  zeros (width - String.length s) ++ s.

(** The integer nearest to [a / b] ([0 <= a], [0 < b]), ties to even. *)
Definition div_half_even (a b : Z) : Z :=
  let q := (a / b)%Z in
  match (2 * (a mod b) ?= b)%Z with
  | Lt => q
  | Gt => (q + 1)%Z
  | Eq => if Z.even q then q else (q + 1)%Z
  end.

(** [format(f, ".3f")] *)
Definition format_3f (f : float) : string :=
  match Prim2SF f with
  | S754_nan => "nan"
  | S754_infinity s => if s then "-inf" else "inf"
  | S754_zero s => (if s then "-" else "") ++ "0.000"
  | S754_finite s m e =>
      let n :=
        if (0 <=? e)%Z then (Zpos m * 2 ^ e * 1000)%Z
        else div_half_even (Zpos m * 1000) (2 ^ (- e)) in
      (if s then "-" else "") ++ decimal_of_int (n / 1000)
        ++ "." ++ pad_zeros 3 (decimal_of_int (n mod 1000))
  end.

(** Is [num / den < 10^j]? *)
Definition below_pow10 (num den j : Z) : bool :=
  if (0 <=? j)%Z then (num <? den * 10 ^ j)%Z else (num * 10 ^ (- j) <? den)%Z.

Fixpoint adjust_exponent (fuel : nat) (num den k : Z) : Z :=
  match fuel with
  | O => k
  | S n =>
      if below_pow10 num den (k - 1) then adjust_exponent n num den (k - 1)
      else if below_pow10 num den k then k
      else adjust_exponent n num den (k + 1)
  end.

(** The [k] with [10^(k-1) <= num / den < 10^k]. *)
Definition decimal_exponent (num den : Z) : Z :=
  adjust_exponent 4 num den
    (((Z.log2 num - Z.log2 den) * 30103) / 100000)%Z.

(** The shortest decimal [d * 10^(k - n)], [n] digits, that reads back as
    the float [x = num / den]; of two such, the nearer one.  [tries] bounds
    the number of digits tried (17 always suffice). *)
Fixpoint shortest_digits (tries : nat) (x : float) (num den k : Z) (n : nat)
  : Z * Z :=
  let sh := (k - Z.of_nat n)%Z in
  let a := if (0 <=? sh)%Z then num else (num * 10 ^ (- sh))%Z in
  let b := if (0 <=? sh)%Z then (den * 10 ^ sh)%Z else den in
  let lo := (a / b)%Z in
  let hi := (lo + 1)%Z in
  let ok d := PrimFloat.eqb (decimal_to_float false d sh) x in
  let hi_nearer :=
    match (2 * a ?= (lo + hi) * b)%Z with
    | Gt => true
    | Lt => false
    | Eq => Z.odd lo
    end in
  match tries with
  | O => (if hi_nearer then hi else lo, sh)
  | S t =>
      match ok lo, ok hi with
      | true, true => (if hi_nearer then hi else lo, sh)
      | true, false => (lo, sh)
      | false, true => (hi, sh)
      | false, false => shortest_digits t x num den k (S n)
      end
  end.

Fixpoint strip_zeros_fuel (fuel : nat) (d e : Z) : Z * Z :=
  match fuel with
  | O => (d, e)
  | S n =>
      if ((d mod 10 =? 0) && negb (d =? 0))%Z
      then strip_zeros_fuel n (d / 10)%Z (e + 1)%Z
      else (d, e)
  end.

Fixpoint take (n : nat) (s : string) : string :=
  match n, s with
  | S k, String c r => String c (take k r)
  | _, _ => EmptyString
  end.

(** The layout of [repr]: positional for a decimal point position in
    (-4, 16], with an exponent otherwise. *)
Definition layout_repr (ds : string) (decpt : Z) : string :=
  let n := Z.of_nat (String.length ds) in
  if ((-4 <? decpt) && (decpt <=? 16))%Z then
    if (decpt <=? 0)%Z then "0." ++ zeros (Z.to_nat (- decpt)) ++ ds
    else if (n <=? decpt)%Z then ds ++ zeros (Z.to_nat (decpt - n)) ++ ".0"
    else take (Z.to_nat decpt) ds ++ "." ++ drop (Z.to_nat decpt) ds
  else
    let ex := (decpt - 1)%Z in
    take 1 ds ++ (if (1 <? n)%Z then "." ++ drop 1 ds else "")
      ++ "e" ++ (if (ex <? 0)%Z then "-" else "+")
      ++ pad_zeros 2 (decimal_of_int (Z.abs ex)).

(** [repr(f)], which is also [str(f)]. *)
Definition float_repr (f : float) : string :=
  match Prim2SF f with
  | S754_nan => "nan"
  | S754_infinity s => if s then "-inf" else "inf"
  | S754_zero s => if s then "-0.0" else "0.0"
  | S754_finite s m e =>
      let num := if (0 <=? e)%Z then (Zpos m * 2 ^ e)%Z else Zpos m in
      let den := if (0 <=? e)%Z then 1%Z else (2 ^ (- e))%Z in
      let k := decimal_exponent num den in
      let (d, sh) := shortest_digits 17 (PrimFloat.abs f) num den k 1 in
      let (d', sh') := strip_zeros_fuel 400 d sh in
      let ds := decimal_of_int d' in
      (if s then "-" else "")
        ++ layout_repr ds (sh' + Z.of_nat (String.length ds))
  end.

(** ** Ordered dictionaries

    [dict] and [OrderedDict] keep insertion order: an association list in
    which a key occurs once; assigning to a present key keeps its place. *)

Definition odict (V : Type) : Type := list (string * V).

Fixpoint od_get {V : Type} (k : string) (d : odict V) : option V :=
  match d with
  | [] => None
  | (k', v) :: r => if String.eqb k k' then Some v else od_get k r
  end.

(** [d[k] = v] *)
Fixpoint od_set {V : Type} (k : string) (v : V) (d : odict V) : odict V :=
  match d with
  | [] => [(k, v)]
  | (k', v') :: r =>
      if String.eqb k k' then (k, v) :: r else (k', v') :: od_set k v r
  end.

(** [k in d] *)
Definition od_mem {V : Type} (k : string) (d : odict V) : bool :=
  match od_get k d with Some _ => true | None => false end.

(** [OrderedDict(pairs)] *)
Definition od_of_pairs {V : Type} (pairs : list (string * V)) : odict V :=
  fold_left (fun d kv => od_set (fst kv) (snd kv) d) pairs [].

(** ** Values *)

Inductive pyval : Type :=
| VNone
| VBool (b : bool)
| VInt (n : Z)
| VFloat (f : float)
| VStr (s : string)
| VList (l : list pyval)
| VTuple (l : list pyval)
| VDict (d : list (string * pyval)).

Definition is_bool (v : pyval) : bool :=
  match v with VBool _ => true | _ => false end.

(** [isinstance(v, int)]: [bool] is a subclass of [int]. *)
Definition is_int (v : pyval) : bool :=
  match v with VBool _ | VInt _ => true | _ => false end.

Definition is_float (v : pyval) : bool :=
  match v with VFloat _ => true | _ => false end.

Definition is_str (v : pyval) : bool :=
  match v with VStr _ => true | _ => false end.

Definition is_list (v : pyval) : bool :=
  match v with VList _ => true | _ => false end.

Definition is_tuple (v : pyval) : bool :=
  match v with VTuple _ => true | _ => false end.

Definition is_dict (v : pyval) : bool :=
  match v with VDict _ => true | _ => false end.

(** Two elements that are one object: a container takes them for equal
    without comparing them, which shows on a NaN only, the one value that
    differs from itself.  Values carry no identity here, and the NaN found
    at the same place of two containers is taken to be one object: the
    writers compare a container with itself (only scalars and texts are
    ever assigned to a field), and every NaN of a decoded document is the
    decoder's one constant. *)
Definition same_nan (u w : pyval) : bool :=
  match u, w with
  | VFloat x, VFloat y => is_nan x && is_nan y
  | _, _ => false
  end.

(** [a == b].  Numbers compare by value across [bool], [int] and [float];
    sequences and ordered dictionaries compare element by element, each
    pair by identity first.  Two floats compared directly are compared by
    value: a NaN differs from itself. *)
Fixpoint py_eq (a b : pyval) {struct a} : bool :=
  match a, b with
  | VNone, VNone => true
  | VBool x, VBool y => Bool.eqb x y
  | VBool x, VInt n | VInt n, VBool x => (Z.b2z x =? n)%Z
  | VBool x, VFloat f | VFloat f, VBool x => float_eq_int f (Z.b2z x)
  | VInt x, VInt y => (x =? y)%Z
  | VInt n, VFloat f | VFloat f, VInt n => float_eq_int f n
  | VFloat x, VFloat y => PrimFloat.eqb x y
  | VStr x, VStr y => String.eqb x y
  | VList x, VList y | VTuple x, VTuple y =>
      (fix all2 (l1 l2 : list pyval) : bool :=
         match l1, l2 with
         | [], [] => true
         | u :: l1', w :: l2' => (same_nan u w || py_eq u w) && all2 l1' l2'
         | _, _ => false
         end) x y
  | VDict x, VDict y =>
      (fix all2 (l1 l2 : list (string * pyval)) : bool :=
         match l1, l2 with
         | [], [] => true
         | (k1, u) :: l1', (k2, w) :: l2' =>
             String.eqb k1 k2 && (same_nan u w || py_eq u w) && all2 l1' l2'
         | _, _ => false
         end) x y
  | _, _ => false
  end.

(** [a != b] *)
Definition py_ne (a b : pyval) : bool := negb (py_eq a b).

(** [bool(v)] *)
Definition truthy (v : pyval) : bool :=
  match v with
  | VNone => false
  | VBool b => b
  | VInt n => negb (n =? 0)%Z
  | VFloat f => negb (PrimFloat.eqb f PrimFloat.zero)
  | VStr s => negb (is_empty s)
  | VList l | VTuple l => match l with [] => false | _ => true end
  | VDict d => match d with [] => false | _ => true end
  end.

(** [int(v)] and [float(v)] *)
Definition int_of_pyval (v : pyval) : result Z :=
  match v with
  | VBool b => Ok (Z.b2z b)
  | VInt n => Ok n
  | VFloat f => int_of_float f
  | VStr s => int_of_str s
  | _ => Raise TypeError
  end.

Definition float_of_pyval (v : pyval) : result float :=
  match v with
  | VBool b => float_of_int (Z.b2z b)
  | VInt n => float_of_int n
  | VFloat f => Ok f
  | VStr s => float_of_str s
  | _ => Raise TypeError
  end.

(** ** [repr], [str] and [json.dumps] *)

Definition hex_digit (n : N) : ascii :=
  if (n <? 10)%N then ascii_of_N (48 + n) else ascii_of_N (87 + n).

Definition hex2 (c : ascii) : string :=
  String (hex_digit (code c / 16)) (String (hex_digit (code c mod 16)) EmptyString).

Fixpoint concat_map (f : ascii -> string) (s : string) : string :=
  match s with
  | EmptyString => EmptyString
  | String c r => f c ++ concat_map f r
  end.

Definition char_str (c : ascii) : string := String c EmptyString.

(** [repr(s)] for a string. *)
Definition str_repr (s : string) : string :=
  let quote :=
    if contains (char_str squote) s && negb (contains (char_str dquote) s)
    then dquote else squote in
  let esc (c : ascii) : string :=
    let n := code c in
    if Ascii.eqb c backslash then String backslash (char_str backslash)
    else if Ascii.eqb c quote then String backslash (char_str quote)
    else if (n =? 10)%N then String backslash "n"
    else if (n =? 13)%N then String backslash "r"
    else if (n =? 9)%N then String backslash "t"
    else if ((n <? 32) || (n =? 127) || (128 <=? n) && (n <=? 160) || (n =? 173))%N
    then String backslash ("x" ++ hex2 c)
    else char_str c in
  String quote (concat_map esc s ++ char_str quote).

(** Can every integer inside [v] be written?  [repr], [str] and
    [json.dumps] raise the ValueError of [str_of_int] otherwise. *)
Fixpoint printable (v : pyval) : bool :=
  match v with
  | VInt n => match str_of_int n with Ok _ => true | Raise _ => false end
  | VList l | VTuple l => forallb printable l
  | VDict d => forallb (fun kv => printable (snd kv)) d
  | _ => true
  end.

(** The text of [repr(v)].  An [OrderedDict] prints as Python 3.12 and
    later do. *)
Fixpoint repr_text (v : pyval) : string :=
  match v with
  | VNone => "None"
  | VBool b => if b then "True" else "False"
  | VInt n => decimal_of_int n
  | VFloat f => float_repr f
  | VStr s => str_repr s
  | VList l => "[" ++ join ", " (map repr_text l) ++ "]"
  | VTuple l =>
      match l with
      | [x] => "(" ++ repr_text x ++ ",)"
      | _ => "(" ++ join ", " (map repr_text l) ++ ")"
      end
  | VDict d =>
      match d with
      | [] => "OrderedDict()"
      | _ =>
          "OrderedDict({"
            ++ join ", "
                 (map (fun kv => str_repr (fst kv) ++ ": " ++ repr_text (snd kv)) d)
            ++ "})"
      end
  end.

(** [repr(v)] *)
Definition py_repr (v : pyval) : result string :=
  if printable v then Ok (repr_text v) else Raise ValueError.

(** [str(v)], which is also the text of [v] in an f-string. *)
Definition py_str (v : pyval) : result string :=
  match v with
  | VStr s => Ok s
  | _ => py_repr v
  end.

(** A JSON string literal, as [json.dumps] writes it ([ensure_ascii]). *)
Definition json_string (s : string) : string :=
  let esc (c : ascii) : string :=
    let n := code c in
    if Ascii.eqb c dquote then String backslash (char_str dquote)
    else if Ascii.eqb c backslash then String backslash (char_str backslash)
    else if (n =? 10)%N then String backslash "n"
    else if (n =? 13)%N then String backslash "r"
    else if (n =? 9)%N then String backslash "t"
    else if (n =? 8)%N then String backslash "b"
    else if (n =? 12)%N then String backslash "f"
    else if ((n <? 32) || (126 <? n))%N then String backslash ("u00" ++ hex2 c)
    else char_str c in
  String dquote (concat_map esc s ++ char_str dquote).

(** The text of [json.dumps(v)]. *)
Fixpoint dumps_text (v : pyval) : string :=
  match v with
  | VNone => "null"
  | VBool b => if b then "true" else "false"
  | VInt n => decimal_of_int n
  | VFloat f =>
      if is_nan f then "NaN"
      else if is_inf f then
        (if PrimFloat.ltb f PrimFloat.zero then "-Infinity" else "Infinity")
      else float_repr f
  | VStr s => json_string s
  | VList l | VTuple l => "[" ++ join ", " (map dumps_text l) ++ "]"
  | VDict d =>
      "{" ++ join ", "
               (map (fun kv => json_string (fst kv) ++ ": " ++ dumps_text (snd kv)) d)
          ++ "}"
  end.

(** [json.dumps(v)] *)
Definition json_dumps (v : pyval) : result string :=
  if printable v then Ok (dumps_text v) else Raise ValueError.

(** ** [json.loads] with [object_pairs_hook=OrderedDict]

    The decoder of the standard library, for 8-bit text: a [\uXXXX] escape
    above U+00FF is not representable and is refused. *)

Definition json_ws (c : ascii) : bool :=
  let n := code c in ((n =? 32) || (n =? 9) || (n =? 10) || (n =? 13))%N.

Fixpoint skip_ws (s : string) : string :=
  match s with
  | EmptyString => EmptyString
  | String c r => if json_ws c then skip_ws r else s
  end.

Definition hex_val (c : ascii) : option N :=
  let n := code c in
  if is_digit c then Some (n - 48)%N
  else if ((97 <=? n) && (n <=? 102))%N then Some (n - 87)%N
  else if ((65 <=? n) && (n <=? 70))%N then Some (n - 55)%N
  else None.

Definition unescape_char (e : ascii) : option ascii :=
  if Ascii.eqb e dquote then Some dquote
  else if Ascii.eqb e backslash then Some backslash
  else if Ascii.eqb e "/" then Some "/"%char
  else if Ascii.eqb e "b" then Some "008"%char
  else if Ascii.eqb e "f" then Some "012"%char
  else if Ascii.eqb e "n" then Some nl
  else if Ascii.eqb e "r" then Some "013"%char
  else if Ascii.eqb e "t" then Some "009"%char
  else None.

Definition cons_fst (c : ascii) (x : option (string * string))
  : option (string * string) :=
  match x with
  | Some (a, b) => Some (String c a, b)
  | None => None
  end.

(** The body of a string literal, after its opening quote: the text and
    what follows the closing quote. *)
Fixpoint scanstring (s : string) : option (string * string) :=
  match s with
  | EmptyString => None
  | String c r =>
      if Ascii.eqb c dquote then Some (EmptyString, r)
      else if Ascii.eqb c backslash then
        match r with
        | String "u" (String h1 (String h2 (String h3 (String h4 r')))) =>
            match hex_val h1, hex_val h2, hex_val h3, hex_val h4 with
            | Some 0%N, Some 0%N, Some a, Some b =>
                cons_fst (ascii_of_N (16 * a + b)) (scanstring r')
            | _, _, _, _ => None
            end
        | String e r' =>
            match unescape_char e with
            | Some ch => cons_fst ch (scanstring r')
            | None => None
            end
        | EmptyString => None
        end
      else if (code c <? 32)%N then None
      else cons_fst c (scanstring r)
  end.

(** The number at the head of [s], by the decoder's pattern: an optional
    minus sign, then a single 0 or a non-zero digit and further digits; an
    optional fraction (a dot and at least one digit); an optional exponent
    (e or E, an optional sign, at least one digit).  An [int] without
    fraction and exponent, a [float] otherwise; [None] when no number
    stands there, and the ValueError of [int] for an integer of too many
    digits. *)
Definition match_number (s : string) : option (result (pyval * string)) :=
  let (sign, r) :=
    match s with String "-" r => ("-", r) | _ => (EmptyString, s) end in
  let int_part :=
    match r with
    | String "0" r' => Some ("0", r')
    | String c _ => if is_digit c then Some (span is_digit r) else None
    | EmptyString => None
    end in
  match int_part with
  | None => None
  | Some (ds, r1) =>
      let (frac, r2) :=
        match r1 with
        | String "." (String d _ as r') =>
            if is_digit d then let (fs, x) := span is_digit r' in ("." ++ fs, x)
            else (EmptyString, r1)
        | _ => (EmptyString, r1)
        end in
      let (ex, r3) :=
        match r2 with
        | String e r' =>
            if Ascii.eqb (lower_char e) "e" then
              let (sg, r'') :=
                match r' with
                | String "-" x => ("-", x)
                | String "+" x => ("+", x)
                | _ => (EmptyString, r')
                end in
              let (es, x) := span is_digit r'' in
              if is_empty es then (EmptyString, r2)
              else (String e (sg ++ es), x)
            else (EmptyString, r2)
        | EmptyString => (EmptyString, r2)
        end in
      if is_empty frac && is_empty ex then
        Some (bind (int_of_str (sign ++ ds)) (fun n => Ok (VInt n, r3)))
      else
        Some (bind (float_of_str (sign ++ ds ++ frac ++ ex))
                (fun f => Ok (VFloat f, r3)))
  end.

(** The decoder; [depth] is the number of objects and arrays it may still
    enter, one inside the other, before the interpreter's recursion limit
    is reached.  A text that is no JSON gives JSONDecodeError. *)
Fixpoint scan_once (fuel depth : nat) (s : string) {struct fuel}
  : result (pyval * string) :=
  match fuel with
  | O => Raise JSONDecodeError
  | S n =>
      match s with
      | EmptyString => Raise JSONDecodeError
      | String c r =>
          if Ascii.eqb c dquote then
            match scanstring r with
            | Some (str, r') => Ok (VStr str, r')
            | None => Raise JSONDecodeError
            end
          else if Ascii.eqb c "{" then
            match depth with
            | O => Raise RecursionError
            | S d => json_object n d r
            end
          else if Ascii.eqb c "[" then
            match depth with
            | O => Raise RecursionError
            | S d => json_array n d r
            end
          else if String.prefix "null" s then Ok (VNone, drop 4 s)
          else if String.prefix "true" s then Ok (VBool true, drop 4 s)
          else if String.prefix "false" s then Ok (VBool false, drop 5 s)
          else
            match match_number s with
            | Some x => x
            | None =>
                if String.prefix "NaN" s then Ok (VFloat PrimFloat.nan, drop 3 s)
                else if String.prefix "Infinity" s
                then Ok (VFloat PrimFloat.infinity, drop 8 s)
                else if String.prefix "-Infinity" s
                then Ok (VFloat PrimFloat.neg_infinity, drop 9 s)
                else Raise JSONDecodeError
            end
      end
  end

with json_object (fuel depth : nat) (s : string) {struct fuel}
  : result (pyval * string) :=
  match fuel with
  | O => Raise JSONDecodeError
  | S n =>
      match skip_ws s with
      | String "}" r => Ok (VDict [], r)
      | String c r =>
          if Ascii.eqb c dquote then json_members n depth r []
          else Raise JSONDecodeError
      | EmptyString => Raise JSONDecodeError
      end
  end

with json_members (fuel depth : nat) (s : string)
  (acc : list (string * pyval)) {struct fuel} : result (pyval * string) :=
  match fuel with
  | O => Raise JSONDecodeError
  | S n =>
      match scanstring s with
      | None => Raise JSONDecodeError
      | Some (key, r) =>
          match skip_ws r with
          | String ":" r1 =>
              match scan_once n depth (skip_ws r1) with
              | Raise e => Raise e
              | Ok (v, r2) =>
                  match skip_ws r2 with
                  | String "}" r3 =>
                      Ok (VDict (od_of_pairs (rev ((key, v) :: acc))), r3)
                  | String "," r3 =>
                      match skip_ws r3 with
                      | String c r4 =>
                          if Ascii.eqb c dquote
                          then json_members n depth r4 ((key, v) :: acc)
                          else Raise JSONDecodeError
                      | EmptyString => Raise JSONDecodeError
                      end
                  | _ => Raise JSONDecodeError
                  end
              end
          | _ => Raise JSONDecodeError
          end
      end
  end

with json_array (fuel depth : nat) (s : string) {struct fuel}
  : result (pyval * string) :=
  match fuel with
  | O => Raise JSONDecodeError
  | S n =>
      match skip_ws s with
      | String "]" r => Ok (VList [], r)
      | s1 => json_elements n depth s1 []
      end
  end

with json_elements (fuel depth : nat) (s : string) (acc : list pyval)
  {struct fuel} : result (pyval * string) :=
  match fuel with
  | O => Raise JSONDecodeError
  | S n =>
      match scan_once n depth s with
      | Raise e => Raise e
      | Ok (v, r) =>
          match skip_ws r with
          | String "]" r1 => Ok (VList (rev (v :: acc)), r1)
          | String "," r1 => json_elements n depth (skip_ws r1) (v :: acc)
          | _ => Raise JSONDecodeError
          end
      end
  end.

(** [json.loads(s, object_pairs_hook=OrderedDict)]: JSONDecodeError for a
    text that is no JSON document, ValueError for an integer of more than
    [max_str_digits] digits, RecursionError for objects and arrays nested
    deeper than [depth]. *)
Definition json_loads (depth : nat) (s : string) : result pyval :=
  match scan_once (3 * String.length s + 3) depth (skip_ws s) with
  | Ok (v, r) => if is_empty (skip_ws r) then Ok v else Raise JSONDecodeError
  | Raise e => Raise e
  end.

(** ** Files

    The file system as the sources use it: files by path, opened with
    [open(path, mode, encoding=...)] and so in text mode with the default
    newline handling, some of which cannot be opened for writing
    (read-only, or locked by another process).  [linesep] is the line
    terminator of the platform ([os.linesep]); [trace] records every
    attempt to write, in order; [recursion_depth] is the nesting the
    interpreter's recursion limit leaves to the JSON decoder. *)

Record World : Type := mkWorld {
  files : odict string;
  unwritable : list string;
  trace : list (string * bool);
  linesep : string;
  recursion_depth : nat
}.

Definition cr : ascii := "013"%char.

(** Reading in text mode: a carriage return with its line feed, a lone
    carriage return and a line feed all read as a line feed. *)
Fixpoint universal_newlines (s : string) : string :=
  match s with
  | EmptyString => EmptyString
  | String c r =>
      if Ascii.eqb c cr then
        String nl
          match r with
          | String d r' =>
              if Ascii.eqb d nl then universal_newlines r'
              else universal_newlines r
          | EmptyString => universal_newlines r
          end
      else String c (universal_newlines r)
  end.

(** Writing in text mode: each line feed is written as [os.linesep]. *)
Definition to_linesep (sep text : string) : string :=
  concat_map (fun c => if Ascii.eqb c nl then sep else char_str c) text.

(** [path.exists()] *)
Definition exists_file (w : World) (p : string) : bool := od_mem p (files w).

(** [open(p, 'r').readlines()] *)
Definition read_lines (w : World) (p : string) : result (list string) :=
  match od_get p (files w) with
  | Some content => Ok (readlines (universal_newlines content))
  | None => Raise FileNotFoundError
  end.

(** [open(p, 'w').writelines(lines)] *)
Definition write_lines (w : World) (p : string) (lines : list string)
  : World * result unit :=
  if existsb (String.eqb p) (unwritable w) then
    (mkWorld (files w) (unwritable w) (trace w ++ [(p, false)])%list
       (linesep w) (recursion_depth w),
     Raise OSError)
  else
    (mkWorld
       (od_set p (to_linesep (linesep w) (writelines lines)) (files w))
       (unwritable w) (trace w ++ [(p, true)])%list (linesep w)
       (recursion_depth w),
     Ok tt).

(** [filepath.parent / (prefix + filepath.name)], paths separated by [/]. *)
Fixpoint sibling (prefix p : string) : string :=
  match p with
  | EmptyString => prefix
  | String c r =>
      if contains "/" r then String c (sibling prefix r)
      else if Ascii.eqb c "/" then String c (prefix ++ r)
      else prefix ++ p
  end.

End Py.
Import Py.

(* ================================================================== *)
(** * core/parsers/json_parser.py *)
(* ================================================================== *)

Module json_parser.

Inductive FieldType : Type :=
| STRING
| INTEGER
| FLOAT
| BOOLEAN
| ARRAY
| OBJECT.

(** [FieldInfo].  [line_number] and [original_line] are the two attributes
    the INI parser adds to the objects it builds. *)
Record FieldInfo : Type := mkFieldInfo {
  path : string;
  value : pyval;
  description : string;
  type : FieldType;
  category : string;
  original_value : pyval;
  line_number : option nat;
  original_line : option string
}.

(** [FieldInfo(path, value, description, field_type, category)] *)
Definition new_FieldInfo (p : string) (v : pyval) (d : string)
  (t : FieldType) (c : string) : FieldInfo :=
  mkFieldInfo p v d t c v None None.

(** [info.value = v] *)
Definition set_value (info : FieldInfo) (v : pyval) : FieldInfo :=
  mkFieldInfo (path info) v (description info) (type info) (category info)
    (original_value info) (line_number info) (original_line info).

(** [info.category = c] *)
Definition set_category (info : FieldInfo) (c : string) : FieldInfo :=
  mkFieldInfo (path info) (value info) (description info) (type info) c
    (original_value info) (line_number info) (original_line info).

Record ConfigData : Type := mkConfigData {
  fields : odict FieldInfo;
  categories : odict (list string);
  descriptions : odict string;
  types : odict FieldType;
  raw_lines : list string
}.

(** ** The patterns of the module *)

Definition not_dquote (c : ascii) : bool := negb (Ascii.eqb c dquote).

(** A quoted name followed by a colon, at the head of [s]: the name and the
    text after the colon. *)
Definition key_here (s : string) : option (string * string) :=
  match s with
  | String c r =>
      if Ascii.eqb c dquote then
        let (k, r') := span not_dquote r in
        match k, r' with
        | String _ _, String _ (String ":" r'') => Some (k, r'')
        | _, _ => None
        end
      else None
  | EmptyString => None
  end.

(** [re.search] of a quoted name and a colon: the first name. *)
Fixpoint search_key (s : string) : option string :=
  match key_here s with
  | Some (k, _) => Some k
  | None =>
      match s with
      | EmptyString => None
      | String _ r => search_key r
      end
  end.

(** The body of a quoted text in which a backslash escapes the next
    character (any but a line feed): the body and what follows it.
    [bare_backslash] says whether a backslash that escapes nothing is part
    of the body, [stop] which characters end it. *)
Fixpoint escaped_body (bare_backslash : bool) (stop : ascii -> bool)
  (s : string) : string * string :=
  match s with
  | EmptyString => (EmptyString, EmptyString)
  | String c r =>
      if Ascii.eqb c backslash then
        match r with
        | String e r' =>
            if Ascii.eqb e nl then
              if bare_backslash then
                let (a, b) := escaped_body bare_backslash stop r in (String c a, b)
              else (EmptyString, s)
            else
              let (a, b) := escaped_body bare_backslash stop r' in
              (String c (String e a), b)
        | EmptyString =>
            if bare_backslash then (String c EmptyString, EmptyString)
            else (EmptyString, s)
        end
      else if stop c then (EmptyString, s)
      else let (a, b) := escaped_body bare_backslash stop r in (String c a, b)
  end.

Definition is_quote (c : ascii) : bool :=
  Ascii.eqb c dquote || Ascii.eqb c squote.

(** The inline description pattern: the first hash sign, colons and blanks,
    an optional quote, then the description up to the next quote. *)
Fixpoint search_inline_description (s : string) : option string :=
  match s with
  | EmptyString => None
  | String c r =>
      if Ascii.eqb c "#" then
        let r1 := snd (span (fun x => Ascii.eqb x ":" || is_space x) r) in
        let r2 := match r1 with
                  | String x r' => if is_quote x then r' else r1
                  | EmptyString => r1
                  end in
        Some (fst (escaped_body true is_quote r2))
      else search_inline_description r
  end.

Fixpoint remove_last (s : string) : string :=
  match s with
  | EmptyString => EmptyString
  | String c EmptyString => EmptyString
  | String c r => String c (remove_last r)
  end.

(** A shadow entry at the head of [s]: a quoted name ending in a hash sign,
    a colon, blanks and a quoted description.  The name without its hash
    sign, the description, and the text after the closing quote. *)
Definition shadow_here (s : string) : option (string * string * string) :=
  match key_here s with
  | Some (k, r) =>
      match last_char k, remove_last k with
      | Some "#"%char, (String _ _ as name) =>
          match lstrip r with
          | String c r1 =>
              if Ascii.eqb c dquote then
                let (body, r2) := escaped_body false (Ascii.eqb dquote) r1 in
                match r2 with
                | String c2 r3 =>
                    if Ascii.eqb c2 dquote then Some (name, body, r3) else None
                | EmptyString => None
                end
              else None
          | EmptyString => None
          end
      | _, _ => None
      end
  | None => None
  end.

(** [re.search] of a shadow entry. *)
Fixpoint search_shadow (s : string) : option (string * string) :=
  match shadow_here s with
  | Some (name, body, _) => Some (name, body)
  | None =>
      match s with
      | EmptyString => None
      | String _ r => search_shadow r
      end
  end.

(** Does the whole line consist of one shadow entry, an optional comma and
    blanks? *)
Definition is_description_line (s : string) : bool :=
  match shadow_here (lstrip s) with
  | Some (_, _, r) =>
      let r' := match r with String "," x => x | _ => r end in
      is_empty (lstrip r')
  | None => false
  end.

(** The field pattern of the writer: a quoted name, a colon, blanks and a
    value that runs up to the next comma or closing brace.  When only
    blanks precede the comma, the brace or the end of the line, the value
    matched is the last of these blanks. *)
Definition not_value_end (c : ascii) : bool :=
  negb (Ascii.eqb c "," || Ascii.eqb c "}").

Definition field_here (s : string) : option (string * string) :=
  match key_here s with
  | Some (k, r) =>
      let (ws, r1) := span is_space r in
      match fst (span not_value_end r1), last_char ws with
      | String _ _ as v, _ => Some (k, v)
      | EmptyString, Some c => Some (k, String c EmptyString)
      | EmptyString, None => None
      end
  | None => None
  end.

(** [re.search] of the field pattern: the name and the value text. *)
Fixpoint search_field (s : string) : option (string * string) :=
  match field_here s with
  | Some x => Some x
  | None =>
      match s with
      | EmptyString => None
      | String _ r => search_field r
      end
  end.

(** ** [JsonWithCommentsParser] *)

(** The unescaping of a description: three [replace] calls in a row. *)
Definition unescape (raw : string) : string :=
  replace (String backslash (char_str backslash)) (char_str backslash)
    (replace (String backslash (char_str squote)) (char_str squote)
       (replace (String backslash (char_str dquote)) (char_str dquote) raw)).

Definition extract_descriptions_line (descriptions : odict string)
  (raw_line : string) : odict string :=
  let line := strip raw_line in
  let d1 :=
    if contains "//" line && contains "#" line then
      match search_key line with
      | Some field_name =>
          match search_inline_description line with
          | Some desc => od_set field_name (unescape (strip desc)) descriptions
          | None => descriptions
          end
      | None => descriptions
      end
    else descriptions in
  if contains (String "#" (String dquote ":")) line && negb (contains "//" line)
  then
    match search_shadow line with
    | Some (field_name, desc) => od_set field_name (unescape desc) d1
    | None => d1
    end
  else d1.

Definition extract_descriptions (lines : list string) : odict string :=
  fold_left extract_descriptions_line lines [].

(** The position of the first [//] outside a quoted text, if any. *)
Fixpoint comment_pos (s : string) (in_string escape_next : bool) (j : nat)
  : option nat :=
  match s with
  | EmptyString => None
  | String c r =>
      if escape_next then comment_pos r in_string false (S j)
      else if Ascii.eqb c backslash then comment_pos r in_string true (S j)
      else if Ascii.eqb c dquote then comment_pos r (negb in_string) false (S j)
      else if negb in_string && Ascii.eqb c "/"
              && match r with String "/" _ => true | _ => false end
      then Some j
      else comment_pos r in_string false (S j)
  end.

Definition clean_line (line : string) : option string :=
  let line1 :=
    if contains "//" line then
      match comment_pos line false false 0 with
      | Some j => rstrip (take j line)
      | None => line
      end
    else line in
  if is_description_line (strip line1) then None else Some line1.

(** The substitution that drops a comma followed, after blanks, by a
    closing brace or bracket. *)
Fixpoint drop_trailing_commas (s : string) : string :=
  match s with
  | EmptyString => EmptyString
  | String c r =>
      if Ascii.eqb c ","
         && match lstrip r with
            | String d _ => Ascii.eqb d "}" || Ascii.eqb d "]"
            | EmptyString => false
            end
      then drop_trailing_commas r
      else String c (drop_trailing_commas r)
  end.

Definition _remove_comments (lines : list string) : string :=
  let clean_lines :=
    flat_map (fun l => match clean_line l with Some x => [x] | None => [] end)
      lines in
  drop_trailing_commas (join EmptyString clean_lines).

Definition preserve_types (v : pyval) : FieldType :=
  match v with
  | VBool _ => BOOLEAN
  | VInt _ => INTEGER
  | VFloat _ => FLOAT
  | VList _ => ARRAY
  | VDict _ => OBJECT
  | _ => STRING
  end.

(** [a or b] on strings *)
Definition str_or (a b : string) : string := if is_empty a then b else a.

Definition get_default (k : string) (d : odict string) : string :=
  match od_get k d with Some x => x | None => EmptyString end.

Definition child_path (parent_path key : string) : string :=
  if is_empty parent_path then key else parent_path ++ "." ++ key.

(** [build_field_hierarchy], on the dictionary [VDict data]. *)
Fixpoint hierarchy_of (data : pyval) (descriptions : odict string)
  (parent_path : string) {struct data} : odict FieldInfo :=
  match data with
  | VDict items =>
      (fix loop (items : list (string * pyval)) (fields : odict FieldInfo)
         {struct items} : odict FieldInfo :=
         match items with
         | [] => fields
         | (key, v) :: rest =>
             let current_path := child_path parent_path key in
             let field_type := preserve_types v in
             let description :=
               str_or (get_default key descriptions)
                 (get_default current_path descriptions) in
             match v with
             | VDict _ =>
                 let category := key in
                 let nested_fields :=
                   hierarchy_of v descriptions current_path in
                 loop rest
                   (fold_left
                      (fun fs nested =>
                         od_set (fst nested) (set_category (snd nested) category) fs)
                      nested_fields fields)
             | _ =>
                 loop rest
                   (od_set current_path
                      (new_FieldInfo current_path v description field_type
                         (if is_empty parent_path then "General" else parent_path))
                      fields)
             end
         end) items []
  | _ => []
  end.

Definition build_field_hierarchy (data : odict pyval)
  (descriptions : odict string) (parent_path : string) : odict FieldInfo :=
  hierarchy_of (VDict data) descriptions parent_path.

Definition _build_categories (fs : odict FieldInfo) : odict (list string) :=
  fold_left
    (fun cats entry =>
       let c := category (snd entry) in
       let old := match od_get c cats with Some l => l | None => [] end in
       od_set c (old ++ [fst entry])%list cats)
    fs [].

(** The part of [parse_file] that follows the reading of the lines.  The
    text handed to the decoder comes back with a decoding error, for the
    debug file; [depth] is the nesting left to the decoder. *)
Definition parse_lines (depth : nat) (lines : list string)
  : result ConfigData * string :=
  let descs := extract_descriptions lines in
  let clean_json := _remove_comments lines in
  match json_loads depth clean_json with
  | Raise e => (Raise e, clean_json)
  | Ok (VDict data) =>
      let fs := build_field_hierarchy data descs EmptyString in
      (Ok (mkConfigData fs (_build_categories fs) descs [] lines), clean_json)
  | Ok _ => (Raise AttributeError, clean_json)
  end.

(** [parse_file].  A decoding error first saves the cleaned text beside the
    file, then propagates; any other exception propagates at once. *)
Definition parse_file (w : World) (filepath : string)
  : World * result ConfigData :=
  if negb (exists_file w filepath) then (w, Raise FileNotFoundError)
  else
    match read_lines w filepath with
    | Raise e => (w, Raise e)
    | Ok lines =>
        match parse_lines (recursion_depth w) lines with
        | (Raise JSONDecodeError, clean_json) =>
            match write_lines w (sibling "debug_cleaned_" filepath) [clean_json] with
            | (w', Ok _) => (w', Raise JSONDecodeError)
            | (w', Raise e) => (w', Raise e)
            end
        | (r, _) => (w, r)
        end
    end.

Definition _format_value_for_json (v : pyval) (field_type : FieldType)
  : result string :=
  match field_type with
  | STRING =>
      bind (py_str v) (fun text =>
      Ok (char_str dquote ++ text ++ char_str dquote))
  | BOOLEAN => Ok (if truthy v then "true" else "false")
  | INTEGER | FLOAT => py_str v
  | ARRAY | OBJECT => json_dumps v
  end.

(** The field the writer takes for the name found on a line: the first one,
    in document order, whose path ends with the name. *)
Fixpoint find_field (field_name : string) (fs : odict FieldInfo)
  : option FieldInfo :=
  match fs with
  | [] => None
  | (field_path, info) :: rest =>
      if endswith field_name field_path || String.eqb field_path field_name
      then Some info
      else find_field field_name rest
  end.

(** One turn of the writer's loop: the line written for [line]. *)
Definition write_line (fs : odict FieldInfo) (line : string)
  : result string :=
  match search_field line with
  | Some (field_name, old_value) =>
      match find_field field_name fs with
      | Some field_info =>
          if py_ne (value field_info) (original_value field_info) then
            bind (_format_value_for_json (value field_info) (type field_info))
              (fun new_value => Ok (replace old_value new_value line))
          else Ok line
      | None => Ok line
      end
  | None => Ok line
  end.

Definition new_lines (config_data : ConfigData) : result (list string) :=
  map_result (write_line (fields config_data)) (raw_lines config_data).

(** [write_preserving_structure]: [True] when the file was written; any
    exception is caught and gives [False], and one raised while the lines
    are made leaves the file unopened. *)
Definition write_preserving_structure (w : World) (config_data : ConfigData)
  (output_path : string) : World * bool :=
  match new_lines config_data with
  | Raise _ => (w, false)
  | Ok lines =>
      match write_lines w output_path lines with
      | (w', Ok _) => (w', true)
      | (w', Raise _) => (w', false)
      end
  end.

End json_parser.
Import json_parser.

(* ================================================================== *)
(** * core/parsers/ini_parser.py *)
(* ================================================================== *)

Module ini_parser.

(** The entry stored for a key: the dictionary with the keys [value],
    [comment], [line_number] and [original_line]. *)
Record entry : Type := mkEntry {
  e_value : pyval;
  e_comment : string;
  e_line_number : nat;
  e_original_line : string
}.

(** A section header at the head of the stripped line: an opening bracket,
    at least one character other than a closing bracket, a closing
    bracket. *)
Definition section_header (line : string) : option string :=
  match line with
  | String "[" r =>
      match span (fun c => negb (Ascii.eqb c "]")) r with
      | (String _ _ as name, String "]" _) => Some name
      | _ => None
      end
  | _ => None
  end.

Definition bool_words_true : list string := ["true"; "on"; "yes"; "1"].
Definition bool_words_false : list string := ["false"; "off"; "no"; "0"].

Definition mem_str (s : string) (l : list string) : bool :=
  existsb (String.eqb s) l.

(** One part of a parenthesized value: a float when it reads as one, the
    text of the part otherwise. *)
Definition parse_part (part : string) : pyval :=
  match float_of_str part with
  | Ok f => VFloat f
  | Raise _ => VStr part
  end.

Definition _parse_ini_value (value_str0 : string) : pyval :=
  let value_str := strip value_str0 in
  if mem_str (lower value_str) bool_words_true then VBool true
  else if mem_str (lower value_str) bool_words_false then VBool false
  else
    let numeric :=
      try_except
        (if negb (contains "." value_str)
         then bind (int_of_str value_str) (fun n => Ok (Some (VInt n)))
         else bind (float_of_str value_str) (fun f => Ok (Some (VFloat f))))
        [ValueError] (Ok None) in
    match numeric with
    | Ok (Some v) => v
    | _ =>
        if startswith "(" value_str && endswith ")" value_str then
          let inner := remove_last (drop 1 value_str) in
          let parts := map strip (split_char "," inner) in
          VTuple (map parse_part parts)
        else VStr value_str
    end.

(** The state of the loop of [parse_with_comments]. *)
Record pstate : Type := mkPstate {
  data : odict (odict entry);
  current_section : option string
}.

(** [key, value = line.split(sep, 1)] *)
Definition unpack2 (sep line : string) : result (string * string) :=
  match split_once sep line with
  | Some kv => Ok kv
  | None => Raise ValueError
  end.

Definition parse_line (st : pstate) (line_num : nat) (original_line : string)
  : result pstate :=
  let line := strip original_line in
  if is_empty line then Ok st
  else if startswith "//" line then Ok st
  else
    match section_header line with
    | Some name =>
        Ok (mkPstate
              (if od_mem name (data st) then data st
               else od_set name [] (data st))
              (Some name))
    | None =>
        match current_section st with
        | Some sec =>
            if contains "=" line then
              let (line1, comment) :=
                match split_once "//" line with
                | Some (line_part, comment_part) =>
                    (strip line_part, strip comment_part)
                | None => (line, EmptyString)
                end in
              bind (unpack2 "=" line1) (fun kv =>
                let key := strip (fst kv) in
                let parsed_value := _parse_ini_value (strip (snd kv)) in
                let section_data :=
                  match od_get sec (data st) with Some d => d | None => [] end in
                Ok (mkPstate
                      (od_set sec
                         (od_set key
                            (mkEntry parsed_value comment line_num original_line)
                            section_data)
                         (data st))
                      (Some sec)))
            else Ok st
        | None => Ok st
        end
    end.

Fixpoint parse_loop (lines : list string) (line_num : nat) (st : pstate)
  : result pstate :=
  match lines with
  | [] => Ok st
  | l :: rest => bind (parse_line st line_num l) (parse_loop rest (S line_num))
  end.

Definition parse_with_comments (lines : list string)
  : result (odict (odict entry)) :=
  bind (parse_loop lines 0 (mkPstate [] None)) (fun st => Ok (data st)).

Definition _determine_field_type (v : pyval) : FieldType :=
  match v with
  | VBool _ => BOOLEAN
  | VInt _ => INTEGER
  | VFloat _ => FLOAT
  | VList _ | VTuple _ => ARRAY
  | _ => STRING
  end.

Definition _build_field_info (parsed_data : odict (odict entry))
  : odict FieldInfo :=
  fold_left
    (fun fs section =>
       fold_left
         (fun fs' kv =>
            let field_path := fst section ++ "." ++ fst kv in
            let v := e_value (snd kv) in
            od_set field_path
              (mkFieldInfo field_path v (e_comment (snd kv))
                 (_determine_field_type v) (fst section) v
                 (Some (e_line_number (snd kv)))
                 (Some (e_original_line (snd kv))))
              fs')
         (snd section) fs)
    parsed_data [].

Definition _build_categories (fs : odict FieldInfo) : odict (list string) :=
  json_parser._build_categories fs.

Definition parse_lines (lines : list string) : result ConfigData :=
  bind (parse_with_comments lines) (fun parsed_data =>
    let fs := _build_field_info parsed_data in
    Ok (mkConfigData fs (_build_categories fs) [] [] lines)).

Definition parse_file (w : World) (filepath : string) : result ConfigData :=
  if negb (exists_file w filepath) then Raise FileNotFoundError
  else bind (read_lines w filepath) parse_lines.

Definition _format_value_for_ini (v : pyval) (field_type : FieldType)
  : result string :=
  match field_type, v with
  | BOOLEAN, _ => Ok (if truthy v then "1" else "0")
  | ARRAY, VTuple l =>
      bind (map_result (fun x => match x with
                                 | VFloat f => Ok (format_3f f)
                                 | _ => py_str x
                                 end) l)
        (fun formatted_values =>
           Ok ("(" ++ join ", " formatted_values ++ ")"))
  | _, _ => py_str v
  end.

(** The field the writer takes for a key: the first one, in document
    order, whose path ends with a dot and the key. *)
Fixpoint find_field (key : string) (fs : odict FieldInfo) : option FieldInfo :=
  match fs with
  | [] => None
  | (field_path, info) :: rest =>
      if endswith ("." ++ key) field_path then Some info
      else find_field key rest
  end.

(** The key of a key-value line: the text before the first equals sign,
    which the pattern wants non-empty. *)
Definition line_key (line_stripped : string) : option string :=
  match span (fun c => negb (Ascii.eqb c "=")) line_stripped with
  | (String _ _ as k, String "=" _) => Some (strip k)
  | _ => None
  end.

(** One turn of the writer's loop: the line written for [line]. *)
Definition write_line (fs : odict FieldInfo) (line : string)
  : result string :=
  let line_stripped := strip line in
  if is_empty line_stripped || startswith "//" line_stripped
     || startswith "[" line_stripped
  then Ok line
  else if contains "=" line_stripped then
    match line_key line_stripped with
    | Some key =>
        match find_field key fs with
        | Some field_info =>
            match line_number field_info with
            | Some _ =>
                if py_ne (value field_info) (original_value field_info) then
                  bind (_format_value_for_ini (value field_info)
                          (type field_info))
                    (fun new_value =>
                       match split_once "//" line with
                       | Some (_, comment_part) =>
                           Ok (key ++ "=" ++ new_value ++ " //" ++ comment_part)
                       | None => Ok (key ++ "=" ++ new_value ++ char_str nl)
                       end)
                else Ok line
            | None => Ok line
            end
        | None => Ok line
        end
    | None => Ok line
    end
  else Ok line.

Definition new_lines (config_data : ConfigData) : result (list string) :=
  map_result (write_line (fields config_data)) (raw_lines config_data).

(** [write_preserving_structure]: as the settings writer, any exception is
    caught and gives [False]. *)
Definition write_preserving_structure (w : World) (config_data : ConfigData)
  (output_path : string) : World * bool :=
  match new_lines config_data with
  | Raise _ => (w, false)
  | Ok lines =>
      match write_lines w output_path lines with
      | (w', Ok _) => (w', true)
      | (w', Raise _) => (w', false)
      end
  end.

End ini_parser.

(* ================================================================== *)
(** * core/models/field_state.py *)
(* ================================================================== *)

Module field_state.

Inductive ValidationState : Type :=
| VALID
| WARNING
| ERROR.

(** [modification_time] holds what [datetime.now()] returned. *)
Record FieldState : Type := mkFieldState {
  original_value : pyval;
  current_value : pyval;
  is_modified : bool;
  modification_time : option Z;
  validation_errors : list string;
  validation_warnings : list string;
  validation_state : ValidationState
}.

(** [FieldState(original_value)] *)
Definition new_FieldState (v : pyval) : FieldState :=
  mkFieldState v v false None [] [] VALID.

(** [set_value]; [now] is the clock's reading. *)
Definition set_value (self : FieldState) (new_value : pyval) (now : Z)
  : bool * FieldState :=
  if py_eq new_value (current_value self) then (false, self)
  else
    let modified := py_ne new_value (original_value self) in
    (true,
     mkFieldState (original_value self) new_value modified
       (if modified then Some now else None) [] [] VALID).

Definition revert (self : FieldState) : bool * FieldState :=
  if negb (is_modified self) then (false, self)
  else
    (true,
     mkFieldState (original_value self) (original_value self) false None
       [] [] VALID).

Definition apply_changes (self : FieldState) : FieldState :=
  mkFieldState (current_value self) (current_value self) false None
    (validation_errors self) (validation_warnings self)
    (validation_state self).

Definition add_validation_error (self : FieldState) (error : string)
  : FieldState :=
  if existsb (String.eqb error) (validation_errors self) then self
  else
    mkFieldState (original_value self) (current_value self) (is_modified self)
      (modification_time self) (validation_errors self ++ [error])%list
      (validation_warnings self) ERROR.

Definition add_validation_warning (self : FieldState) (warning : string)
  : FieldState :=
  if existsb (String.eqb warning) (validation_warnings self) then self
  else
    mkFieldState (original_value self) (current_value self) (is_modified self)
      (modification_time self) (validation_errors self)
      (validation_warnings self ++ [warning])%list
      (match validation_state self with VALID => WARNING | st => st end).

Definition clear_validation (self : FieldState) : FieldState :=
  mkFieldState (original_value self) (current_value self) (is_modified self)
    (modification_time self) [] [] VALID.

Definition has_errors (self : FieldState) : bool :=
  match validation_errors self with [] => false | _ => true end.

Definition has_warnings (self : FieldState) : bool :=
  match validation_warnings self with [] => false | _ => true end.

Definition is_valid (self : FieldState) : bool := negb (has_errors self).

End field_state.

(* ================================================================== *)
(** * core/models/configuration_model.py *)
(* ================================================================== *)

Module configuration_model.

Import field_state.

(** What the observers are told: the event name and its arguments. *)
Inductive event : Type :=
| configuration_loaded
| field_changed (field_path : string) (v : pyval)
| field_reverted (field_path : string)
| all_changes_reverted (n : nat)
| changes_applied.

(** [_modified_fields] is a set: a list in which a path occurs once.
    [notified] is the sequence of notifications sent to the observers. *)
Record ConfigurationModel : Type := mkModel {
  json_config : option ConfigData;
  ini_config : option ConfigData;
  field_states : odict FieldState;
  json_file_path : option string;
  ini_file_path : option string;
  _modified_fields : list string;
  notified : list event
}.

(** [ConfigurationModel()] *)
Definition new_model : ConfigurationModel :=
  mkModel None None [] None None [] [].

Definition set_add (x : string) (s : list string) : list string :=
  if existsb (String.eqb x) s then s else (s ++ [x])%list.

Definition set_discard (x : string) (s : list string) : list string :=
  filter (fun y => negb (String.eqb x y)) s.

Definition _notify_observers (self : ConfigurationModel) (e : event)
  : ConfigurationModel :=
  mkModel (json_config self) (ini_config self) (field_states self)
    (json_file_path self) (ini_file_path self) (_modified_fields self)
    (notified self ++ [e])%list.

Definition config_fields (c : option ConfigData) : odict FieldInfo :=
  match c with Some d => fields d | None => [] end.

(** The field states after [_initialize_field_states]. *)
Definition initial_field_states (json_cfg ini_cfg : option ConfigData)
  : odict FieldState :=
  let js :=
    fold_left
      (fun st kv => od_set (fst kv) (new_FieldState (value (snd kv))) st)
      (config_fields json_cfg) [] in
  fold_left
    (fun st kv =>
       od_set ("ini." ++ fst kv) (new_FieldState (value (snd kv))) st)
    (config_fields ini_cfg) js.

Definition _initialize_field_states (self : ConfigurationModel)
  : ConfigurationModel :=
  mkModel (json_config self) (ini_config self)
    (initial_field_states (json_config self) (ini_config self))
    (json_file_path self) (ini_file_path self) [] (notified self).

(** [load_configuration].  The assignments to [self] happen one after the
    other inside the [try]; an exception leaves those already made. *)
Definition load_configuration (self : ConfigurationModel) (w : World)
  (json_path ini_path : string) : World * ConfigurationModel * bool :=
  match json_parser.parse_file w json_path with
  | (w1, Raise _) => (w1, self, false)
  | (w1, Ok jc) =>
      let self1 :=
        mkModel (Some jc) (ini_config self) (field_states self)
          (Some json_path) (ini_file_path self) (_modified_fields self)
          (notified self) in
      match ini_parser.parse_file w1 ini_path with
      | Raise _ => (w1, self1, false)
      | Ok ic =>
          let self2 :=
            mkModel (Some jc) (Some ic) (field_states self1)
              (Some json_path) (Some ini_path) (_modified_fields self1)
              (notified self1) in
          (w1,
           _notify_observers (_initialize_field_states self2)
             configuration_loaded,
           true)
      end
  end.

Definition get_field_value (self : ConfigurationModel) (field_path : string)
  : pyval :=
  match od_get field_path (field_states self) with
  | Some fs => current_value fs
  | None => VNone
  end.

(** The handlers write [v] into their warning, and so raise what [str(v)]
    raises. *)
Definition _convert_value_to_type (v original : pyval) : result pyval :=
  match original with
  | VBool _ => Ok (VBool (truthy v))
  | VInt _ =>
      try_except
        (match v with
         | VStr s =>
             if is_empty (strip s) then Ok (VInt 0)
             else
               bind (float_of_str s) (fun f =>
               bind (int_of_float f) (fun n => Ok (VInt n)))
         | _ => bind (int_of_pyval v) (fun n => Ok (VInt n))
         end)
        [ValueError; TypeError] (bind (py_str v) (fun _ => Ok (VInt 0)))
  | VFloat _ =>
      try_except
        (match v with
         | VStr s =>
             if is_empty (strip s) then Ok (VFloat PrimFloat.zero)
             else bind (float_of_str s) (fun f => Ok (VFloat f))
         | _ => bind (float_of_pyval v) (fun f => Ok (VFloat f))
         end)
        [ValueError; TypeError]
        (bind (py_str v) (fun _ => Ok (VFloat PrimFloat.zero)))
  | _ =>
      match v with
      | VNone => Ok (VStr EmptyString)
      | _ => bind (py_str v) (fun text => Ok (VStr text))
      end
  end.

Definition update_field (p : string) (v : pyval) (c : option ConfigData)
  : option ConfigData :=
  match c with
  | Some d =>
      match od_get p (fields d) with
      | Some info =>
          Some (mkConfigData (od_set p (json_parser.set_value info v) (fields d))
                  (categories d) (descriptions d) (types d) (raw_lines d))
      | None => c
      end
  | None => None
  end.

Definition _update_config_data (self : ConfigurationModel)
  (field_path : string) (v : pyval) : ConfigurationModel :=
  if startswith "ini." field_path then
    mkModel (json_config self)
      (update_field (drop 4 field_path) v (ini_config self))
      (field_states self) (json_file_path self) (ini_file_path self)
      (_modified_fields self) (notified self)
  else
    mkModel (update_field field_path v (json_config self))
      (ini_config self) (field_states self) (json_file_path self)
      (ini_file_path self) (_modified_fields self) (notified self).

Definition with_states (self : ConfigurationModel) (st : odict FieldState)
  (modified : list string) : ConfigurationModel :=
  mkModel (json_config self) (ini_config self) st (json_file_path self)
    (ini_file_path self) modified (notified self).

(** [set_field_value]; [now] is the clock's reading. *)
Definition set_field_value (self : ConfigurationModel) (field_path : string)
  (v : pyval) (now : Z) : result (ConfigurationModel * bool) :=
  match od_get field_path (field_states self) with
  | None => Ok (self, false)
  | Some fs =>
      bind (_convert_value_to_type v (original_value fs)) (fun converted =>
        let (changed, fs') := set_value fs converted now in
        if changed then
          let self1 :=
            with_states self (od_set field_path fs' (field_states self))
              (if is_modified fs'
               then set_add field_path (_modified_fields self)
               else set_discard field_path (_modified_fields self)) in
          Ok (_notify_observers
                (_update_config_data self1 field_path converted)
                (field_changed field_path converted),
              true)
        else Ok (self, false))
  end.

Definition is_field_modified (self : ConfigurationModel) (field_path : string)
  : bool :=
  match od_get field_path (field_states self) with
  | Some fs => is_modified fs
  | None => false
  end.

Definition revert_field (self : ConfigurationModel) (field_path : string)
  : ConfigurationModel * bool :=
  match od_get field_path (field_states self) with
  | None => (self, false)
  | Some fs =>
      let (reverted, fs') := revert fs in
      if reverted then
        let self1 :=
          with_states self (od_set field_path fs' (field_states self))
            (set_discard field_path (_modified_fields self)) in
        (_notify_observers
           (_update_config_data self1 field_path (current_value fs'))
           (field_reverted field_path),
         true)
      else (self, false)
  end.

Definition revert_all_changes (self : ConfigurationModel)
  : ConfigurationModel * nat :=
  let (self1, reverted_count) :=
    fold_left
      (fun acc field_path =>
         let (m, ok) := revert_field (fst acc) field_path in
         (m, if ok then S (snd acc) else snd acc))
      (_modified_fields self) (self, 0) in
  (if Nat.ltb 0 reverted_count
   then _notify_observers self1 (all_changes_reverted reverted_count)
   else self1,
   reverted_count).

(** The loop over the modified set in [apply_changes]. *)
Definition promote (st : odict FieldState) (field_path : string)
  : odict FieldState :=
  match od_get field_path st with
  | Some fs => od_set field_path (apply_changes fs) st
  | None => st
  end.

(** [apply_changes]: the success flag and the error message. *)
Definition apply_changes (self : ConfigurationModel) (w : World)
  : World * ConfigurationModel * (bool * option string) :=
  let (w1, json_ok) :=
    match json_config self, json_file_path self with
    | Some c, Some p => json_parser.write_preserving_structure w c p
    | _, _ => (w, true)
    end in
  if negb json_ok then
    (w1, self, (false, Some "Failed to write JSON configuration"))
  else
    let (w2, ini_ok) :=
      match ini_config self, ini_file_path self with
      | Some c, Some p => ini_parser.write_preserving_structure w1 c p
      | _, _ => (w1, true)
      end in
    if negb ini_ok then
      (w2, self, (false, Some "Failed to write INI configuration"))
    else
      (w2,
       _notify_observers
         (with_states self
            (fold_left promote (_modified_fields self) (field_states self))
            [])
         changes_applied,
       (true, None)).

Definition has_changes (self : ConfigurationModel) : bool :=
  Nat.ltb 0 (List.length (_modified_fields self)).

Definition change_count (self : ConfigurationModel) : nat :=
  List.length (_modified_fields self).

(** [get_modified_fields] *)
Definition get_modified_fields (self : ConfigurationModel) : list string :=
  _modified_fields self.

(** [get_field_info] *)
Definition get_field_info (self : ConfigurationModel) (field_path : string)
  : option FieldInfo :=
  if startswith "ini." field_path then
    od_get (drop 4 field_path) (config_fields (ini_config self))
  else od_get field_path (config_fields (json_config self)).

Definition config_categories (c : option ConfigData) : odict (list string) :=
  match c with Some d => categories d | None => [] end.

(** [get_categories] *)
Definition get_categories (self : ConfigurationModel) : odict (list string) :=
  let js :=
    fold_left
      (fun cats kv => od_set ("JSON - " ++ fst kv)%string (snd kv) cats)
      (config_categories (json_config self)) [] in
  fold_left
    (fun cats kv =>
       od_set ("DX11 - " ++ fst kv)%string
         (map (fun f => ("ini." ++ f)%string) (snd kv)) cats)
    (config_categories (ini_config self)) js.

(** The last part of the path, after its last dot. *)
Definition last_segment (field_path : string) : string :=
  last (split_char "." field_path) EmptyString.

(** [search_fields] *)
Definition search_fields (self : ConfigurationModel) (query : string)
  : list string :=
  let query_lower := lower query in
  let hit (field_path : string) : bool :=
    contains query_lower (lower (last_segment field_path)) in
  (map fst (filter (fun kv => hit (fst kv)) (config_fields (json_config self)))
   ++ map (fun kv => ("ini." ++ fst kv)%string)
        (filter (fun kv => hit (fst kv)) (config_fields (ini_config self))))%list.

(** [is_valid] *)
Definition is_valid (self : ConfigurationModel) : bool :=
  forallb (fun kv => field_state.is_valid (snd kv)) (field_states self).

End configuration_model.

(* ================================================================== *)
(** * core/comparison_engine.py *)
(* ================================================================== *)

Module comparison_engine.

(** [isinstance(v, (int, float))] *)
Definition is_number (v : pyval) : bool := is_int v || is_float v.

(** [isinstance(v, (list, tuple))] *)
Definition is_seq (v : pyval) : bool := is_list v || is_tuple v.

Definition seq_items (v : pyval) : list pyval :=
  match v with
  | VList l | VTuple l => l
  | _ => []
  end.

Definition tolerance : float := 1e-10%float.

(** [abs(float(value1) - float(value2)) < 1e-10] *)
Definition close_floats (value1 value2 : pyval) : result bool :=
  bind (float_of_pyval value1) (fun f1 =>
  bind (float_of_pyval value2) (fun f2 =>
  Ok (PrimFloat.ltb (PrimFloat.abs (PrimFloat.sub f1 f2)) tolerance))).

Definition str_text (v : pyval) : string :=
  match v with VStr s => s | _ => EmptyString end.

(** [_values_equal].  [all] stops at the first pair found unequal. *)
Fixpoint _values_equal (value1 value2 : pyval) {struct value1} : result bool :=
  match value1, value2 with
  | VNone, VNone => Ok true
  | VNone, _ | _, VNone => Ok false
  | _, _ =>
      if is_number value1 && is_number value2 then
        if is_float value1 || is_float value2
        then close_floats value1 value2
        else Ok (py_eq value1 value2)
      else if is_str value1 && is_str value2 then
        Ok (String.eqb (strip (str_text value1)) (strip (str_text value2)))
      else if is_bool value1 && is_bool value2 then
        Ok (py_eq value1 value2)
      else
        match value1 with
        | VList l1 | VTuple l1 =>
            if is_seq value2 then
              if negb (Nat.eqb (List.length l1) (List.length (seq_items value2)))
              then Ok false
              else
                (fix all_equal (xs ys : list pyval) {struct xs} : result bool :=
                   match xs, ys with
                   | v1 :: xs', v2 :: ys' =>
                       bind (_values_equal v1 v2) (fun b =>
                         if b then all_equal xs' ys' else Ok false)
                   | _, _ => Ok true
                   end) l1 (seq_items value2)
            else Ok (py_eq value1 value2)
        | _ => Ok (py_eq value1 value2)
        end
  end.

Inductive DifferenceType : Type :=
| VALUE_CHANGED
| TYPE_CHANGED
| FIELD_ADDED
| FIELD_REMOVED.

(** [Difference]; the attributes [field_path], [field_name], [category],
    [difference_type], [value1], [value2], [field_type], [description]. *)
Record Difference : Type := mkDifference {
  d_field_path : string;
  d_field_name : string;
  d_category : string;
  d_difference_type : DifferenceType;
  d_value1 : pyval;
  d_value2 : pyval;
  d_field_type : FieldType;
  d_description : string
}.

Definition _get_field_name (field_path : string) : string :=
  last (split_char "." field_path) EmptyString.

Definition FieldType_eqb (a b : FieldType) : bool :=
  match a, b with
  | STRING, STRING | INTEGER, INTEGER | FLOAT, FLOAT | BOOLEAN, BOOLEAN
  | ARRAY, ARRAY | OBJECT, OBJECT => true
  | _, _ => false
  end.

(** One turn of the loop of [compare_configurations]: the differences the
    path adds to the list. *)
Definition compare_path (config1_data config2_data : odict FieldInfo)
  (field_path : string) : result (list Difference) :=
  let diff (f : FieldInfo) (t : DifferenceType) (v1 v2 : pyval) :=
    mkDifference field_path (_get_field_name field_path)
      (json_parser.category f) t v1 v2 (json_parser.type f)
      (json_parser.description f) in
  match od_get field_path config1_data, od_get field_path config2_data with
  | Some field1, None =>
      Ok [diff field1 FIELD_REMOVED (json_parser.value field1) VNone]
  | None, Some field2 =>
      Ok [diff field2 FIELD_ADDED VNone (json_parser.value field2)]
  | Some field1, Some field2 =>
      if negb (FieldType_eqb (json_parser.type field1) (json_parser.type field2))
      then
        Ok [diff field1 TYPE_CHANGED (json_parser.value field1)
              (json_parser.value field2)]
      else
        bind (_values_equal (json_parser.value field1) (json_parser.value field2))
          (fun equal =>
             if negb equal then
               Ok [diff field1 VALUE_CHANGED (json_parser.value field1)
                     (json_parser.value field2)]
             else Ok [])
  | None, None => Ok []
  end.

(** The order of two strings, as Python compares them. *)
Definition str_leb (a b : string) : bool :=
  match String.compare a b with
  | Gt => false
  | _ => true
  end.

(** The order of the sort key [(d.category, d.field_name)]. *)
Definition key_leb (a b : Difference) : bool :=
  match String.compare (d_category a) (d_category b) with
  | Lt => true
  | Gt => false
  | Eq => str_leb (d_field_name a) (d_field_name b)
  end.

(** [list.sort(key=...)]: a stable sort. *)
Fixpoint insert_sorted (d : Difference) (l : list Difference)
  : list Difference :=
  match l with
  | [] => [d]
  | x :: r => if key_leb d x then d :: l else x :: insert_sorted d r
  end.

Definition sort_differences (l : list Difference) : list Difference :=
  fold_right insert_sorted [] l.

Fixpoint compare_paths (config1_data config2_data : odict FieldInfo)
  (paths : list string) : result (list Difference) :=
  match paths with
  | [] => Ok []
  | p :: rest =>
      bind (compare_path config1_data config2_data p) (fun ds =>
      bind (compare_paths config1_data config2_data rest) (fun ds' =>
      Ok (ds ++ ds')%list))
  end.

(** [compare_configurations].  [all_paths] is the iteration over the set of
    the paths of both configurations, whose order Python leaves open. *)
Definition compare_configurations (all_paths : list string)
  (config1_data config2_data : odict FieldInfo) : result (list Difference) :=
  bind (compare_paths config1_data config2_data all_paths) (fun differences =>
  Ok (sort_differences differences)).

(** [categorize_differences] *)
Definition categorize_differences (differences : list Difference)
  : odict (list Difference) :=
  fold_left
    (fun categorized diff =>
       let old :=
         match od_get (d_category diff) categorized with
         | Some l => l
         | None => []
         end in
       od_set (d_category diff) (old ++ [diff])%list categorized)
    differences [].

(** [summary[key] += 1] *)
Definition increment (key : string) (summary : odict nat) : odict nat :=
  match od_get key summary with
  | Some n => od_set key (S n) summary
  | None => summary
  end.

(** [get_difference_summary] *)
Definition get_difference_summary (differences : list Difference)
  : odict nat :=
  fold_left
    (fun summary diff =>
       match d_difference_type diff with
       | VALUE_CHANGED => increment "value_changed" summary
       | TYPE_CHANGED => increment "type_changed" summary
       | FIELD_ADDED => increment "field_added" summary
       | FIELD_REMOVED => increment "field_removed" summary
       end)
    differences
    [("total", List.length differences); ("value_changed", 0);
     ("type_changed", 0); ("field_added", 0); ("field_removed", 0)].

End comparison_engine.
Import comparison_engine.
Import configuration_model.

(* ================================================================== *)
(** * Notions used to state the properties, and sample documents *)
(* ================================================================== *)

(** The writers' dirtiness check on one field, and a document none of whose
    fields is dirty. *)
Definition dirty (f : FieldInfo) : bool :=
  py_ne (value f) (json_parser.original_value f).

Definition clean (c : ConfigData) : bool :=
  forallb (fun kv => negb (dirty (snd kv))) (fields c).

(** The outcome of a write: it succeeded and left [text] at [out]. *)
Definition written (res : World * bool) (out text : string) : Prop :=
  snd res = true /\ od_get out (files (fst res)) = Some text.

(** The number of digits of the decimal numeral of [n]. *)
Definition digits_of (n : Z) : Z :=
  Z.of_nat (String.length (decimal_of_int (Z.abs n))).

(** Is the value a NaN, the one value that differs from itself? *)
Definition is_nan_value (v : pyval) : bool :=
  match v with
  | VFloat f => is_nan f
  | _ => false
  end.

(** No field of the document holds a NaN as its value. *)
Definition no_nan_field (c : ConfigData) : bool :=
  forallb (fun kv => negb (is_nan_value (value (snd kv)))) (fields c).

(** The line terminator of Windows. *)
Definition crlf : string := String cr (String nl EmptyString).

(** The nesting left to the decoder in the sample worlds. *)
Definition sample_depth : nat := 900.

(** The content of a file after it was read in text mode and the text was
    written back: every line terminator is the one of the platform. *)
Definition normalized (sep content : string) : string :=
  to_linesep sep (universal_newlines content).

(** A file is in native form on a platform when that changes nothing: its
    line terminators are those of the platform. *)
Definition native (sep content : string) : Prop :=
  normalized sep content = content.

(** A Linux machine that holds the sample configuration file as the game
    wrote it, with the line terminators of Windows. *)
Definition posix_world : World :=
  mkWorld [("Config_DX11.ini",
            to_linesep crlf
              (writelines [ln "[DISPLAY]"; ln "Width=1920 // pixels"]))]
    [] [] (String nl EmptyString) sample_depth.

(** A text without carriage return. *)
Fixpoint no_cr (s : string) : bool :=
  match s with
  | EmptyString => true
  | String c r => negb (Ascii.eqb c cr) && no_cr r
  end.

Definition posix_ini_config : ConfigData :=
  match ini_parser.parse_file posix_world "Config_DX11.ini" with
  | Ok c => c
  | Raise _ => mkConfigData [] [] [] [] []
  end.

(** A settings file with a comment, an inline description, and the leaf name
    [Quality] in two objects. *)
Definition sample_json_lines : list string :=
  [ ln "{";
    ln "  // Graphics settings";
    ln (q "  'Graphics': {");
    ln (q "    'Quality': 1, // level #: 'render quality'");
    ln (q "    'Name': 'abc'");
    ln "  },";
    ln (q "  'Sound': {");
    ln (q "    'Quality': 5,");
    ln (q "    'Volume': 0.5");
    ln "  }";
    "}" ].

Definition sample_json : string :=
  to_linesep crlf (writelines sample_json_lines).

(** A configuration file with a comment line, inline comments, the key
    [Width] in two sections, and a tuple of floats. *)
Definition sample_ini_lines : list string :=
  [ ln "// Config";
    ln "[DISPLAY]";
    ln "Width=1920 // pixels";
    ln "VSync=on";
    ln "[AUDIO]";
    ln "Width=7";
    ln "Mute=0";
    "Color=(0.609, 0.343, 0.457)" ].

Definition sample_ini : string :=
  to_linesep crlf (writelines sample_ini_lines).

(** A Windows machine that holds the sample settings file with bare line
    feeds, as an editor of another platform saved it. *)
Definition lf_json_world : World :=
  mkWorld [("settings.json", writelines sample_json_lines)] [] [] crlf sample_depth.

(** A Windows machine with the two sample files. *)
Definition sample_world : World :=
  mkWorld [("settings.json", sample_json); ("Config_DX11.ini", sample_ini)]
    [] [] crlf sample_depth.

(** Setting the value of the field at path [p], as the model does it in
    [_update_config_data]: nothing happens when the document has no such
    field. *)
Definition set_field (c : ConfigData) (p : string) (v : pyval) : ConfigData :=
  match configuration_model.update_field p v (Some c) with
  | Some c' => c'
  | None => c
  end.

(** The first entry of a field table whose path satisfies [pred]. *)
Fixpoint find_first (pred : string -> bool) (fs : odict FieldInfo)
  : option (string * FieldInfo) :=
  match fs with
  | [] => None
  | (k, f) :: rest => if pred k then Some (k, f) else find_first pred rest
  end.

Definition json_pred (field_name field_path : string) : bool :=
  endswith field_name field_path || String.eqb field_path field_name.

Definition ini_pred (key field_path : string) : bool :=
  endswith ("." ++ key) field_path.

(** The path of the field a writer takes a line to hold: the path its
    lookup stops at for the name found on the line, if any. *)
Definition json_target (fs : odict FieldInfo) (line : string) : option string :=
  match search_field line with
  | Some (field_name, _) => option_map fst (find_first (json_pred field_name) fs)
  | None => None
  end.

(** The key the INI writer reads on a line: none on a blank line, a
    comment line, a section header and a line without equals sign. *)
Definition ini_line_key (line : string) : option string :=
  let line_stripped := strip line in
  if is_empty line_stripped || startswith "//" line_stripped
     || startswith "[" line_stripped
  then None
  else if contains "=" line_stripped then ini_parser.line_key line_stripped
  else None.

Definition ini_target (fs : odict FieldInfo) (line : string) : option string :=
  match ini_line_key line with
  | Some key => option_map fst (find_first (ini_pred key) fs)
  | None => None
  end.

(** Is [p] the path a lookup stopped at? *)
Definition resolves_to (target : option string) (p : string) : bool :=
  match target with
  | Some k => String.eqb k p
  | None => false
  end.

(** A line of the settings file with the value token found on it replaced,
    wherever the line holds that token, by [text]. *)
Definition json_patched (text line : string) : string :=
  match search_field line with
  | Some (_, old_value) => replace old_value text line
  | None => line
  end.

(** A line of the configuration file made anew for the value [text]: the
    key, an equals sign and the value, then the comment of the old line, if
    it has one, and a line feed otherwise. *)
Definition ini_patched (text line : string) : string :=
  match ini_line_key line with
  | Some key =>
      match split_once "//" line with
      | Some (_, comment_part) => key ++ "=" ++ text ++ " //" ++ comment_part
      | None => key ++ "=" ++ text ++ char_str nl
      end
  | None => line
  end.

(** Does the field carry the number of its line, as the fields of a
    configuration file do? *)
Definition has_line_number (info : FieldInfo) : bool :=
  match line_number info with
  | Some _ => true
  | None => false
  end.

(** The lines a writer made, none when making them raised. *)
Definition lines_of (r : result (list string)) : list string :=
  match r with
  | Ok lines => lines
  | Raise _ => []
  end.

(** The paths of the dirty fields of a document. *)
Definition dirty_paths (c : ConfigData) : list string :=
  map fst (filter (fun kv => dirty (snd kv)) (fields c)).

(** The documents the two parsers build from the sample files. *)
Definition config_of (r : result ConfigData) : ConfigData :=
  match r with
  | Ok c => c
  | Raise _ => mkConfigData [] [] [] [] []
  end.

Definition sample_json_config : ConfigData :=
  config_of (snd (json_parser.parse_file sample_world "settings.json")).

Definition sample_ini_config : ConfigData :=
  config_of (ini_parser.parse_file sample_world "Config_DX11.ini").

(** The sample documents after one edit each: [Graphics.Quality] set to 3,
    [DISPLAY.Width] set to 1280. *)
Definition edited_json_config : ConfigData :=
  set_field sample_json_config "Graphics.Quality" (VInt 3).

Definition edited_ini_config : ConfigData :=
  set_field sample_ini_config "DISPLAY.Width" (VInt 1280).

(** Can [p] be opened for writing? *)
Definition writable (w : World) (p : string) : bool :=
  negb (existsb (String.eqb p) (unwritable w)).

(** The model after loading the sample files. *)
Definition sample_model : configuration_model.ConfigurationModel :=
  snd (fst (configuration_model.load_configuration
              configuration_model.new_model sample_world
              "settings.json" "Config_DX11.ini")).

(** The model of a call that did not raise. *)
Definition model_of
  (r : result (configuration_model.ConfigurationModel * bool))
  : configuration_model.ConfigurationModel :=
  match r with
  | Ok (m, _) => m
  | Raise _ => configuration_model.new_model
  end.

(** The sample model after the text 3 was entered for [Graphics.Quality]... *)
Definition edited_model : configuration_model.ConfigurationModel :=
  model_of (configuration_model.set_field_value sample_model
              "Graphics.Quality" (VStr "3") 1%Z).

(** ... after the changes were then applied... *)
Definition applied_model : configuration_model.ConfigurationModel :=
  snd (fst (configuration_model.apply_changes edited_model sample_world)).

(** ... and, instead, after the text 1 was entered again. *)
Definition reset_model : configuration_model.ConfigurationModel :=
  model_of (configuration_model.set_field_value edited_model
              "Graphics.Quality" (VStr "1") 2%Z).

Definition model_json (m : configuration_model.ConfigurationModel)
  : ConfigData :=
  config_of (match configuration_model.json_config m with
             | Some c => Ok c
             | None => Raise ValueError
             end).

(** One turn of the loop of [build_field_hierarchy]: the field table after
    the member [item] of the dictionary at [parent_path]. *)
Definition hierarchy_step (descs : odict string) (parent_path : string)
  (fs : odict FieldInfo) (item : string * pyval) : odict FieldInfo :=
  let current_path := child_path parent_path (fst item) in
  match snd item with
  | VDict _ =>
      fold_left
        (fun acc nested =>
           od_set (fst nested) (set_category (snd nested) (fst item)) acc)
        (hierarchy_of (snd item) descs current_path) fs
  | v =>
      od_set current_path
        (new_FieldInfo current_path v
           (str_or (get_default (fst item) descs)
              (get_default current_path descs))
           (preserve_types v)
           (if is_empty parent_path then "General" else parent_path))
        fs
  end.

(** The keys of the objects that enclose the field at a dotted path, from
    the outermost to the nearest. *)
Definition enclosing_keys (field_path : string) : list string :=
  removelast (split_char "." field_path).

(** A settings document with an object inside an object. *)
Definition nested_data : odict pyval :=
  [("A", VDict [("B", VDict [("c", VInt 1)])]); ("top", VBool true)].

(** What a string entered for a field is stored as, by the type of the
    field's original value.  Text that denotes an infinity, or overflows to
    one, has no entry on an integer field. *)
Definition expected_coercion (original : pyval) (s : string) : option pyval :=
  match original with
  | VBool _ => Some (VBool (negb (is_empty s)))
  | VInt _ =>
      if is_empty (strip s) then Some (VInt 0)
      else
        match float_of_str s with
        | Raise _ => Some (VInt 0)
        | Ok f =>
            if is_nan f then Some (VInt 0)
            else if is_inf f then None
            else Some (VInt (trunc_float f))
        end
  | VFloat _ =>
      if is_empty (strip s) then Some (VFloat PrimFloat.zero)
      else
        match float_of_str s with
        | Ok f => Some (VFloat f)
        | Raise _ => Some (VFloat PrimFloat.zero)
        end
  | _ => Some (VStr s)
  end.

(** The INI value coercion read as a chain of attempts in priority order,
    each made when the ones before it gave nothing: the boolean words, the
    integer parse (when there is no dot), the float parse, the
    parenthesized tuple, the plain string. *)
Definition chain_parse_ini_value (value_str0 : string) : pyval :=
  let value_str := strip value_str0 in
  if ini_parser.mem_str (lower value_str) ini_parser.bool_words_true
  then VBool true
  else if ini_parser.mem_str (lower value_str) ini_parser.bool_words_false
  then VBool false
  else
    match (if negb (contains "." value_str) then int_of_str value_str
           else Raise ValueError) with
    | Ok n => VInt n
    | Raise _ =>
        match float_of_str value_str with
        | Ok f => VFloat f
        | Raise _ =>
            if startswith "(" value_str && endswith ")" value_str then
              VTuple (map ini_parser.parse_part
                        (map strip
                           (split_char "," (remove_last (drop 1 value_str)))))
            else VStr value_str
        end
    end.

(** [all(eq(v1, v2) for v1, v2 in zip(xs, ys))] *)
Fixpoint all_pairs (eq : pyval -> pyval -> result bool) (xs ys : list pyval)
  : result bool :=
  match xs, ys with
  | v1 :: xs', v2 :: ys' =>
      bind (eq v1 v2) (fun b => if b then all_pairs eq xs' ys' else Ok false)
  | _, _ => Ok true
  end.

(** The equality rule as the specification words it.  Numbers are the
    integers and the floats, compared within the tolerance after the cast
    to float; booleans are a case of their own, compared exactly. *)
Definition stated_number (v : pyval) : bool :=
  match v with VInt _ | VFloat _ => true | _ => false end.

Fixpoint stated_values_equal (value1 value2 : pyval) {struct value1}
  : result bool :=
  match value1, value2 with
  | VNone, VNone => Ok true
  | VNone, _ | _, VNone => Ok false
  | _, _ =>
      if stated_number value1 && stated_number value2
      then close_floats value1 value2
      else if is_str value1 && is_str value2 then
        Ok (String.eqb (strip (str_text value1)) (strip (str_text value2)))
      else if is_bool value1 && is_bool value2 then
        Ok (py_eq value1 value2)
      else
        match value1 with
        | VList l1 | VTuple l1 =>
            if is_seq value2 then
              if negb (Nat.eqb (List.length l1) (List.length (seq_items value2)))
              then Ok false
              else
                (fix all_equal (xs ys : list pyval) {struct xs} : result bool :=
                   match xs, ys with
                   | v1 :: xs', v2 :: ys' =>
                       bind (stated_values_equal v1 v2) (fun b =>
                         if b then all_equal xs' ys' else Ok false)
                   | _, _ => Ok true
                   end) l1 (seq_items value2)
            else Ok (py_eq value1 value2)
        | _ => Ok (py_eq value1 value2)
        end
  end.

(** The integer a boolean or an integer stands for. *)
Definition int_value (v : pyval) : Z :=
  match v with
  | VBool b => Z.b2z b
  | VInt n => n
  | _ => 0%Z
  end.

(** The kinds of values the comparison tells apart. *)
Inductive kind : Type :=
| KNone
| KNumber
| KStr
| KSeq
| KDict.

Definition kind_of (v : pyval) : kind :=
  match v with
  | VNone => KNone
  | VBool _ | VInt _ | VFloat _ => KNumber
  | VStr _ => KStr
  | VList _ | VTuple _ => KSeq
  | VDict _ => KDict
  end.

Definition kind_eqb (a b : kind) : bool :=
  match a, b with
  | KNone, KNone | KNumber, KNumber | KStr, KStr | KSeq, KSeq
  | KDict, KDict => true
  | _, _ => false
  end.

(** The sample files and a second settings file; no file [missing.ini]. *)
Definition other_world : World :=
  mkWorld (files sample_world ++ [("other.json", q "{'X': {'y': 2}}")])%list
    [] [] crlf sample_depth.

Definition other_json_config : ConfigData :=
  config_of (snd (json_parser.parse_file other_world "other.json")).

(** The sample model after a load of the second settings file together
    with the missing configuration file. *)
Definition failed_load
  : World * configuration_model.ConfigurationModel * bool :=
  configuration_model.load_configuration sample_model other_world
    "other.json" "missing.ini".

(** The sample files, the configuration file locked by another process. *)
Definition locked_ini_world : World :=
  mkWorld (files sample_world) ["Config_DX11.ini"] [] crlf sample_depth.

(** The three components of the result of [apply_changes]. *)
Definition world_after (r : World * ConfigurationModel * (bool * option string))
  : World := fst (fst r).

Definition model_after (r : World * ConfigurationModel * (bool * option string))
  : ConfigurationModel := snd (fst r).

Definition success (r : World * ConfigurationModel * (bool * option string))
  : bool := fst (snd r).

(** What the top-level loop keeps true of every entry of its table. *)
Definition top_level_entry (data : odict pyval) (descs : odict string)
  (x : string * FieldInfo) : Prop :=
  (category (snd x) = "General"
   /\ exists v, In (fst x, v) data /\ is_dict v = false /\ value (snd x) = v)
  \/ (exists k d f0,
        In (k, VDict d) data
        /\ In (fst x, f0) (build_field_hierarchy d descs k)
        /\ snd x = set_category f0 k
        /\ category (snd x) = k).

(** The value a string is given once it is not a boolean word and not a
    number. *)
Definition tuple_or_string (value_str : string) : pyval :=
  if startswith "(" value_str && endswith ")" value_str then
    VTuple (map ini_parser.parse_part
              (map strip (split_char "," (remove_last (drop 1 value_str)))))
  else VStr value_str.

(** ** Histories of a field state *)

(** A call of one of the methods of [FieldState] that change the state. *)
Inductive fs_call : Type :=
| call_set_value (new_value : pyval) (now : Z)
| call_revert
| call_apply_changes
| call_add_validation_error (error : string)
| call_add_validation_warning (warning : string)
| call_clear_validation.

Definition fs_perform (fs : field_state.FieldState) (c : fs_call)
  : field_state.FieldState :=
  match c with
  | call_set_value new_value now => snd (field_state.set_value fs new_value now)
  | call_revert => snd (field_state.revert fs)
  | call_apply_changes => field_state.apply_changes fs
  | call_add_validation_error error => field_state.add_validation_error fs error
  | call_add_validation_warning warning =>
      field_state.add_validation_warning fs warning
  | call_clear_validation => field_state.clear_validation fs
  end.

(** The state of a field created with the value [v] after the calls. *)
Definition fs_history (v : pyval) (calls : list fs_call)
  : field_state.FieldState :=
  fold_left fs_perform calls (field_state.new_FieldState v).

(** The flag and the time stamp go together, and a flagged field holds a
    value other than its original one. *)
Definition flag_consistent (fs : field_state.FieldState) : Prop :=
  (field_state.is_modified fs = true
   <-> field_state.modification_time fs <> None)
  /\ (field_state.is_modified fs = true
      -> py_ne (field_state.current_value fs) (field_state.original_value fs)
         = true).

(** The validation state the two lists of messages call for. *)
Definition state_of_messages (errors warnings : list string)
  : field_state.ValidationState :=
  match errors, warnings with
  | _ :: _, _ => field_state.ERROR
  | [], _ :: _ => field_state.WARNING
  | [], [] => field_state.VALID
  end.

Definition validation_consistent (fs : field_state.FieldState) : Prop :=
  field_state.validation_state fs
  = state_of_messages (field_state.validation_errors fs)
      (field_state.validation_warnings fs)
  /\ NoDup (field_state.validation_errors fs)
  /\ NoDup (field_state.validation_warnings fs).

(** ** Histories of a model *)

(** A call of one of the methods of [ConfigurationModel] that change the
    model. *)
Inductive model_call : Type :=
| call_load_configuration (json_path ini_path : string)
| call_set_field_value (field_path : string) (v : pyval) (now : Z)
| call_revert_field (field_path : string)
| call_revert_all_changes
| call_apply.

(** The files and the model after a call.  A call of [set_field_value] that
    raises leaves the model as it was: the conversion comes before every
    assignment. *)
Definition model_perform (s : World * ConfigurationModel) (c : model_call)
  : World * ConfigurationModel :=
  match c with
  | call_load_configuration json_path ini_path =>
      fst (load_configuration (snd s) (fst s) json_path ini_path)
  | call_set_field_value field_path v now =>
      match set_field_value (snd s) field_path v now with
      | Ok (m, _) => (fst s, m)
      | Raise _ => s
      end
  | call_revert_field field_path => (fst s, fst (revert_field (snd s) field_path))
  | call_revert_all_changes => (fst s, fst (revert_all_changes (snd s)))
  | call_apply => fst (apply_changes (snd s) (fst s))
  end.

(** The files and the model after the calls, from a new model. *)
Definition model_history (w : World) (calls : list model_call)
  : World * ConfigurationModel :=
  fold_left model_perform calls (w, new_model).

(** The set of modified paths holds each path once, and holds exactly the
    paths of the fields flagged as modified. *)
Definition tracked (m : ConfigurationModel) : Prop :=
  NoDup (_modified_fields m)
  /\ forall p, In p (_modified_fields m) <-> is_field_modified m p = true.

(** The original value the model holds for a path, [None] for a path it
    does not know. *)
Definition original_of (m : ConfigurationModel) (p : string) : pyval :=
  match od_get p (field_states m) with
  | Some fs => field_state.original_value fs
  | None => VNone
  end.

(** The sample files loaded, then the text 3 entered for
    [Graphics.Quality]. *)
Definition sample_calls : list model_call :=
  [call_load_configuration "settings.json" "Config_DX11.ini";
   call_set_field_value "Graphics.Quality" (VStr "3") 1%Z].

(** ** Leaves of a settings document *)

(** [holds_at v keys x]: following the keys, one object inside the other,
    from the value [v] leads to the value [x]. *)
Inductive holds_at : pyval -> list string -> pyval -> Prop :=
| holds_here (items : odict pyval) (k : string) (x : pyval) :
    In (k, x) items -> holds_at (VDict items) [k] x
| holds_below (items : odict pyval) (k : string) (v : pyval)
    (ks : list string) (x : pyval) :
    In (k, v) items -> holds_at v ks x -> holds_at (VDict items) (k :: ks) x.

(** The path [build_field_hierarchy] forms for a chain of keys below
    [parent_path]. *)
Definition path_below (parent_path : string) (keys : list string) : string :=
  fold_left child_path keys parent_path.

(** What holds of an entry of the table built for the value [v] at
    [parent_path]. *)
Definition leaf_entry (v : pyval) (parent_path : string)
  (x : string * FieldInfo) : Prop :=
  path (snd x) = fst x
  /\ original_value (snd x) = value (snd x)
  /\ type (snd x) = preserve_types (value (snd x))
  /\ is_dict (value (snd x)) = false
  /\ exists keys,
       holds_at v keys (value (snd x))
       /\ fst x = path_below parent_path keys.

(** ** Fields of a configuration file *)

(** What holds of an entry of the table built from the lines of an INI
    file: the field comes from a key of a section, written on the line its
    line number gives. *)
Definition ini_field_entry (lines : list string) (x : string * FieldInfo)
  : Prop :=
  exists section_name key n l text,
    fst x = section_name ++ "." ++ key
    /\ path (snd x) = fst x
    /\ category (snd x) = section_name
    /\ value (snd x) = ini_parser._parse_ini_value text
    /\ type (snd x) = ini_parser._determine_field_type (value (snd x))
    /\ original_value (snd x) = value (snd x)
    /\ line_number (snd x) = Some n
    /\ original_line (snd x) = Some l
    /\ nth_error lines n = Some l
    /\ contains "=" (strip l) = true.

(** The same of an entry of a section, while the lines are read. *)
Definition ini_entry_ok (lines : list string) (e : ini_parser.entry) : Prop :=
  nth_error lines (ini_parser.e_line_number e)
  = Some (ini_parser.e_original_line e)
  /\ contains "=" (strip (ini_parser.e_original_line e)) = true
  /\ exists text, ini_parser.e_value e = ini_parser._parse_ini_value text.

Definition ini_data_ok (lines : list string)
  (data : odict (odict ini_parser.entry)) : Prop :=
  forall section_name section_data key e,
    In (section_name, section_data) data ->
    In (key, e) section_data ->
    ini_entry_ok lines e.

(** ** The parsed documents and the field states *)

(** The model and the documents agree on a path: both know the field, and
    the value in the document is the current value of the field state; or
    neither knows it. *)
Definition agrees (m : ConfigurationModel) (p : string) : Prop :=
  match od_get p (field_states m), get_field_info m p with
  | Some fs, Some info => value info = field_state.current_value fs
  | None, None => True
  | _, _ => False
  end.

Definition is_load (c : model_call) : bool :=
  match c with
  | call_load_configuration _ _ => true
  | _ => false
  end.

(** After the load of the sample files: an edit, a save, a second edit and
    a revert of it. *)
Definition edit_calls : list model_call :=
  [call_set_field_value "Graphics.Quality" (VStr "3") 1%Z;
   call_apply;
   call_set_field_value "ini.DISPLAY.Width" (VStr "1280") 2%Z;
   call_revert_field "ini.DISPLAY.Width"].

(** ** Lists of differences *)

Definition DifferenceType_eqb (a b : DifferenceType) : bool :=
  match a, b with
  | VALUE_CHANGED, VALUE_CHANGED | TYPE_CHANGED, TYPE_CHANGED
  | FIELD_ADDED, FIELD_ADDED | FIELD_REMOVED, FIELD_REMOVED => true
  | _, _ => false
  end.

(** The number of differences of a type. *)
Definition count_of (t : DifferenceType) (differences : list Difference)
  : nat :=
  List.length
    (filter (fun d => DifferenceType_eqb (d_difference_type d) t) differences).






(** ** The types of the values a model holds *)

(** [type(a) is type(b)] *)
Definition same_type (a b : pyval) : bool :=
  match a, b with
  | VNone, VNone | VBool _, VBool _ | VInt _, VInt _ | VFloat _, VFloat _
  | VStr _, VStr _ | VList _, VList _ | VTuple _, VTuple _
  | VDict _, VDict _ => true
  | _, _ => false
  end.

(** A boolean, an integer, a float or a string. *)
Definition scalar (v : pyval) : bool :=
  match v with
  | VBool _ | VInt _ | VFloat _ | VStr _ => true
  | _ => false
  end.

(** The current value of a field with a scalar original value has the type
    of that value. *)
Definition type_stable (fs : field_state.FieldState) : Prop :=
  scalar (field_state.original_value fs) = true ->
  same_type (field_state.current_value fs) (field_state.original_value fs)
  = true.

Definition no_messages (fs : field_state.FieldState) : Prop :=
  field_state.validation_errors fs = []
  /\ field_state.validation_warnings fs = []
  /\ field_state.validation_state fs = field_state.VALID.

(** Every field state of the model has the property. *)
Definition states_all (P : field_state.FieldState -> Prop)
  (m : ConfigurationModel) : Prop :=
  forall p fs, In (p, fs) (field_states m) -> P fs.

(** ** Numerals *)

(** The number a string of decimal digits denotes, read from the left after
    the number [acc]. *)
Fixpoint digits_value (u : Decimal.uint) (acc : Z) : Z :=
  match u with
  | Decimal.Nil => acc
  | Decimal.D0 r => digits_value r (10 * acc + 0)
  | Decimal.D1 r => digits_value r (10 * acc + 1)
  | Decimal.D2 r => digits_value r (10 * acc + 2)
  | Decimal.D3 r => digits_value r (10 * acc + 3)
  | Decimal.D4 r => digits_value r (10 * acc + 4)
  | Decimal.D5 r => digits_value r (10 * acc + 5)
  | Decimal.D6 r => digits_value r (10 * acc + 6)
  | Decimal.D7 r => digits_value r (10 * acc + 7)
  | Decimal.D8 r => digits_value r (10 * acc + 8)
  | Decimal.D9 r => digits_value r (10 * acc + 9)
  end%Z.

Fixpoint all_chars (f : ascii -> bool) (s : string) : bool :=
  match s with
  | EmptyString => true
  | String c r => f c && all_chars f r
  end.

(** A digit or the minus sign. *)
Definition numeral_char (c : ascii) : bool := is_digit c || Ascii.eqb c "-".

(** ** Lines an INI file cannot hold *)

(** A line that is neither blank, nor a comment, nor a section header, and
    whose equals signs all lie in its comment. *)
Definition equals_in_comment_only (l : string) : bool :=
  let line := strip l in
  negb (is_empty line)
  && negb (startswith "//" line)
  && match ini_parser.section_header line with
     | Some _ => false
     | None => true
     end
  && contains "=" line
  && match split_once "//" line with
     | Some (line_part, _) => negb (contains "=" (strip line_part))
     | None => false
     end.

(** A configuration file with such a line in a section. *)
Definition broken_ini_world : World :=
  mkWorld
    [("Config_DX11.ini",
      writelines [ln "[DISPLAY]"; ln "Width // was Width=1920"])]
    [] [] (String nl EmptyString) sample_depth.

(** ** Finite values *)

(** [math.isfinite(f)] *)
Definition finite_float (f : float) : bool :=
  match Prim2SF f with
  | S754_zero _ | S754_finite _ _ _ => true
  | _ => false
  end.

(** A value that holds no NaN and no infinity, at any depth. *)
Fixpoint finite (v : pyval) : bool :=
  match v with
  | VFloat f => finite_float f
  | VList l | VTuple l =>
      (fix all (l : list pyval) : bool :=
         match l with
         | [] => true
         | x :: r => finite x && all r
         end) l
  | VDict d =>
      (fix all (d : list (string * pyval)) : bool :=
         match d with
         | [] => true
         | (_, x) :: r => finite x && all r
         end) d
  | _ => true
  end.

(** A settings file with a top-level object named [ini], beside the sample
    configuration file. *)
Definition ini_named_world : World :=
  mkWorld
    [("settings.json", q "{'ini': {'x': 1}}");
     ("Config_DX11.ini", sample_ini)]
    [] [] crlf sample_depth.

Definition ini_named_model : ConfigurationModel :=
  snd (fst (load_configuration new_model ini_named_world
              "settings.json" "Config_DX11.ini")).





(* ================================================================== *)
(** * Properties *)
(* ================================================================== *)

(** ** Facts about the runtime *)

Lemma writelines_cons (l : string) (ls : list string) :
  writelines (l :: ls) = l ++ writelines ls.
Proof.
  unfold writelines. destruct ls as [|l' ls]; simpl.
  - induction l as [|c l IH]; simpl; [reflexivity | now rewrite <- IH].
  - reflexivity.
Qed.

(** Reading a text as lines and writing the lines gives the text back. *)
Lemma writelines_readlines (s : string) : writelines (readlines s) = s.
Proof.
  induction s as [|c r IH]; [reflexivity|].
  simpl. destruct (Ascii.eqb c nl).
  - rewrite writelines_cons. simpl. now rewrite IH.
  - destruct (readlines r) as [|l ls].
    + simpl in IH. subst r. reflexivity.
    + rewrite writelines_cons in IH. rewrite writelines_cons. simpl.
      now rewrite IH.
Qed.

Lemma od_get_set_same {V : Type} (k : string) (v : V) (d : odict V) :
  od_get k (od_set k v d) = Some v.
Proof.
  induction d as [|[k' v'] d IH]; simpl.
  - now rewrite String.eqb_refl.
  - destruct (String.eqb k k') eqn:E; simpl.
    + now rewrite String.eqb_refl.
    + now rewrite E.
Qed.

Lemma od_get_set_other {V : Type} (k k' : string) (v : V) (d : odict V) :
  k' <> k -> od_get k' (od_set k v d) = od_get k' d.
Proof.
  intros Hne. induction d as [|[k0 v0] d IH]; simpl.
  - destruct (String.eqb_spec k' k); [contradiction | reflexivity].
  - destruct (String.eqb_spec k k0); simpl.
    + subst k0. destruct (String.eqb_spec k' k); [contradiction | reflexivity].
    + destruct (String.eqb k' k0); [reflexivity | exact IH].
Qed.

(** An entry of a dictionary after an assignment is the one assigned or was
    there before. *)
Lemma in_od_set {V : Type} (k : string) (v : V) (d : odict V) (x : string * V) :
  In x (od_set k v d) -> x = (k, v) \/ In x d.
Proof.
  induction d as [|[k' v'] d IH]; simpl.
  - intros [H|[]]; auto.
  - destruct (String.eqb k k'); simpl; intros [H|H]; auto.
    destruct (IH H); auto.
Qed.

Lemma write_lines_ok (w : World) (p : string) (lines : list string) :
  existsb (String.eqb p) (unwritable w) = false ->
  snd (write_lines w p lines) = Ok tt
  /\ od_get p (files (fst (write_lines w p lines)))
     = Some (to_linesep (linesep w) (writelines lines)).
Proof.
  intros H. unfold write_lines. rewrite H. simpl. split; [reflexivity|].
  apply od_get_set_same.
Qed.

(** ** The writers on a document without dirty fields *)

Lemma json_find_field_in (name : string) (fs : odict FieldInfo) (f : FieldInfo) :
  json_parser.find_field name fs = Some f -> exists p, In (p, f) fs.
Proof.
  induction fs as [|[p0 f0] fs IH]; simpl; [discriminate|].
  destruct (endswith name p0 || String.eqb p0 name).
  - intros [= ->]. exists p0. now left.
  - intros H. destruct (IH H) as [p Hp]. exists p. now right.
Qed.

Lemma ini_find_field_in (key : string) (fs : odict FieldInfo) (f : FieldInfo) :
  ini_parser.find_field key fs = Some f -> exists p, In (p, f) fs.
Proof.
  induction fs as [|[p0 f0] fs IH]; simpl; [discriminate|].
  destruct (endswith _ p0).
  - intros [= ->]. exists p0. now left.
  - intros H. destruct (IH H) as [p Hp]. exists p. now right.
Qed.

Lemma clean_field (c : ConfigData) (p : string) (f : FieldInfo) :
  clean c = true -> In (p, f) (fields c) -> dirty f = false.
Proof.
  unfold clean. rewrite forallb_forall. intros H Hin.
  specialize (H (p, f) Hin). simpl in H. now apply negb_true_iff in H.
Qed.

(** A loop whose every turn succeeds gives the list of the results. *)
Lemma map_result_ok {A B : Type} (f : A -> result B) (g : A -> B)
  (l : list A) :
  (forall x, In x l -> f x = Ok (g x)) -> map_result f l = Ok (map g l).
Proof.
  induction l as [|x l IH]; intros H; [reflexivity|].
  cbn [map_result map]. rewrite (H x (or_introl eq_refl)). cbn [bind].
  rewrite IH; [reflexivity|]. intros y Hy. apply H. now right.
Qed.

Lemma map_result_length {A B : Type} (f : A -> result B) (l : list A)
  (out : list B) :
  map_result f l = Ok out -> List.length out = List.length l.
Proof.
  revert out. induction l as [|x l IH]; intros out.
  - intros [= <-]. reflexivity.
  - cbn [map_result]. destruct (f x) as [y|e]; [|discriminate].
    cbn [bind]. destruct (map_result f l) as [ys|e]; [|discriminate].
    intros [= <-]. cbn [List.length]. now rewrite (IH ys eq_refl).
Qed.

(** Each line of the result is what its turn of the loop gave. *)
Lemma map_result_nth {A B : Type} (f : A -> result B) (l : list A)
  (out : list B) (i : nat) (x : A) :
  map_result f l = Ok out -> nth_error l i = Some x ->
  exists y, f x = Ok y /\ nth_error out i = Some y.
Proof.
  revert out i. induction l as [|a l IH]; intros out i.
  - intros _ H. destruct i; discriminate.
  - cbn [map_result]. destruct (f a) as [y|e] eqn:E; [|discriminate].
    cbn [bind]. destruct (map_result f l) as [ys|e]; [|discriminate].
    intros [= <-]. destruct i as [|i]; cbn [nth_error].
    + intros [= <-]. exists y. now split.
    + intros H. exact (IH ys i eq_refl H).
Qed.

(** A loop is left at the first exception. *)
Lemma map_result_raise {A B : Type} (f : A -> result B) (l : list A)
  (e : exn) :
  map_result f l = Raise e -> exists x, In x l /\ f x = Raise e.
Proof.
  induction l as [|a l IH]; [discriminate|].
  cbn [map_result]. destruct (f a) as [y|e0] eqn:E.
  - cbn [bind]. destruct (map_result f l) as [ys|e1]; [discriminate|].
    intros [= <-]. destruct (IH eq_refl) as [x [Hx Hf]].
    exists x. split; [now right | exact Hf].
  - intros [= <-]. exists a. split; [now left | exact E].
Qed.

Lemma json_write_line_clean (c : ConfigData) (line : string) :
  clean c = true -> json_parser.write_line (fields c) line = Ok line.
Proof.
  intros Hc. unfold json_parser.write_line.
  destruct (search_field line) as [[name old]|]; [|reflexivity].
  destruct (json_parser.find_field name (fields c)) as [f|] eqn:E; [|reflexivity].
  destruct (json_find_field_in _ _ _ E) as [p Hp].
  pose proof (clean_field c p f Hc Hp) as Hd. unfold dirty in Hd.
  now rewrite Hd.
Qed.

Lemma ini_write_line_clean (c : ConfigData) (line : string) :
  clean c = true -> ini_parser.write_line (fields c) line = Ok line.
Proof.
  intros Hc. unfold ini_parser.write_line.
  destruct (is_empty (strip line) || startswith "//" (strip line)
            || startswith "[" (strip line)); [reflexivity|].
  destruct (contains "=" (strip line)); [|reflexivity].
  destruct (ini_parser.line_key (strip line)) as [key|]; [|reflexivity].
  destruct (ini_parser.find_field key (fields c)) as [f|] eqn:E; [|reflexivity].
  destruct (ini_find_field_in _ _ _ E) as [p Hp].
  pose proof (clean_field c p f Hc Hp) as Hd. unfold dirty in Hd.
  destruct (line_number f); [|reflexivity]. now rewrite Hd.
Qed.

Lemma json_new_lines_clean (c : ConfigData) :
  clean c = true -> json_parser.new_lines c = Ok (raw_lines c).
Proof.
  intros Hc. unfold json_parser.new_lines.
  rewrite <- (map_id (raw_lines c)) at 2.
  apply map_result_ok. intros line _. now apply json_write_line_clean.
Qed.

Lemma ini_new_lines_clean (c : ConfigData) :
  clean c = true -> ini_parser.new_lines c = Ok (raw_lines c).
Proof.
  intros Hc. unfold ini_parser.new_lines.
  rewrite <- (map_id (raw_lines c)) at 2.
  apply map_result_ok. intros line _. now apply ini_write_line_clean.
Qed.

(** The lines a parsed document keeps are the lines of the file read. *)
Lemma json_parse_file_raw_lines (w w1 : World) (p text : string) (c : ConfigData) :
  od_get p (files w) = Some text ->
  json_parser.parse_file w p = (w1, Ok c) ->
  raw_lines c = readlines (universal_newlines text).
Proof.
  intros Hf. unfold json_parser.parse_file, exists_file, od_mem, read_lines.
  rewrite Hf. simpl. unfold json_parser.parse_lines.
  destruct (json_loads (recursion_depth w)
              (_remove_comments (readlines (universal_newlines text))))
    as [v|e].
  - destruct v; try (intros [= <- <-]; discriminate);
      try (intros H; inversion H; fail).
    intros [= _ <-]. reflexivity.
  - destruct e; try (intros H; inversion H; fail).
    destruct (write_lines w _ _) as [w' [u|e']]; intros H; inversion H.
Qed.

Lemma ini_parse_file_raw_lines (w : World) (p text : string) (c : ConfigData) :
  od_get p (files w) = Some text ->
  ini_parser.parse_file w p = Ok c ->
  raw_lines c = readlines (universal_newlines text).
Proof.
  intros Hf. unfold ini_parser.parse_file, exists_file, od_mem, read_lines.
  rewrite Hf. simpl. unfold ini_parser.parse_lines.
  destruct (ini_parser.parse_with_comments
              (readlines (universal_newlines text))); simpl.
  - intros [= <-]. reflexivity.
  - discriminate.
Qed.

(** ** C1: round trip *)

(** Line terminators: what text mode does to them. *)

Lemma to_linesep_lf (t : string) : to_linesep (String nl EmptyString) t = t.
Proof.
  unfold to_linesep. induction t as [|c r IH]; [reflexivity|].
  simpl. rewrite IH. destruct (Ascii.eqb_spec c nl) as [->|]; reflexivity.
Qed.

Lemma universal_newlines_no_cr (s : string) :
  no_cr s = true -> universal_newlines s = s.
Proof.
  induction s as [|c r IH]; [reflexivity|].
  simpl. destruct (Ascii.eqb c cr); [discriminate|].
  simpl. intros H. now rewrite IH.
Qed.

Lemma universal_newlines_crlf (t : string) :
  no_cr t = true -> universal_newlines (to_linesep crlf t) = t.
Proof.
  unfold to_linesep. induction t as [|c r IH]; [reflexivity|].
  simpl. destruct (Ascii.eqb_spec c cr) as [->|Hc]; [discriminate|].
  simpl. intros H. specialize (IH H).
  destruct (Ascii.eqb_spec c nl) as [->|Hn]; simpl.
  - now rewrite IH.
  - destruct (Ascii.eqb_spec c cr); [contradiction|]. now rewrite IH.
Qed.

(** On a platform whose terminator is the line feed, a file without
    carriage return is in native form; on Windows, so is every text written
    in text mode. *)
Lemma native_posix (s : string) :
  no_cr s = true -> native (String nl EmptyString) s.
Proof.
  intros H. unfold native, normalized.
  now rewrite to_linesep_lf, universal_newlines_no_cr.
Qed.

Lemma native_windows (t : string) :
  no_cr t = true -> native crlf (to_linesep crlf t).
Proof.
  intros H. unfold native, normalized. now rewrite universal_newlines_crlf.
Qed.

Lemma written_unique (res : World * bool) (out a b : string) :
  written res out a -> written res out b -> a = b.
Proof.
  intros [_ Ha] [_ Hb]. congruence.
Qed.

Lemma sample_json_parses :
  json_parser.parse_file sample_world "settings.json"
  = (sample_world, Ok sample_json_config).
Proof. vm_compute. reflexivity. Qed.

Lemma sample_ini_parses :
  ini_parser.parse_file sample_world "Config_DX11.ini" = Ok sample_ini_config.
Proof. vm_compute. reflexivity. Qed.

(** C1 fails as stated.  On a Linux machine the configuration file the game
    wrote, with the line terminators of Windows, parses; nothing is
    changed; the writer succeeds, and the file it leaves is not the file
    that was read: every line now ends in a bare line feed.  On a Windows
    machine the settings file saved with bare line feeds parses; nothing is
    changed; the file the writer leaves has the line terminators of
    Windows, and is not the file that was read. *)
Lemma roundtrip_rewrites_terminators :
  od_get "Config_DX11.ini" (files posix_world)
  = Some ("[DISPLAY]" ++ crlf ++ "Width=1920 // pixels" ++ crlf)
  /\ ini_parser.parse_file posix_world "Config_DX11.ini" = Ok posix_ini_config
  /\ clean posix_ini_config = true
  /\ written (ini_parser.write_preserving_structure posix_world
                posix_ini_config "Config_DX11.ini") "Config_DX11.ini"
       (ln "[DISPLAY]" ++ ln "Width=1920 // pixels")
  /\ od_get "settings.json" (files lf_json_world)
     = Some (writelines sample_json_lines)
  /\ json_parser.parse_file lf_json_world "settings.json"
     = (lf_json_world, Ok sample_json_config)
  /\ clean sample_json_config = true
  /\ written (json_parser.write_preserving_structure lf_json_world
                sample_json_config "settings.json") "settings.json"
       (to_linesep crlf (writelines sample_json_lines))
  /\ String.eqb (to_linesep crlf (writelines sample_json_lines))
       (writelines sample_json_lines) = false.
Proof.
  repeat split; vm_compute; reflexivity.
Qed.

(** A document that holds the literal NaN, which the decoder accepts: the
    field is dirty as soon as it is parsed, since NaN differs from itself,
    and the writer rewrites its line. *)
Remark nan_field_is_dirty :
  dirty_paths (config_of (fst (json_parser.parse_lines 9 [q "{'x': NaN}"])))
  = ["x"]
  /\ json_parser.new_lines
       (config_of (fst (json_parser.parse_lines 9 [q "{'x': NaN}"])))
     = Ok [q "{'x': nan}"].
Proof. split; vm_compute; reflexivity. Qed.

(** ** C10: [FieldState.set_value] with the current value *)

(** C10.  [set_value] with a value equal (Python's [==]) to the current one
    returns [False] and leaves the whole [FieldState] as it was: recorded
    validation errors and warnings, the validation state and the
    modification time are kept.  The validation buckets are emptied only on
    the other branch, when the value differs. *)
Theorem set_value_equal_is_noop
  (fs : field_state.FieldState) (new_value : pyval) (now : Z) :
  py_eq new_value (field_state.current_value fs) = true ->
  field_state.set_value fs new_value now = (false, fs)
  /\ (forall v' fs',
        field_state.set_value fs v' now = (true, fs') ->
        py_eq v' (field_state.current_value fs) = false
        /\ field_state.validation_errors fs' = []
        /\ field_state.validation_warnings fs' = []
        /\ field_state.validation_state fs' = field_state.VALID).
Proof.
  intros Heq. split.
  - unfold field_state.set_value. now rewrite Heq.
  - intros v' fs'. unfold field_state.set_value.
    destruct (py_eq v' (field_state.current_value fs)) eqn:E.
    + discriminate.
    + intros [= <-]. simpl. repeat split.
Qed.

(** A field holding 1 with a recorded error and warning: setting it to 1.0,
    which Python finds equal to 1, changes nothing. *)
Lemma set_value_equal_is_noop_witness :
  let fs := field_state.mkFieldState (VInt 0) (VInt 1) true (Some 7%Z)
              ["out of range"] ["odd"] field_state.ERROR in
  py_eq (VFloat 1%float) (field_state.current_value fs) = true
  /\ field_state.set_value fs (VFloat 1%float) 9%Z = (false, fs).
Proof.
  split; [reflexivity|].
  apply (set_value_equal_is_noop
           (field_state.mkFieldState (VInt 0) (VInt 1) true (Some 7%Z)
              ["out of range"] ["odd"] field_state.ERROR)
           (VFloat 1%float) 9%Z).
  reflexivity.
Defined.

(** ** C2: selective patch *)

Lemma json_find_field_first (name : string) (fs : odict FieldInfo) :
  json_parser.find_field name fs = option_map snd (find_first (json_pred name) fs).
Proof.
  induction fs as [|[k f] fs IH]; simpl; [reflexivity|].
  unfold json_pred at 1. destruct (endswith name k || String.eqb k name);
    [reflexivity | exact IH].
Qed.

Lemma ini_find_field_first (key : string) (fs : odict FieldInfo) :
  ini_parser.find_field key fs = option_map snd (find_first (ini_pred key) fs).
Proof.
  induction fs as [|[k f] fs IH]; simpl; [reflexivity|].
  unfold ini_pred at 1. simpl. destruct (endswith _ k);
    [reflexivity | exact IH].
Qed.

Lemma find_first_in (pred : string -> bool) (fs : odict FieldInfo)
  (k : string) (f : FieldInfo) :
  find_first pred fs = Some (k, f) -> In (k, f) fs.
Proof.
  induction fs as [|[k0 f0] fs IH]; simpl; [discriminate|].
  destruct (pred k0).
  - intros [= -> ->]. now left.
  - intros H. right. now apply IH.
Qed.

(** Assigning to the path [p] does not move the lookup when it stops at
    another path. *)
Lemma find_first_set_other (pred : string -> bool) (fs : odict FieldInfo)
  (p k : string) (x f : FieldInfo) :
  find_first pred fs = Some (k, f) -> k <> p ->
  find_first pred (od_set p x fs) = Some (k, f).
Proof.
  induction fs as [|[k0 f0] fs IH]; simpl; [discriminate|].
  intros H Hne. destruct (String.eqb_spec p k0) as [->|Hp]; simpl.
  - destruct (pred k0); [|exact H].
    injection H as <- <-. contradiction.
  - destruct (pred k0); [exact H|]. now apply IH.
Qed.

(** Assigning to a path the table has does not make the lookup succeed. *)
Lemma find_first_set_none (pred : string -> bool) (fs : odict FieldInfo)
  (p : string) (x f0 : FieldInfo) :
  find_first pred fs = None -> od_get p fs = Some f0 ->
  find_first pred (od_set p x fs) = None.
Proof.
  induction fs as [|[k1 f1] fs IH]; simpl; [discriminate|].
  destruct (pred k1) eqn:Ek; [discriminate|]. intros H.
  destruct (String.eqb_spec p k1) as [->|Hp]; simpl.
  - intros _. now rewrite Ek.
  - intros Hg. rewrite Ek. now apply IH.
Qed.

Lemma set_field_fields (c : ConfigData) (p : string) (v : pyval) :
  fields (set_field c p v) = fields c
  \/ exists info, od_get p (fields c) = Some info
       /\ fields (set_field c p v)
          = od_set p (json_parser.set_value info v) (fields c).
Proof.
  unfold set_field, configuration_model.update_field.
  destruct (od_get p (fields c)) as [info|]; [|now left].
  right. exists info. split; reflexivity.
Qed.

Lemma set_field_raw_lines (c : ConfigData) (p : string) (v : pyval) :
  raw_lines (set_field c p v) = raw_lines c.
Proof.
  unfold set_field, configuration_model.update_field.
  destruct (od_get p (fields c)); reflexivity.
Qed.

Lemma find_first_pred (pred : string -> bool) (fs : odict FieldInfo)
  (k : string) (f : FieldInfo) :
  find_first pred fs = Some (k, f) -> pred k = true.
Proof.
  induction fs as [|[k0 f0] fs IH]; simpl; [discriminate|].
  destruct (pred k0) eqn:E; [|exact IH].
  intros [= <- _]. exact E.
Qed.

(** Assigning to the path the lookup stops at leaves it there, at the new
    entry; and the entry found was the one the table gives for the path. *)
Lemma find_first_set_same (pred : string -> bool) (fs : odict FieldInfo)
  (p : string) (x f : FieldInfo) :
  find_first pred fs = Some (p, f) ->
  find_first pred (od_set p x fs) = Some (p, x) /\ od_get p fs = Some f.
Proof.
  induction fs as [|[k0 f0] fs IH]; cbn [find_first od_set od_get];
    [discriminate|].
  destruct (String.eqb_spec p k0) as [<-|Hp]; cbn [find_first].
  - destruct (pred p) eqn:Ek.
    + intros [= ->]. now split.
    + intros H. apply find_first_pred in H. congruence.
  - destruct (pred k0) eqn:Ek.
    + intros [= E _]. now elim Hp.
    + exact IH.
Qed.

Lemma set_field_known (c : ConfigData) (p : string) (v : pyval)
  (info : FieldInfo) :
  od_get p (fields c) = Some info ->
  fields (set_field c p v)
  = od_set p (json_parser.set_value info v) (fields c).
Proof.
  intros Hg. unfold set_field, configuration_model.update_field.
  now rewrite Hg.
Qed.

(** What a lookup finds after the edit of [p] in a clean document: the
    edited field when it stopped at [p], and the same clean field, or
    nothing, as before the edit otherwise. *)
Lemma lookup_after_set_field (pred : string -> bool) (c : ConfigData)
  (p : string) (v : pyval) (info : FieldInfo) :
  clean c = true -> od_get p (fields c) = Some info ->
  match find_first pred (fields c) with
  | Some (k, f) =>
      if String.eqb k p
      then find_first pred (fields (set_field c p v))
           = Some (p, json_parser.set_value info v)
      else find_first pred (fields (set_field c p v)) = Some (k, f)
           /\ dirty f = false
  | None => find_first pred (fields (set_field c p v)) = None
  end.
Proof.
  intros Hc Hg. rewrite (set_field_known c p v info Hg).
  destruct (find_first pred (fields c)) as [[k f]|] eqn:E.
  - destruct (String.eqb_spec k p) as [->|Hne].
    + destruct (find_first_set_same pred _ p (json_parser.set_value info v)
                  f E) as [H1 H2].
      exact H1.
    + split.
      * now apply find_first_set_other.
      * eapply clean_field; [exact Hc | eapply find_first_in; exact E].
  - now apply (find_first_set_none pred _ p _ info).
Qed.

(** One turn of the loop of the JSON writer after the edit of [p]. *)
Lemma json_write_line_patch (c : ConfigData) (p : string) (v : pyval)
  (info : FieldInfo) (text line : string) :
  clean c = true -> od_get p (fields c) = Some info ->
  py_ne v (original_value info) = true ->
  json_parser._format_value_for_json v (type info) = Ok text ->
  json_parser.write_line (fields (set_field c p v)) line
  = Ok (if resolves_to (json_target (fields c) line) p
        then json_patched text line else line).
Proof.
  intros Hc Hg Hne Hf.
  unfold json_parser.write_line, json_target, json_patched.
  destruct (search_field line) as [[name old]|]; [|reflexivity].
  rewrite json_find_field_first.
  pose proof (lookup_after_set_field (json_pred name) c p v info Hc Hg) as H.
  destruct (find_first (json_pred name) (fields c)) as [[k f]|];
    cbn [option_map fst resolves_to].
  - destruct (String.eqb k p).
    + rewrite H. cbn [option_map snd json_parser.set_value value
                        original_value type].
      rewrite Hne, Hf. reflexivity.
    + destruct H as [-> Hd]. cbn [option_map snd].
      unfold dirty in Hd. now rewrite Hd.
  - now rewrite H.
Qed.

(** One turn of the loop of the INI writer after the edit of [p]. *)
Lemma ini_write_line_patch (c : ConfigData) (p : string) (v : pyval)
  (info : FieldInfo) (text line : string) :
  clean c = true -> od_get p (fields c) = Some info ->
  py_ne v (original_value info) = true ->
  ini_parser._format_value_for_ini v (type info) = Ok text ->
  ini_parser.write_line (fields (set_field c p v)) line
  = Ok (if resolves_to (ini_target (fields c) line) p && has_line_number info
        then ini_patched text line else line).
Proof.
  intros Hc Hg Hne Hf.
  unfold ini_parser.write_line, ini_target, ini_patched, ini_line_key.
  destruct (is_empty (strip line) || startswith "//" (strip line)
            || startswith "[" (strip line)); [reflexivity|].
  destruct (contains "=" (strip line)); [|reflexivity].
  destruct (ini_parser.line_key (strip line)) as [key|]; [|reflexivity].
  rewrite ini_find_field_first.
  pose proof (lookup_after_set_field (ini_pred key) c p v info Hc Hg) as H.
  destruct (find_first (ini_pred key) (fields c)) as [[k f]|];
    cbn [option_map fst resolves_to].
  - destruct (String.eqb k p).
    + rewrite H. cbn [option_map snd json_parser.set_value value
                        original_value type line_number].
      unfold has_line_number.
      destruct (line_number info); [|reflexivity].
      rewrite Hne, Hf. cbn [bind andb].
      destruct (split_once "//" line) as [[a b]|]; reflexivity.
    + destruct H as [-> Hd]. cbn [option_map snd andb].
      unfold dirty in Hd. destruct (line_number f); [|reflexivity].
      now rewrite Hd.
  - now rewrite H.
Qed.

(** A value that can be printed can be formatted for both files. *)
Lemma printable_str (v : pyval) :
  printable v = true -> exists text, py_str v = Ok text.
Proof.
  intros H. unfold py_str, py_repr. rewrite H.
  destruct v; eexists; reflexivity.
Qed.

Lemma format_json_printable (v : pyval) (t : FieldType) :
  printable v = true ->
  exists text, json_parser._format_value_for_json v t = Ok text.
Proof.
  intros H. destruct (printable_str v H) as [text Ht].
  unfold json_parser._format_value_for_json, json_dumps.
  rewrite Ht, H. destruct t; eexists; reflexivity.
Qed.

Lemma format_ini_printable (v : pyval) (t : FieldType) :
  printable v = true ->
  exists text, ini_parser._format_value_for_ini v t = Ok text.
Proof.
  intros H. destruct (printable_str v H) as [text Ht].
  unfold ini_parser._format_value_for_ini.
  destruct t; try (rewrite Ht; destruct v; eexists; reflexivity);
    try (eexists; reflexivity).
  destruct v as [ | b | n | f | s | l | l | d ];
    try (rewrite Ht; eexists; reflexivity).
  cbn [printable] in H. rewrite forallb_forall in H.
  rewrite (map_result_ok _
             (fun x => match x with
                       | VFloat f => format_3f f
                       | _ => match py_str x with
                              | Ok s => s
                              | Raise _ => EmptyString
                              end
                       end)).
  - eexists. reflexivity.
  - intros x Hx. destruct (printable_str x (H x Hx)) as [s Hs].
    destruct x; try reflexivity; rewrite Hs; reflexivity.
Qed.

(** C2, as amended.  In a document without dirty fields the value of the
    field at path [p] is set to a value [v] that differs from its original
    value and can be printed.  Then each writer, on a path it can write,
    succeeds and leaves one line for each line of the document: the line
    made anew for [v] when the writer's lookup resolves the name found on
    the line to [p], that is, when [p] is the first path, in document
    order, that ends with that name (and, for the INI writer, the field
    carries a line number), and the very line of the document otherwise.
    So a line is rewritten for [v] exactly when its name resolves to [p]:
    the lines of other fields that bear a name resolving to [p] are
    rewritten, and the line of [p] itself is kept when its name resolves to
    an earlier field. *)
Theorem selective_patch_lines (c : ConfigData) (p : string) (v : pyval)
  (info : FieldInfo) (w : World) (out : string) :
  clean c = true ->
  od_get p (fields c) = Some info ->
  py_ne v (original_value info) = true ->
  printable v = true ->
  writable w out = true ->
  exists text_json text_ini lines_json lines_ini,
    json_parser._format_value_for_json v (type info) = Ok text_json
    /\ ini_parser._format_value_for_ini v (type info) = Ok text_ini
    /\ written (json_parser.write_preserving_structure w (set_field c p v) out)
         out (to_linesep (linesep w) (writelines lines_json))
    /\ written (ini_parser.write_preserving_structure w (set_field c p v) out)
         out (to_linesep (linesep w) (writelines lines_ini))
    /\ List.length lines_json = List.length (raw_lines c)
    /\ List.length lines_ini = List.length (raw_lines c)
    /\ forall (i : nat) (line : string),
         nth_error (raw_lines c) i = Some line ->
         nth_error lines_json i
         = Some (if resolves_to (json_target (fields c) line) p
                 then json_patched text_json line else line)
         /\ nth_error lines_ini i
            = Some (if resolves_to (ini_target (fields c) line) p
                       && has_line_number info
                    then ini_patched text_ini line else line).
Proof.
  intros Hc Hg Hne Hp Hw.
  destruct (format_json_printable v (type info) Hp) as [tj Htj].
  destruct (format_ini_printable v (type info) Hp) as [ti Hti].
  set (gj := fun line => if resolves_to (json_target (fields c) line) p
                         then json_patched tj line else line).
  set (gi := fun line => if resolves_to (ini_target (fields c) line) p
                            && has_line_number info
                         then ini_patched ti line else line).
  assert (Hj : json_parser.new_lines (set_field c p v)
               = Ok (map gj (raw_lines c))).
  { unfold json_parser.new_lines. rewrite set_field_raw_lines.
    apply map_result_ok. intros line _.
    exact (json_write_line_patch c p v info tj line Hc Hg Hne Htj). }
  assert (Hi : ini_parser.new_lines (set_field c p v)
               = Ok (map gi (raw_lines c))).
  { unfold ini_parser.new_lines. rewrite set_field_raw_lines.
    apply map_result_ok. intros line _.
    exact (ini_write_line_patch c p v info ti line Hc Hg Hne Hti). }
  assert (Hx : existsb (String.eqb out) (unwritable w) = false).
  { unfold writable in Hw. now apply negb_true_iff in Hw. }
  exists tj, ti, (map gj (raw_lines c)), (map gi (raw_lines c)).
  split; [exact Htj|]. split; [exact Hti|].
  split.
  { unfold written, json_parser.write_preserving_structure. rewrite Hj.
    destruct (write_lines_ok w out (map gj (raw_lines c)) Hx) as [Hok Hget].
    destruct (write_lines w out (map gj (raw_lines c))) as [w' r].
    simpl in *. subst r. now split. }
  split.
  { unfold written, ini_parser.write_preserving_structure. rewrite Hi.
    destruct (write_lines_ok w out (map gi (raw_lines c)) Hx) as [Hok Hget].
    destruct (write_lines w out (map gi (raw_lines c))) as [w' r].
    simpl in *. subst r. now split. }
  split; [apply length_map|]. split; [apply length_map|].
  intros i line Hi'. rewrite !nth_error_map, Hi'. now split.
Qed.

(** In the sample settings file [Graphics.Quality] is set to 3: its own
    line, line 3, is made anew, the line of [Graphics.Name] is kept, and
    the line of [Sound.Quality], whose name resolves to [Graphics.Quality],
    is made anew too. *)
Lemma selective_patch_lines_witness :
  clean sample_json_config = true
  /\ printable (VInt 3) = true
  /\ writable sample_world "settings.json" = true
  /\ exists lines_json,
       written (json_parser.write_preserving_structure sample_world
                  edited_json_config "settings.json")
         "settings.json" (to_linesep crlf (writelines lines_json))
       /\ nth_error (raw_lines sample_json_config) 3
          = Some (ln (q "    'Quality': 1, // level #: 'render quality'"))
       /\ nth_error lines_json 3
          = Some (ln (q "    'Quality': 3, // level #: 'render quality'"))
       /\ nth_error lines_json 4 = Some (ln (q "    'Name': 'abc'"))
       /\ nth_error lines_json 7 = Some (ln (q "    'Quality': 3,")).
Proof.
  assert (Hc : clean sample_json_config = true) by (vm_compute; reflexivity).
  assert (Hp : printable (VInt 3) = true) by (vm_compute; reflexivity).
  assert (Hw : writable sample_world "settings.json" = true) by reflexivity.
  split; [exact Hc|]. split; [exact Hp|]. split; [exact Hw|].
  destruct (selective_patch_lines sample_json_config "Graphics.Quality"
              (VInt 3)
              (json_parser.mkFieldInfo "Graphics.Quality" (VInt 1)
                 "render quality" INTEGER "Graphics" (VInt 1) None None)
              sample_world "settings.json" Hc)
    as [tj [ti [lj [li [Htj [_ [Hwj [_ [_ [_ Hl]]]]]]]]]];
    [vm_compute; reflexivity | reflexivity | exact Hp | exact Hw |].
  exists lj. split; [exact Hwj|].
  assert (Et : tj = "3") by (vm_compute in Htj; now injection Htj).
  subst tj.
  split; [vm_compute; reflexivity|].
  split; [|split].
  - rewrite (proj1 (Hl 3 _ eq_refl)).
    vm_compute. reflexivity.
  - rewrite (proj1 (Hl 4 _ eq_refl)).
    vm_compute. reflexivity.
  - rewrite (proj1 (Hl 7 _ eq_refl)).
    vm_compute. reflexivity.
Defined.

(** C2 fails as stated.  In the sample settings file only
    [Graphics.Quality] is set (to 3); the writer also rewrites line 7,
    which holds the value of [Sound.Quality].  In the sample configuration
    file only [DISPLAY.Width] is set (to 1280), a field read from line 2;
    the writer also rewrites line 5, the line of [AUDIO.Width]. *)
Lemma selective_patch_collision :
  dirty_paths edited_json_config = ["Graphics.Quality"]
  /\ nth_error (raw_lines edited_json_config) 7 = Some (ln (q "    'Quality': 5,"))
  /\ nth_error (lines_of (json_parser.new_lines edited_json_config)) 7
     = Some (ln (q "    'Quality': 3,"))
  /\ dirty_paths edited_ini_config = ["DISPLAY.Width"]
  /\ option_map line_number (od_get "DISPLAY.Width" (fields edited_ini_config))
     = Some (Some 2)
  /\ nth_error (raw_lines edited_ini_config) 5 = Some (ln "Width=7")
  /\ nth_error (lines_of (ini_parser.new_lines edited_ini_config)) 5
     = Some (ln "Width=1280").
Proof.
  repeat split; vm_compute; reflexivity.
Qed.

(** ** C3: the order of the writes and of the promotion *)

(** A writer either leaves the lines on the path, or fails: before the
    file is opened, when making a line raised, or when the file cannot be
    opened.  It writes to no other path. *)
Lemma write_lines_effect (w : World) (p : string) (lines : list string) :
  trace (fst (write_lines w p lines)) = (trace w ++ [(p, writable w p)])%list
  /\ unwritable (fst (write_lines w p lines)) = unwritable w
  /\ (snd (write_lines w p lines) = Ok tt <-> writable w p = true).
Proof.
  unfold write_lines, writable.
  destruct (existsb (String.eqb p) (unwritable w)); simpl;
    repeat split; try reflexivity; intros H; discriminate.
Qed.

Lemma json_write_effect (w : World) (c : ConfigData) (p : string) :
  unwritable (fst (json_parser.write_preserving_structure w c p))
  = unwritable w
  /\ (snd (json_parser.write_preserving_structure w c p) = true ->
      writable w p = true
      /\ trace (fst (json_parser.write_preserving_structure w c p))
         = (trace w ++ [(p, true)])%list)
  /\ (snd (json_parser.write_preserving_structure w c p) = false ->
      files (fst (json_parser.write_preserving_structure w c p)) = files w
      /\ (trace (fst (json_parser.write_preserving_structure w c p)) = trace w
          \/ trace (fst (json_parser.write_preserving_structure w c p))
             = (trace w ++ [(p, false)])%list)).
Proof.
  unfold json_parser.write_preserving_structure.
  destruct (json_parser.new_lines c) as [lines|e]; cbn [fst snd].
  - unfold write_lines, writable.
    destruct (existsb (String.eqb p) (unwritable w)); cbn;
      repeat split; try discriminate; try reflexivity.
    now right.
  - repeat split; try discriminate. now left.
Qed.

Lemma ini_write_effect (w : World) (c : ConfigData) (p : string) :
  unwritable (fst (ini_parser.write_preserving_structure w c p))
  = unwritable w
  /\ (snd (ini_parser.write_preserving_structure w c p) = true ->
      writable w p = true
      /\ trace (fst (ini_parser.write_preserving_structure w c p))
         = (trace w ++ [(p, true)])%list)
  /\ (snd (ini_parser.write_preserving_structure w c p) = false ->
      files (fst (ini_parser.write_preserving_structure w c p)) = files w
      /\ (trace (fst (ini_parser.write_preserving_structure w c p)) = trace w
          \/ trace (fst (ini_parser.write_preserving_structure w c p))
             = (trace w ++ [(p, false)])%list)).
Proof.
  unfold ini_parser.write_preserving_structure.
  destruct (ini_parser.new_lines c) as [lines|e]; cbn [fst snd].
  - unfold write_lines, writable.
    destruct (existsb (String.eqb p) (unwritable w)); cbn;
      repeat split; try discriminate; try reflexivity.
    now right.
  - repeat split; try discriminate. now left.
Qed.

Lemma sample_model_loaded :
  json_config sample_model = Some sample_json_config
  /\ json_file_path sample_model = Some "settings.json"
  /\ ini_config sample_model = Some sample_ini_config
  /\ ini_file_path sample_model = Some "Config_DX11.ini".
Proof. repeat split; vm_compute; reflexivity. Qed.

(** ** C4: what a successful [apply_changes] promotes *)

Lemma promote_get_same (st : odict field_state.FieldState) (p : string) :
  od_get p (promote st p) = option_map field_state.apply_changes (od_get p st).
Proof.
  unfold promote. destruct (od_get p st) as [fs|] eqn:E; simpl.
  - apply od_get_set_same.
  - exact E.
Qed.

Lemma promote_get_other (st : odict field_state.FieldState) (p k : string) :
  p <> k -> od_get p (promote st k) = od_get p st.
Proof.
  intros Hne. unfold promote. destruct (od_get k st) as [fs|]; [|reflexivity].
  now apply od_get_set_other.
Qed.

Lemma apply_changes_idempotent (fs : field_state.FieldState) :
  field_state.apply_changes (field_state.apply_changes fs)
  = field_state.apply_changes fs.
Proof. reflexivity. Qed.

(** The loop over the modified set promotes exactly the states of the
    paths in the set. *)
Lemma fold_promote_get (l : list string) (st : odict field_state.FieldState)
  (p : string) :
  od_get p (fold_left promote l st)
  = if existsb (String.eqb p) l
    then option_map field_state.apply_changes (od_get p st)
    else od_get p st.
Proof.
  revert st. induction l as [|k l IH]; intros st; simpl; [reflexivity|].
  rewrite IH. destruct (String.eqb_spec p k) as [->|Hne]; simpl.
  - rewrite promote_get_same.
    destruct (existsb (String.eqb k) l); [|reflexivity].
    destruct (od_get k st); reflexivity.
  - now rewrite promote_get_other.
Qed.

(** C3.  On a loaded model, [apply_changes] first calls the JSON writer.
    If that write fails, nothing else is attempted: the world is the one
    the JSON writer left, with no attempt on the INI file, failure is
    returned and the model is as before the call.  Otherwise the INI writer
    is called next, on the world the JSON writer left; if that write fails,
    failure is returned and the model is as before the call.  Only when
    both writes have succeeded, the JSON file written first and the INI
    file second, is the record promoted: the modified set is emptied, every
    field state whose path was in it has its current value as original
    value, keeps its current value and is no longer modified, and every
    other field state is as before. *)
Theorem apply_changes_order (m : ConfigurationModel) (w : World)
  (cj ci : ConfigData) (pj pi : string) :
  json_config m = Some cj -> json_file_path m = Some pj ->
  ini_config m = Some ci -> ini_file_path m = Some pi ->
  let r := apply_changes m w in
  let j := json_parser.write_preserving_structure w cj pj in
  let i := ini_parser.write_preserving_structure (fst j) ci pi in
  (snd j = false ->
     world_after r = fst j
     /\ files (world_after r) = files w
     /\ (trace (world_after r) = trace w
         \/ trace (world_after r) = (trace w ++ [(pj, false)])%list)
     /\ success r = false /\ model_after r = m)
  /\ (snd j = true -> snd i = false ->
        world_after r = fst i
        /\ files (world_after r) = files (fst j)
        /\ (trace (world_after r) = (trace w ++ [(pj, true)])%list
            \/ trace (world_after r)
               = (trace w ++ [(pj, true); (pi, false)])%list)
        /\ success r = false /\ model_after r = m)
  /\ (snd j = true -> snd i = true ->
        world_after r = fst i
        /\ trace (world_after r) = (trace w ++ [(pj, true); (pi, true)])%list
        /\ success r = true
        /\ _modified_fields (model_after r) = []
        /\ (forall (p : string) (fs : field_state.FieldState),
              In p (_modified_fields m) ->
              od_get p (field_states m) = Some fs ->
              exists fs',
                od_get p (field_states (model_after r)) = Some fs'
                /\ field_state.original_value fs'
                   = field_state.current_value fs
                /\ field_state.current_value fs'
                   = field_state.current_value fs
                /\ field_state.is_modified fs' = false)
        /\ (forall p : string,
              ~ In p (_modified_fields m) ->
              od_get p (field_states (model_after r))
              = od_get p (field_states m))).
Proof.
  intros Hcj Hpj Hci Hpi r j i. subst r i j. unfold apply_changes.
  rewrite Hcj, Hpj, Hci, Hpi.
  destruct (json_write_effect w cj pj) as [Hun [Hjt Hjf]].
  destruct (json_parser.write_preserving_structure w cj pj) as [w1 okj].
  cbn [fst snd] in *.
  destruct (ini_write_effect w1 ci pi) as [Hun2 [Hit Hif]].
  destruct (ini_parser.write_preserving_structure w1 ci pi) as [w2 oki].
  cbn [fst snd] in *.
  destruct okj; cbn [negb].
  - destruct (Hjt eq_refl) as [_ Ht1].
    destruct oki; cbn [negb];
      unfold world_after, model_after, success; cbn [fst snd].
    + split; [discriminate|]. split; [discriminate|]. intros _ _.
      destruct (Hit eq_refl) as [_ Ht2].
      split; [reflexivity|].
      split; [rewrite Ht2, Ht1, <- app_assoc; reflexivity|].
      split; [reflexivity|]. split; [reflexivity|]. split.
      * intros p fs Hin Hget.
        exists (field_state.apply_changes fs).
        cbn [_notify_observers with_states field_states].
        rewrite fold_promote_get, Hget.
        assert (E : existsb (String.eqb p) (_modified_fields m) = true).
        { apply existsb_exists. exists p.
          split; [exact Hin | apply String.eqb_refl]. }
        rewrite E. repeat split.
      * intros p Hnin.
        cbn [_notify_observers with_states field_states].
        rewrite fold_promote_get.
        destruct (existsb (String.eqb p) (_modified_fields m)) eqn:E;
          [|reflexivity].
        apply existsb_exists in E. destruct E as [x [Hx Heq]].
        apply String.eqb_eq in Heq. subst x. contradiction.
    + split; [discriminate|]. split; [|split; discriminate]. intros _ _.
      destruct (Hif eq_refl) as [Hfi Hti].
      split; [reflexivity|]. split; [exact Hfi|].
      split; [|split; reflexivity].
      destruct Hti as [Hti|Hti]; rewrite Hti, Ht1;
        [left; reflexivity | right; now rewrite <- app_assoc].
  - unfold world_after, model_after, success; cbn [fst snd].
    split; [|split; discriminate]. intros _.
    destruct (Hjf eq_refl) as [Hfj Htj].
    split; [reflexivity|]. split; [exact Hfj|].
    split; [exact Htj|]. split; reflexivity.
Qed.

(** The sample model edited in one field.  With both files writable both
    are written, the settings file first, and the state of the edited
    field is promoted: 3, entered over 1, is now its original value.  With
    the configuration file locked the settings file is written, the
    configuration file is not, failure is returned, and the edited field is
    still recorded as modified, with 1 as its original value. *)
Lemma apply_changes_order_witness :
  _modified_fields edited_model = ["Graphics.Quality"]
  /\ od_get "Graphics.Quality" (field_states edited_model)
     = Some (field_state.mkFieldState (VInt 1) (VInt 3) true (Some 1%Z) [] []
               field_state.VALID)
  /\ trace (world_after (apply_changes edited_model sample_world))
     = [("settings.json", true); ("Config_DX11.ini", true)]
  /\ success (apply_changes edited_model sample_world) = true
  /\ _modified_fields (model_after (apply_changes edited_model sample_world))
     = []
  /\ (exists fs',
        od_get "Graphics.Quality"
          (field_states (model_after (apply_changes edited_model sample_world)))
        = Some fs'
        /\ field_state.original_value fs' = VInt 3
        /\ field_state.current_value fs' = VInt 3
        /\ field_state.is_modified fs' = false)
  /\ trace (world_after (apply_changes edited_model locked_ini_world))
     = [("settings.json", true); ("Config_DX11.ini", false)]
  /\ success (apply_changes edited_model locked_ini_world) = false
  /\ model_after (apply_changes edited_model locked_ini_world) = edited_model.
Proof.
  assert (H1 : json_config edited_model = Some edited_json_config)
    by (vm_compute; reflexivity).
  assert (H2 : json_file_path edited_model = Some "settings.json")
    by (vm_compute; reflexivity).
  assert (H3 : ini_config edited_model = Some sample_ini_config)
    by (vm_compute; reflexivity).
  assert (H4 : ini_file_path edited_model = Some "Config_DX11.ini")
    by (vm_compute; reflexivity).
  assert (Hm : _modified_fields edited_model = ["Graphics.Quality"])
    by (vm_compute; reflexivity).
  assert (Hs : od_get "Graphics.Quality" (field_states edited_model)
               = Some (field_state.mkFieldState (VInt 1) (VInt 3) true
                         (Some 1%Z) [] [] field_state.VALID))
    by (vm_compute; reflexivity).
  split; [exact Hm|]. split; [exact Hs|].
  destruct (apply_changes_order edited_model sample_world _ _ _ _
              H1 H2 H3 H4) as [_ [_ Hok]].
  destruct Hok as [_ [Ht [Hsucc [Hmod [Hprom _]]]]];
    [vm_compute; reflexivity | vm_compute; reflexivity |].
  split; [exact Ht|]. split; [exact Hsucc|]. split; [exact Hmod|].
  split.
  { assert (Hin : In "Graphics.Quality" (_modified_fields edited_model))
      by (rewrite Hm; now left).
    exact (Hprom "Graphics.Quality" _ Hin Hs). }
  destruct (apply_changes_order edited_model locked_ini_world _ _ _ _
              H1 H2 H3 H4) as [_ [Hfail _]].
  destruct Hfail as [_ [_ [Ht' [Hsucc' Hsame]]]];
    [vm_compute; reflexivity | vm_compute; reflexivity |].
  split; [|split; [exact Hsucc' | exact Hsame]].
  destruct Ht' as [Ht'|Ht']; [|exact Ht'].
  vm_compute in Ht'. discriminate Ht'.
Defined.

(** C4, as amended.  [apply_changes] never touches the two parsed
    documents: every [FieldInfo] keeps its value and its parse-time
    [original_value], so the writers' dirtiness check answers after the
    call as it did before, and a repeated write-back emits the same lines
    again.  What a successful call promotes is the model's own record: the
    modified set is emptied, and the [FieldState] of every path that was in
    it is unmodified, with an original value equal to its current one. *)
Theorem apply_changes_promotes_field_states
  (m : ConfigurationModel) (w : World) :
  let r := apply_changes m w in
  json_config (model_after r) = json_config m
  /\ ini_config (model_after r) = ini_config m
  /\ (success r = true ->
      _modified_fields (model_after r) = []
      /\ forall (p : string) (fs : field_state.FieldState),
           In p (_modified_fields m) ->
           od_get p (field_states m) = Some fs ->
           exists fs',
             od_get p (field_states (model_after r)) = Some fs'
             /\ field_state.is_modified fs' = false
             /\ field_state.current_value fs' = field_state.current_value fs
             /\ field_state.original_value fs' = field_state.current_value fs).
Proof.
  intros r. subst r. unfold apply_changes, model_after, success.
  destruct (match json_config m, json_file_path m with
            | Some c, Some p => json_parser.write_preserving_structure w c p
            | _, _ => (w, true)
            end) as [w1 okj].
  destruct okj; simpl; [|repeat split; discriminate].
  destruct (match ini_config m, ini_file_path m with
            | Some c, Some p => ini_parser.write_preserving_structure w1 c p
            | _, _ => (w1, true)
            end) as [w2 oki].
  destruct oki; simpl; [|repeat split; discriminate].
  split; [reflexivity|]. split; [reflexivity|]. intros _.
  split; [reflexivity|]. intros p fs Hin Hget.
  exists (field_state.apply_changes fs).
  rewrite fold_promote_get, Hget.
  assert (E : existsb (String.eqb p) (_modified_fields m) = true).
  { apply existsb_exists. exists p. split; [exact Hin | apply String.eqb_refl]. }
  rewrite E. simpl. repeat split.
Qed.

(** The sample model edited, then applied with success: the parsed document
    is the one from before the call, the modified set is empty, and the
    state of [Graphics.Quality] is unmodified with 3 as its original and
    current value. *)
Lemma apply_changes_promotes_field_states_witness :
  success (apply_changes edited_model sample_world) = true
  /\ In "Graphics.Quality" (_modified_fields edited_model)
  /\ json_config applied_model = json_config edited_model
  /\ _modified_fields applied_model = []
  /\ exists fs',
       od_get "Graphics.Quality" (field_states applied_model) = Some fs'
       /\ field_state.is_modified fs' = false
       /\ field_state.current_value fs' = VInt 3
       /\ field_state.original_value fs' = VInt 3.
Proof.
  assert (Hs : success (apply_changes edited_model sample_world) = true)
    by (vm_compute; reflexivity).
  assert (Hin : In "Graphics.Quality" (_modified_fields edited_model))
    by (vm_compute; left; reflexivity).
  destruct (apply_changes_promotes_field_states edited_model sample_world)
    as [Hj [_ H]].
  destruct (H Hs) as [Hm Hp].
  split; [exact Hs|]. split; [exact Hin|]. split; [exact Hj|].
  split; [exact Hm|].
  exact (Hp "Graphics.Quality"
           (field_state.mkFieldState (VInt 1) (VInt 3) true (Some 1%Z) [] []
              field_state.VALID)
           Hin eq_refl).
Defined.

(** C4 fails as stated.  After 3 was entered for [Graphics.Quality] and the
    changes were applied with success, the field state is unmodified but the
    field is still dirty for the writer, and a repeated write-back patches
    lines 3 and 7 again.  And without [apply_changes] or [revert], entering
    1 again takes the field from dirty back to clean. *)
Lemma apply_changes_keeps_writer_dirty :
  success (apply_changes edited_model sample_world) = true
  /\ is_field_modified edited_model "Graphics.Quality" = true
  /\ is_field_modified applied_model "Graphics.Quality" = false
  /\ dirty_paths (model_json applied_model) = ["Graphics.Quality"]
  /\ nth_error (raw_lines (model_json applied_model)) 3
     = Some (ln (q "    'Quality': 1, // level #: 'render quality'"))
  /\ nth_error (lines_of (json_parser.new_lines (model_json applied_model))) 3
     = Some (ln (q "    'Quality': 3, // level #: 'render quality'"))
  /\ dirty_paths (model_json edited_model) = ["Graphics.Quality"]
  /\ dirty_paths (model_json reset_model) = []
  /\ is_field_modified reset_model "Graphics.Quality" = false.
Proof.
  repeat split; vm_compute; reflexivity.
Qed.

(** ** C5: a load that fails partway *)

(** C5, as amended.  [load_configuration] reports failure when either
    parser raises.  When the JSON parser raises, the model is as before the
    call.  When the JSON file parses and the INI parser raises, the model
    already holds the newly parsed JSON document and its path, while its
    INI document, INI path, field states and modified set are those from
    before the call.  When both parse, the call succeeds, holds both new
    documents and has rebuilt the field states from them. *)
Theorem load_configuration_outcomes
  (m : ConfigurationModel) (w : World) (json_path ini_path : string) :
  let r := load_configuration m w json_path ini_path in
  (forall w1 e,
      json_parser.parse_file w json_path = (w1, Raise e) ->
      r = (w1, m, false))
  /\ (forall w1 jc e,
        json_parser.parse_file w json_path = (w1, Ok jc) ->
        ini_parser.parse_file w1 ini_path = Raise e ->
        snd r = false
        /\ json_config (snd (fst r)) = Some jc
        /\ json_file_path (snd (fst r)) = Some json_path
        /\ ini_config (snd (fst r)) = ini_config m
        /\ ini_file_path (snd (fst r)) = ini_file_path m
        /\ field_states (snd (fst r)) = field_states m
        /\ _modified_fields (snd (fst r)) = _modified_fields m)
  /\ (forall w1 jc ic,
        json_parser.parse_file w json_path = (w1, Ok jc) ->
        ini_parser.parse_file w1 ini_path = Ok ic ->
        snd r = true
        /\ json_config (snd (fst r)) = Some jc
        /\ ini_config (snd (fst r)) = Some ic
        /\ field_states (snd (fst r)) = initial_field_states (Some jc) (Some ic)
        /\ _modified_fields (snd (fst r)) = []).
Proof.
  intros r. subst r. unfold load_configuration.
  split; [|split].
  - intros w1 e H. now rewrite H.
  - intros w1 jc e Hj Hi. rewrite Hj, Hi. simpl. repeat split.
  - intros w1 jc ic Hj Hi. rewrite Hj, Hi. simpl. repeat split.
Qed.

(** The sample model asked to load the second settings file and a missing
    configuration file: the JSON parser succeeds, the INI parser raises,
    and the model is left as the second case says. *)
Lemma load_configuration_outcomes_witness :
  json_parser.parse_file other_world "other.json"
  = (other_world, Ok other_json_config)
  /\ ini_parser.parse_file other_world "missing.ini" = Raise FileNotFoundError
  /\ snd failed_load = false
  /\ json_config (snd (fst failed_load)) = Some other_json_config
  /\ json_file_path (snd (fst failed_load)) = Some "other.json"
  /\ ini_config (snd (fst failed_load)) = ini_config sample_model
  /\ ini_file_path (snd (fst failed_load)) = ini_file_path sample_model
  /\ field_states (snd (fst failed_load)) = field_states sample_model
  /\ _modified_fields (snd (fst failed_load)) = _modified_fields sample_model.
Proof.
  assert (Hj : json_parser.parse_file other_world "other.json"
               = (other_world, Ok other_json_config))
    by (vm_compute; reflexivity).
  assert (Hi : ini_parser.parse_file other_world "missing.ini"
               = Raise FileNotFoundError)
    by (vm_compute; reflexivity).
  split; [exact Hj|]. split; [exact Hi|].
  destruct (load_configuration_outcomes sample_model other_world
              "other.json" "missing.ini") as [_ [H _]].
  exact (H other_world other_json_config FileNotFoundError Hj Hi).
Defined.

(** C5 fails as stated.  The sample model is asked to load the second
    settings file and a configuration file that does not exist.  The call
    reports failure, and leaves a model whose JSON document is the new one
    (its only field is [X.y]) while its field states and INI document are
    still those of the sample files. *)
Lemma load_configuration_partial :
  snd failed_load = false
  /\ map fst (fields (model_json (snd (fst failed_load)))) = ["X.y"]
  /\ json_file_path (snd (fst failed_load)) = Some "other.json"
  /\ map fst (field_states (snd (fst failed_load)))
     = map fst (field_states sample_model)
  /\ od_get "X.y" (field_states (snd (fst failed_load))) = None
  /\ is_field_modified (snd (fst failed_load)) "Graphics.Quality" = false
  /\ od_mem "Graphics.Quality" (field_states (snd (fst failed_load))) = true
  /\ ini_config (snd (fst failed_load)) = Some sample_ini_config.
Proof.
  repeat split; vm_compute; reflexivity.
Qed.

(** ** C6: the category of a flattened field *)

Lemma hierarchy_of_dict (items : odict pyval) (descs : odict string)
  (parent_path : string) :
  hierarchy_of (VDict items) descs parent_path
  = fold_left (hierarchy_step descs parent_path) items [].
Proof.
  simpl. generalize (@nil (string * FieldInfo)).
  induction items as [|[key v] items IH]; intros acc; [reflexivity|].
  cbn [fold_left]. rewrite <- IH. unfold hierarchy_step. cbn [fst snd].
  destruct v; reflexivity.
Qed.

(** The entries of the table after the fields of a nested object were
    merged into it: old entries, and nested fields under the category
    [key]. *)
Lemma in_merge_nested (key : string) (nested acc : odict FieldInfo)
  (x : string * FieldInfo) :
  In x (fold_left
          (fun fs n => od_set (fst n) (set_category (snd n) key) fs)
          nested acc) ->
  In x acc
  \/ exists f0, In (fst x, f0) nested /\ snd x = set_category f0 key.
Proof.
  revert acc. induction nested as [|[p0 f0] nested IH]; intros acc; simpl.
  - now left.
  - intros H. destruct (IH _ H) as [Hacc | [f1 [Hin Heq]]].
    + destruct (in_od_set _ _ _ _ Hacc) as [-> | Hold].
      * right. exists f0. split; [now left | reflexivity].
      * now left.
    + right. exists f1. split; [now right | exact Heq].
Qed.

Lemma child_path_root (key : string) : child_path EmptyString key = key.
Proof. reflexivity. Qed.

Lemma top_level_loop (data : odict pyval) (descs : odict string)
  (items : odict pyval) (acc : odict FieldInfo) :
  incl items data ->
  (forall x, In x acc -> top_level_entry data descs x) ->
  forall x,
    In x (fold_left (hierarchy_step descs EmptyString) items acc) ->
    top_level_entry data descs x.
Proof.
  revert acc. induction items as [|[key v] items IH]; intros acc Hincl Hacc x;
    [apply Hacc|].
  cbn [fold_left]. apply IH.
  - intros y Hy. apply Hincl. now right.
  - clear x. intros x Hx.
    assert (Hin : In (key, v) data) by (apply Hincl; now left).
    unfold hierarchy_step in Hx. cbn [fst snd] in Hx.
    rewrite child_path_root in Hx.
    destruct v as [ | b | n | fl | s | l | l | d ];
      try (destruct (in_od_set _ _ _ _ Hx) as [-> | Hold];
           [ left; split; [reflexivity|]; eexists;
             split; [exact Hin | split; reflexivity]
           | now apply Hacc ]).
    destruct (in_merge_nested _ _ _ _ Hx) as [Hold | [f0 [Hn Heq]]];
      [now apply Hacc|].
    right. exists key, d, f0. repeat split; try assumption.
    now rewrite Heq.
Qed.

(** C6, as amended.  Every field that [build_field_hierarchy] produces from
    a document is either a top-level scalar, with category [General], or a
    field found, at any depth, inside the object at a top-level key [k],
    with category [k]: the category is the key of the outermost enclosing
    object. *)
Theorem category_is_top_level_key (data : odict pyval) (descs : odict string)
  (p : string) (f : FieldInfo) :
  In (p, f) (build_field_hierarchy data descs EmptyString) ->
  (category f = "General"
   /\ exists v, In (p, v) data /\ is_dict v = false /\ value f = v)
  \/ (exists k d f0,
        In (k, VDict d) data
        /\ In (p, f0) (build_field_hierarchy d descs k)
        /\ f = set_category f0 k
        /\ category f = k).
Proof.
  intros H. unfold build_field_hierarchy in H. rewrite hierarchy_of_dict in H.
  exact (top_level_loop data descs data [] (incl_refl data)
           (fun x Hx => match Hx with end) (p, f) H).
Qed.

(** In the nested document the field [A.B.c] lies inside the object at the
    top-level key [A], and [A] is its category. *)
Lemma category_is_top_level_key_witness :
  In ("A.B.c", mkFieldInfo "A.B.c" (VInt 1) "" INTEGER "A" (VInt 1) None None)
    (build_field_hierarchy nested_data [] EmptyString)
  /\ ((category (mkFieldInfo "A.B.c" (VInt 1) "" INTEGER "A" (VInt 1) None None)
       = "General"
       /\ exists v, In ("A.B.c", v) nested_data /\ is_dict v = false
                    /\ VInt 1 = v)
      \/ exists k d f0,
           In (k, VDict d) nested_data
           /\ In ("A.B.c", f0) (build_field_hierarchy d [] k)
           /\ mkFieldInfo "A.B.c" (VInt 1) "" INTEGER "A" (VInt 1) None None
              = set_category f0 k
           /\ "A" = k).
Proof.
  assert (H : In ("A.B.c",
                  mkFieldInfo "A.B.c" (VInt 1) "" INTEGER "A" (VInt 1) None None)
                (build_field_hierarchy nested_data [] EmptyString))
    by (vm_compute; left; reflexivity).
  split; [exact H|].
  exact (category_is_top_level_key nested_data [] _ _ H).
Defined.

(** C6 fails as stated.  The field [A.B.c] of the nested document lies in
    the object [B], itself inside the object [A]: the nearest enclosing
    object has key [B], the category is [A]. *)
Lemma category_not_nearest_key :
  od_get "A.B.c" (build_field_hierarchy nested_data [] EmptyString)
  = Some (mkFieldInfo "A.B.c" (VInt 1) "" INTEGER "A" (VInt 1) None None)
  /\ enclosing_keys "A.B.c" = ["A"; "B"]
  /\ last (enclosing_keys "A.B.c") EmptyString = "B"
  /\ od_get "top" (build_field_hierarchy nested_data [] EmptyString)
     = Some (mkFieldInfo "top" (VBool true) "" BOOLEAN "General" (VBool true)
               None None).
Proof.
  repeat split; vm_compute; reflexivity.
Qed.

(** ** C7: the coercion of entered text *)

Lemma float_of_str_raises (s : string) (e : exn) :
  float_of_str s = Raise e -> e = ValueError.
Proof.
  unfold float_of_str. destruct (parse_sign (numeral_text s)) as [neg r].
  destruct (String.eqb (lower r) "inf" || String.eqb (lower r) "infinity");
    [discriminate|].
  destruct (String.eqb (lower r) "nan"); [discriminate|].
  destruct (match digitpart r with Some x => x | None => (0%Z, 0, r) end)
    as [[v1 n1] r1].
  destruct (match r1 with
            | String "." r1' =>
                match digitpart r1' with Some x => x | None => (0%Z, 0, r1') end
            | _ => (0%Z, 0, r1)
            end) as [[v2 n2] r2].
  destruct (Nat.eqb (n1 + n2) 0); [congruence|].
  destruct (parse_exponent r2) as [[ex [|c r3]]|]; intros H; congruence.
Qed.

(** [_convert_value_to_type] on a string gives what [expected_coercion]
    lists. *)
Lemma convert_expected (original : pyval) (s : string) (v : pyval) :
  expected_coercion original s = Some v ->
  _convert_value_to_type (VStr s) original = Ok v.
Proof.
  unfold expected_coercion, _convert_value_to_type.
  destruct original as [ | b | n | f0 | s0 | l | l | d ];
    try (intros [= <-]; reflexivity).
  - destruct (is_empty (strip s)); [intros [= <-]; reflexivity|].
    destruct (float_of_str s) as [f|e] eqn:E; simpl.
    + unfold int_of_float. destruct (is_nan f); [intros [= <-]; reflexivity|].
      destruct (is_inf f); [discriminate|]. intros [= <-]. reflexivity.
    + rewrite (float_of_str_raises _ _ E). intros [= <-]. reflexivity.
  - destruct (is_empty (strip s)); [intros [= <-]; reflexivity|].
    destruct (float_of_str s) as [f|e] eqn:E; simpl.
    + intros [= <-]. reflexivity.
    + rewrite (float_of_str_raises _ _ E). intros [= <-]. reflexivity.
Qed.

Lemma field_states_after_update (m : ConfigurationModel) (p : string)
  (v : pyval) (e : event) :
  field_states (_notify_observers (_update_config_data m p v) e)
  = field_states m.
Proof.
  unfold _notify_observers, _update_config_data.
  destruct (startswith "ini." p); reflexivity.
Qed.

(** What [set_field_value] stores for a text it converts: for a known
    field path, a string [s] is stored by the type of the field's original
    value: on a boolean original its truth value; on an integer original
    the integer part of [float(s)], and 0 for blank text, for text that
    [float] rejects and for NaN; on a float original [float(s)], and 0.0 for
    blank or rejected text; on any other original the string itself.
    Nothing is stored when the value obtained equals the current one. *)
Lemma set_field_value_coercion (m : ConfigurationModel) (p : string)
  (fs : field_state.FieldState) (s : string) (now : Z) (v : pyval) :
  od_get p (field_states m) = Some fs ->
  expected_coercion (field_state.original_value fs) s = Some v ->
  exists (m' : ConfigurationModel) (changed : bool),
    set_field_value m p (VStr s) now = Ok (m', changed)
    /\ (changed = true -> get_field_value m' p = v)
    /\ (changed = false ->
        m' = m /\ py_eq v (field_state.current_value fs) = true).
Proof.
  intros Hg He. unfold set_field_value. rewrite Hg.
  rewrite (convert_expected _ _ _ He). simpl.
  unfold field_state.set_value.
  destruct (py_eq v (field_state.current_value fs)) eqn:E.
  - exists m, false. split; [reflexivity|]. split; [discriminate|].
    intros _. split; reflexivity.
  - eexists. exists true. split; [reflexivity|]. split; [|discriminate].
    intros _. unfold get_field_value.
    rewrite field_states_after_update. cbn [with_states field_states].
    now rewrite od_get_set_same.
Qed.

(** An infinity is no NaN. *)
Lemma inf_not_nan (f : float) : is_inf f = true -> is_nan f = false.
Proof.
  unfold is_inf, is_nan, PrimFloat.is_infinity, PrimFloat.is_nan.
  rewrite !FloatAxioms.eqb_spec, FloatAxioms.abs_spec.
  change (Prim2SF PrimFloat.infinity) with (S754_infinity false).
  destruct (Prim2SF f) as [s|s| |s m e]; try discriminate.
  intros _. destruct s; reflexivity.
Qed.

(** C7: the defect.  On a known field whose original value is an integer,
    a text that is not blank and that [float] reads as an infinity makes
    [int(float(s))] raise OverflowError; the handler of
    [_convert_value_to_type] catches ValueError and TypeError only, and
    [set_field_value] raises OverflowError where the claim has it store
    0. *)
Theorem set_field_value_overflow (m : ConfigurationModel) (p : string)
  (fs : field_state.FieldState) (n0 now : Z) (s : string) (f : float) :
  od_get p (field_states m) = Some fs ->
  field_state.original_value fs = VInt n0 ->
  is_empty (strip s) = false ->
  float_of_str s = Ok f -> is_inf f = true ->
  set_field_value m p (VStr s) now = Raise OverflowError.
Proof.
  intros Hg Ho Hb Hf Hi. unfold set_field_value. rewrite Hg, Ho.
  unfold _convert_value_to_type. rewrite Hb, Hf. cbn [bind].
  unfold int_of_float.
  rewrite (inf_not_nan f Hi), Hi. reflexivity.
Qed.

(** On the sample model the texts [inf] and [1e999], entered for the
    integer field [Graphics.Quality], make [set_field_value] raise. *)
Lemma set_field_value_overflow_witness :
  od_get "Graphics.Quality" (field_states sample_model)
  = Some (field_state.new_FieldState (VInt 1))
  /\ float_of_str "inf" = Ok PrimFloat.infinity
  /\ float_of_str "1e999" = Ok PrimFloat.infinity
  /\ set_field_value sample_model "Graphics.Quality" (VStr "inf") 1%Z
     = Raise OverflowError
  /\ set_field_value sample_model "Graphics.Quality" (VStr "1e999") 1%Z
     = Raise OverflowError.
Proof.
  split; [vm_compute; reflexivity|].
  split; [vm_compute; reflexivity|].
  split; [vm_compute; reflexivity|].
  split.
  - apply (set_field_value_overflow sample_model "Graphics.Quality"
             (field_state.new_FieldState (VInt 1)) 1%Z 1%Z "inf"
             PrimFloat.infinity);
      vm_compute; reflexivity.
  - apply (set_field_value_overflow sample_model "Graphics.Quality"
             (field_state.new_FieldState (VInt 1)) 1%Z 1%Z "1e999"
             PrimFloat.infinity);
      vm_compute; reflexivity.
Defined.

(** Beside it, what the sample model stores for other texts: 123 and 0 for
    the texts 123 and abc on the integer field; 123.0, 0.0 and infinity for
    the texts 123, abc and [inf] on the float field [Sound.Volume]. *)
Remark set_field_value_samples :
  get_field_value
    (model_of (set_field_value sample_model "Graphics.Quality" (VStr "123") 1%Z))
    "Graphics.Quality" = VInt 123
  /\ get_field_value
       (model_of (set_field_value edited_model "Graphics.Quality" (VStr "abc") 1%Z))
       "Graphics.Quality" = VInt 0
  /\ get_field_value
       (model_of (set_field_value sample_model "Sound.Volume" (VStr "123") 1%Z))
       "Sound.Volume" = VFloat 123%float
  /\ get_field_value
       (model_of (set_field_value sample_model "Sound.Volume" (VStr "abc") 1%Z))
       "Sound.Volume" = VFloat 0%float
  /\ get_field_value
       (model_of (set_field_value sample_model "Sound.Volume" (VStr "inf") 1%Z))
       "Sound.Volume" = VFloat PrimFloat.infinity.
Proof.
  repeat split; vm_compute; reflexivity.
Qed.

(** ** C8: the coercion of INI values *)

Lemma int_of_str_raises (s : string) (e : exn) :
  int_of_str s = Raise e -> e = ValueError.
Proof.
  unfold int_of_str. destruct (parse_sign (numeral_text s)) as [neg r].
  destruct (digitpart r) as [[[v n] [|c r']]|]; try (intros H; congruence).
  destruct (Z.of_nat n <=? max_str_digits)%Z; intros H; congruence.
Qed.

(** C8, as amended.  With [v] the stripped string: a boolean word
    (case-insensitive [true], [on], [yes], [1]; then [false], [off], [no],
    [0]) gives the boolean, before any numeric parse.  Otherwise exactly
    one numeric parse is attempted, chosen by the dot: without a dot the
    integer parse, with a dot the float parse.  When that one parse fails
    the result is the tuple of the comma-separated, stripped parts between
    parentheses, each a float when it reads as one and its text otherwise,
    or else the plain stripped string.  In particular a string without a
    dot is never given a float value. *)
Theorem ini_value_coercion (s : string) :
  let v := strip s in
  let r := ini_parser._parse_ini_value s in
  let is_true := ini_parser.mem_str (lower v) ini_parser.bool_words_true in
  let is_false := ini_parser.mem_str (lower v) ini_parser.bool_words_false in
  (is_true = true -> r = VBool true)
  /\ (is_true = false -> is_false = true -> r = VBool false)
  /\ (is_true = false -> is_false = false -> contains "." v = false ->
      forall n, int_of_str v = Ok n -> r = VInt n)
  /\ (is_true = false -> is_false = false -> contains "." v = true ->
      forall f, float_of_str v = Ok f -> r = VFloat f)
  /\ (is_true = false -> is_false = false ->
      forall e,
        (contains "." v = false /\ int_of_str v = Raise e)
        \/ (contains "." v = true /\ float_of_str v = Raise e) ->
        r = tuple_or_string v)
  /\ (contains "." v = false -> forall f, r <> VFloat f).
Proof.
  intros v r is_true is_false. subst r is_true is_false.
  unfold ini_parser._parse_ini_value. fold v.
  repeat split.
  - intros ->. reflexivity.
  - intros -> ->. reflexivity.
  - intros -> -> -> n ->. reflexivity.
  - intros -> -> -> f ->. reflexivity.
  - intros -> -> e [[-> He] | [-> He]]; rewrite He; simpl.
    + rewrite (int_of_str_raises _ _ He). reflexivity.
    + rewrite (float_of_str_raises _ _ He). reflexivity.
  - intros -> f.
    destruct (ini_parser.mem_str (lower v) ini_parser.bool_words_true);
      [discriminate|].
    destruct (ini_parser.mem_str (lower v) ini_parser.bool_words_false);
      [discriminate|].
    simpl. destruct (int_of_str v) as [n|e] eqn:E; simpl; [discriminate|].
    rewrite (int_of_str_raises _ _ E). simpl.
    destruct (startswith "(" v && endswith ")" v); discriminate.
Qed.

(** The text of three floats between parentheses has a dot and is no
    float; it is given the tuple of the three floats. *)
Lemma ini_value_coercion_witness :
  ini_parser._parse_ini_value "(0.609, 0.343, 0.457)"
  = VTuple [VFloat 0.609%float; VFloat 0.343%float; VFloat 0.457%float]
  /\ ini_parser._parse_ini_value "1" = VBool true
  /\ ini_parser._parse_ini_value "0" = VBool false
  /\ ini_parser._parse_ini_value "On" = VBool true
  /\ ini_parser._parse_ini_value "12" = VInt 12
  /\ ini_parser._parse_ini_value "1.5" = VFloat 1.5%float.
Proof.
  split.
  - destruct (ini_value_coercion "(0.609, 0.343, 0.457)")
      as [_ [_ [_ [_ [H _]]]]].
    rewrite (H eq_refl eq_refl ValueError (or_intror (conj eq_refl eq_refl))).
    vm_compute. reflexivity.
  - repeat split; vm_compute; reflexivity.
Defined.

(** C8 fails as stated.  The text [1e5] is no boolean word and no integer,
    and [float] reads it as 100000.0: the chain of attempts gives that
    float, the parser keeps the string. *)
Lemma ini_value_exponent_stays_text :
  ini_parser._parse_ini_value "1e5" = VStr "1e5"
  /\ float_of_str "1e5" = Ok 100000%float
  /\ chain_parse_ini_value "1e5" = VFloat 100000%float
  /\ ini_parser._parse_ini_value "inf" = VStr "inf"
  /\ chain_parse_ini_value "inf" = VFloat PrimFloat.infinity.
Proof.
  repeat split; vm_compute; reflexivity.
Qed.

(** ** C9: the equality of the comparison engine *)

Lemma values_equal_seq (a b : pyval) :
  is_seq a = true -> is_seq b = true ->
  _values_equal a b
  = if negb (Nat.eqb (List.length (seq_items a)) (List.length (seq_items b)))
    then Ok false
    else all_pairs _values_equal (seq_items a) (seq_items b).
Proof.
  intros Ha Hb.
  assert (Hfix : forall l1 l2,
    (fix all_equal (xs ys : list pyval) {struct xs} : result bool :=
       match xs, ys with
       | v1 :: xs', v2 :: ys' =>
           bind (_values_equal v1 v2) (fun b0 =>
             if b0 then all_equal xs' ys' else Ok false)
       | _, _ => Ok true
       end) l1 l2 = all_pairs _values_equal l1 l2).
  { induction l1 as [|x l1 IH]; intros [|y l2]; try reflexivity.
    cbn [all_pairs]. destruct (_values_equal x y) as [[|]|e]; simpl;
      [apply IH | reflexivity | reflexivity]. }
  destruct a; try discriminate; destruct b; try discriminate;
    cbn [_values_equal is_number is_int is_float is_str is_bool is_seq
         is_list is_tuple seq_items andb orb];
    rewrite Hfix; reflexivity.
Qed.

(** With as many elements on both sides, the pairwise test says equal just
    when every pair is found equal. *)
Lemma all_pairs_true (eq : pyval -> pyval -> result bool) (xs ys : list pyval) :
  List.length xs = List.length ys ->
  (all_pairs eq xs ys = Ok true <-> Forall2 (fun x y => eq x y = Ok true) xs ys).
Proof.
  revert ys. induction xs as [|x xs IH]; intros [|y ys] Hlen;
    try discriminate; simpl.
  - split; [constructor | reflexivity].
  - injection Hlen as Hlen. specialize (IH ys Hlen).
    destruct (eq x y) as [[|]|e] eqn:E; simpl.
    + rewrite IH. split.
      * intros H. now constructor.
      * intros H. now inversion H.
    + split; [discriminate|]. intros H. inversion H; congruence.
    + split; [discriminate|]. intros H. inversion H; congruence.
Qed.

(** C9, as amended.  None equals None and nothing else.  Booleans, integers
    and floats are all numbers: when at least one side is a float both are
    cast to float, which raises for an integer out of the range of the
    floats, and the two are equal when the absolute value of the difference
    of the casts is less than 1e-10; when neither is, they are equal when
    the integers are equal, a boolean counting as 0 or 1.  Strings are
    compared stripped.  Lists and tuples are equal when they have as many
    elements and these are pairwise equal by the same rule.  Every other
    pair is compared by [==]. *)
Theorem values_equal_rule (a b : pyval) :
  _values_equal VNone VNone = Ok true
  /\ (kind_of a <> KNone ->
      _values_equal a VNone = Ok false /\ _values_equal VNone a = Ok false)
  /\ (is_number a = true -> is_number b = true ->
      (is_float a || is_float b = true ->
       _values_equal a b
       = bind (float_of_pyval a) (fun f1 =>
         bind (float_of_pyval b) (fun f2 =>
         Ok (PrimFloat.ltb (PrimFloat.abs (PrimFloat.sub f1 f2))
               1e-10%float))))
      /\ (is_float a || is_float b = false ->
          _values_equal a b = Ok (int_value a =? int_value b)%Z))
  /\ (forall s1 s2,
        _values_equal (VStr s1) (VStr s2) = Ok (String.eqb (strip s1) (strip s2)))
  /\ (is_seq a = true -> is_seq b = true ->
      (List.length (seq_items a) <> List.length (seq_items b) ->
       _values_equal a b = Ok false)
      /\ (_values_equal a b = Ok true <->
          List.length (seq_items a) = List.length (seq_items b)
          /\ Forall2 (fun x y => _values_equal x y = Ok true)
               (seq_items a) (seq_items b)))
  /\ (kind_of a <> KNone -> kind_of b <> KNone ->
      kind_eqb (kind_of a) (kind_of b) = false \/ kind_of a = KDict ->
      _values_equal a b = Ok (py_eq a b)).
Proof.
  split; [reflexivity|].
  split.
  { intros Ha. destruct a; try (now elim Ha); split; reflexivity. }
  split.
  { intros Ha Hb. split; intros Hf.
    - destruct a; try discriminate; destruct b; try discriminate; reflexivity.
    - destruct a as [ | x | x | x | x | x | x | x ]; try discriminate;
        destruct b as [ | y | y | y | y | y | y | y ]; try discriminate;
        try reflexivity; simpl.
      + destruct x, y; reflexivity.
      + now rewrite Z.eqb_sym. }
  split; [reflexivity|].
  split.
  { intros Ha Hb. rewrite (values_equal_seq a b Ha Hb). split.
    - intros Hne. apply Nat.eqb_neq in Hne. now rewrite Hne.
    - destruct (Nat.eqb_spec (List.length (seq_items a))
                  (List.length (seq_items b))) as [Hlen|Hlen]; simpl.
      + rewrite (all_pairs_true _ _ _ Hlen). tauto.
      + split; [discriminate | tauto]. }
  intros Ha Hb [Hk | Hk].
  - destruct a; try (now elim Ha); destruct b; try (now elim Hb);
      try discriminate; reflexivity.
  - destruct a; try discriminate; destruct b; try (now elim Hb); reflexivity.
Qed.

(** A list and a tuple with as many elements, pairwise equal by the rule:
    the engine finds them equal.  And floats: 1.0 and 2.0 differ, in this
    order, by more than the tolerance in absolute value; 1.0 and 1.00001
    differ by more than 1e-10; 1e-10 and 0.0 differ by 1e-10, which is not
    less than 1e-10; 1.0 and 1.00000000001 are within the tolerance; and an
    integer of 400 digits against a float makes the comparison raise. *)
Lemma values_equal_rule_witness :
  is_seq (VList [VInt 1; VInt 2]) = true
  /\ is_seq (VTuple [VInt 1; VFloat 2%float]) = true
  /\ _values_equal (VList [VInt 1; VInt 2]) (VTuple [VInt 1; VFloat 2%float])
     = Ok true
  /\ _values_equal (VFloat 1%float) (VFloat 2%float) = Ok false
  /\ _values_equal (VFloat 1%float) (VFloat 1.00001%float) = Ok false
  /\ _values_equal (VFloat 1e-10%float) (VFloat 0%float) = Ok false
  /\ _values_equal (VFloat 1%float) (VFloat 1.00000000001%float) = Ok true
  /\ _values_equal (VInt (10 ^ 400)) (VFloat 1%float) = Raise OverflowError.
Proof.
  split; [reflexivity|]. split; [reflexivity|].
  split.
  { destruct (values_equal_rule (VList [VInt 1; VInt 2])
                (VTuple [VInt 1; VFloat 2%float])) as [_ [_ [_ [_ [H _]]]]].
    apply (proj2 (H eq_refl eq_refl)).
    split; [reflexivity|].
    constructor; [reflexivity|]. constructor; [reflexivity|]. constructor. }
  assert (Hf : forall a b,
            is_number a = true -> is_number b = true ->
            is_float a || is_float b = true ->
            _values_equal a b
            = bind (float_of_pyval a) (fun f1 =>
              bind (float_of_pyval b) (fun f2 =>
              Ok (PrimFloat.ltb (PrimFloat.abs (PrimFloat.sub f1 f2))
                    1e-10%float)))).
  { intros a b Ha Hb Hfl.
    destruct (values_equal_rule a b) as [_ [_ [H _]]].
    exact (proj1 (H Ha Hb) Hfl). }
  repeat split; rewrite Hf; try reflexivity; vm_compute; reflexivity.
Defined.

(** C9 fails as stated.  The integers 2^53 and 2^53 + 1 both cast to the
    float 9007199254740992.0, so the stated rule finds them equal; the
    engine compares two integers exactly and finds them different.  And the
    boolean True against the float 1.00000000001: the stated rule falls
    back to [==], which is false; the engine takes the boolean for a number
    and finds the two within the tolerance. *)
Lemma values_equal_integers_exact :
  float_of_pyval (VInt (2 ^ 53)) = Ok 9007199254740992%float
  /\ float_of_pyval (VInt (2 ^ 53 + 1)) = Ok 9007199254740992%float
  /\ stated_values_equal (VInt (2 ^ 53)) (VInt (2 ^ 53 + 1)) = Ok true
  /\ _values_equal (VInt (2 ^ 53)) (VInt (2 ^ 53 + 1)) = Ok false
  /\ stated_values_equal (VBool true) (VFloat 1.00000000001%float) = Ok false
  /\ _values_equal (VBool true) (VFloat 1.00000000001%float) = Ok true.
Proof.
  repeat split; vm_compute; reflexivity.
Qed.

(** ** Field states: what every sequence of calls keeps *)

Lemma fold_left_invariant {A B : Type} (P : A -> Prop) (f : A -> B -> A)
  (l : list B) (a : A) :
  (forall x b, P x -> P (f x b)) -> P a -> P (fold_left f l a).
Proof.
  intros Hstep. revert a. induction l as [|b l IH]; simpl; intros a Ha.
  - exact Ha.
  - apply IH, Hstep, Ha.
Qed.

Lemma flag_consistent_perform (fs : field_state.FieldState) (c : fs_call) :
  flag_consistent fs -> flag_consistent (fs_perform fs c).
Proof.
  intros Hfs. destruct c; simpl.
  - unfold field_state.set_value.
    destruct (py_eq new_value (field_state.current_value fs));
      [exact Hfs|].
    simpl. destruct (py_ne new_value (field_state.original_value fs)) eqn:E;
      unfold flag_consistent; simpl; (split; [split; intros H|intros H]);
      try discriminate; try exact E; try reflexivity;
      try (exfalso; apply H; reflexivity).
  - unfold field_state.revert.
    destruct (field_state.is_modified fs); simpl; [|exact Hfs].
    split; [split; intros H|intros H];
      try discriminate; try reflexivity; exfalso; apply H; reflexivity.
  - split; [split; intros H|intros H];
      try discriminate; try reflexivity; exfalso; apply H; reflexivity.
  - unfold field_state.add_validation_error.
    destruct (existsb _ _); exact Hfs.
  - unfold field_state.add_validation_warning.
    destruct (existsb _ _); exact Hfs.
  - exact Hfs.
Qed.

(** X1 (FieldState): whatever calls are made on a field state, the field is
    flagged as modified exactly when it carries a modification time, and a
    flagged field holds a value that differs from its original value. *)
Theorem field_state_flag_invariant (v : pyval) (calls : list fs_call) :
  flag_consistent (fs_history v calls).
Proof.
  unfold fs_history. apply fold_left_invariant.
  - intros fs c. apply flag_consistent_perform.
  - split; [split; intros H|intros H];
      try discriminate; try reflexivity; exfalso; apply H; reflexivity.
Qed.

Lemma existsb_eqb_false_not_in (x : string) (l : list string) :
  existsb (String.eqb x) l = false -> ~ In x l.
Proof.
  intros H Hin.
  assert (existsb (String.eqb x) l = true) as Ht.
  { apply existsb_exists. exists x. split; [exact Hin | apply String.eqb_refl]. }
  congruence.
Qed.

Lemma NoDup_snoc (x : string) (l : list string) :
  NoDup l -> ~ In x l -> NoDup (l ++ [x])%list.
Proof.
  intros Hl Hx. induction Hl as [|y l Hy Hl IH]; simpl.
  - constructor; [intros [] | constructor].
  - constructor.
    + intros Hin. apply in_app_or in Hin. destruct Hin as [Hin|[->|[]]].
      * contradiction.
      * apply Hx. now left.
    + apply IH. intros Hin. apply Hx. now right.
Qed.

Lemma state_of_messages_snoc_error (es ws : list string) (e : string) :
  state_of_messages (es ++ [e])%list ws = field_state.ERROR.
Proof. destruct es; reflexivity. Qed.

Lemma validation_consistent_perform (fs : field_state.FieldState)
  (c : fs_call) :
  validation_consistent fs -> validation_consistent (fs_perform fs c).
Proof.
  intros Hfs. pose proof Hfs as (Hst & He & Hw). destruct c; simpl.
  - unfold field_state.set_value.
    destruct (py_eq new_value (field_state.current_value fs)); simpl.
    + exact Hfs.
    + repeat split; constructor.
  - unfold field_state.revert.
    destruct (field_state.is_modified fs); simpl.
    + repeat split; constructor.
    + exact Hfs.
  - exact Hfs.
  - unfold field_state.add_validation_error.
    destruct (existsb _ _) eqn:E; simpl.
    + exact Hfs.
    + split; [symmetry; apply state_of_messages_snoc_error|].
      split; [|exact Hw].
      apply NoDup_snoc; [exact He | now apply existsb_eqb_false_not_in].
  - unfold field_state.add_validation_warning.
    destruct (existsb _ _) eqn:E; simpl.
    + exact Hfs.
    + split; [|split; [exact He|]].
      * simpl. rewrite Hst.
        destruct (field_state.validation_errors fs);
          destruct (field_state.validation_warnings fs); reflexivity.
      * apply NoDup_snoc; [exact Hw | now apply existsb_eqb_false_not_in].
  - repeat split; constructor.
Qed.

(** X2 (FieldState): whatever calls are made on a field state, its
    validation state is the one its messages call for: ERROR when there is
    an error, WARNING when there are only warnings, VALID when there is no
    message; and no message is listed twice. *)
Theorem field_state_validation_invariant (v : pyval) (calls : list fs_call) :
  validation_consistent (fs_history v calls).
Proof.
  unfold fs_history. apply fold_left_invariant.
  - intros fs c. apply validation_consistent_perform.
  - repeat split; constructor.
Qed.

(** ** The model: the set of modified paths *)

Lemma od_get_in {V : Type} (k : string) (v : V) (d : odict V) :
  od_get k d = Some v -> In (k, v) d.
Proof.
  induction d as [|[k' v'] d IH]; simpl; [discriminate|].
  destruct (String.eqb_spec k k') as [->|Hne].
  - intros [= ->]. now left.
  - intros H. right. now apply IH.
Qed.

Lemma in_set_add (x y : string) (l : list string) :
  In y (set_add x l) <-> y = x \/ In y l.
Proof.
  unfold set_add. destruct (existsb (String.eqb x) l) eqn:E.
  - split; [now right|]. intros [->|H]; [|exact H].
    apply existsb_exists in E. destruct E as (z & Hz & Ez).
    apply String.eqb_eq in Ez. now subst z.
  - rewrite in_app_iff. simpl. split.
    + intros [H|[H|[]]]; [now right | now left].
    + intros [H|H]; [right; left; now symmetry | now left].
Qed.

Lemma in_set_discard (x y : string) (l : list string) :
  In y (set_discard x l) <-> y <> x /\ In y l.
Proof.
  unfold set_discard. rewrite filter_In. split.
  - intros [H E]. split; [|exact H]. intros ->.
    now rewrite String.eqb_refl in E.
  - intros [Hne H]. split; [exact H|].
    destruct (String.eqb_spec x y) as [->|_]; [contradiction | reflexivity].
Qed.

Lemma NoDup_set_add (x : string) (l : list string) :
  NoDup l -> NoDup (set_add x l).
Proof.
  intros H. unfold set_add. destruct (existsb (String.eqb x) l) eqn:E.
  - exact H.
  - apply NoDup_snoc; [exact H | now apply existsb_eqb_false_not_in].
Qed.

Lemma NoDup_set_discard (x : string) (l : list string) :
  NoDup l -> NoDup (set_discard x l).
Proof. intros H. now apply NoDup_filter. Qed.

(** The invariant looks at the field states and at the set only. *)
Lemma tracked_ext (m m' : ConfigurationModel) :
  field_states m' = field_states m ->
  _modified_fields m' = _modified_fields m ->
  tracked m -> tracked m'.
Proof.
  intros Hs Hm [Hnd Hiff]. unfold tracked, is_field_modified in *.
  rewrite Hs, Hm. split; assumption.
Qed.

(** Storing a state for a path and adding the path to the set, or dropping
    it from the set, by the flag of the state. *)
Lemma tracked_store (m m' : ConfigurationModel) (p : string)
  (fs' : field_state.FieldState) :
  tracked m ->
  field_states m' = od_set p fs' (field_states m) ->
  _modified_fields m'
  = (if field_state.is_modified fs'
     then set_add p (_modified_fields m)
     else set_discard p (_modified_fields m)) ->
  tracked m'.
Proof.
  intros [Hnd Hiff] Hs Hm. unfold tracked, is_field_modified in *.
  rewrite Hs, Hm. split.
  - destruct (field_state.is_modified fs');
      [now apply NoDup_set_add | now apply NoDup_set_discard].
  - intros q. destruct (String.eqb_spec q p) as [->|Hne].
    + rewrite od_get_set_same.
      destruct (field_state.is_modified fs') eqn:E.
      * rewrite in_set_add. split; [reflexivity | now left].
      * rewrite in_set_discard. split; [intros [H _]; now elim H | discriminate].
    + rewrite od_get_set_other by exact Hne. rewrite <- Hiff.
      destruct (field_state.is_modified fs').
      * rewrite in_set_add. split; [intros [H|H]; [contradiction | exact H] | now right].
      * rewrite in_set_discard. split; [now intros [_ H] | now split].
Qed.

Lemma modified_fields_after_update (m : ConfigurationModel) (p : string)
  (v : pyval) (e : event) :
  _modified_fields (_notify_observers (_update_config_data m p v) e)
  = _modified_fields m.
Proof.
  unfold _notify_observers, _update_config_data.
  destruct (startswith "ini." p); reflexivity.
Qed.

Lemma tracked_set_field_value (m m' : ConfigurationModel) (p : string)
  (v : pyval) (now : Z) (b : bool) :
  tracked m -> set_field_value m p v now = Ok (m', b) -> tracked m'.
Proof.
  intros Ht. unfold set_field_value.
  destruct (od_get p (field_states m)) as [fs|]; [|now intros [= <- _]].
  destruct (_convert_value_to_type v (field_state.original_value fs))
    as [converted|e]; simpl; [|discriminate].
  destruct (field_state.set_value fs converted now) as [changed fs'].
  destruct changed; [|now intros [= <- _]].
  intros [= <- _].
  eapply tracked_store with (p := p) (fs' := fs'); [exact Ht | |].
  - now rewrite field_states_after_update.
  - now rewrite modified_fields_after_update.
Qed.

Lemma tracked_revert_field (m : ConfigurationModel) (p : string) :
  tracked m -> tracked (fst (revert_field m p)).
Proof.
  intros Ht. unfold revert_field.
  destruct (od_get p (field_states m)) as [fs|]; [|exact Ht].
  unfold field_state.revert.
  destruct (field_state.is_modified fs); simpl; [|exact Ht].
  eapply tracked_store with (p := p); [exact Ht | |].
  - now rewrite field_states_after_update.
  - now rewrite modified_fields_after_update.
Qed.

Lemma tracked_revert_loop (l : list string) (acc : ConfigurationModel * nat) :
  tracked (fst acc) ->
  tracked
    (fst (fold_left
            (fun acc field_path =>
               let (m, ok) := revert_field (fst acc) field_path in
               (m, if ok then S (snd acc) else snd acc))
            l acc)).
Proof.
  revert acc. induction l as [|p l IH]; intros acc Ht; simpl; [exact Ht|].
  apply IH. pose proof (tracked_revert_field (fst acc) p Ht) as H.
  destruct (revert_field (fst acc) p) as [m ok]. exact H.
Qed.

Lemma tracked_revert_all_changes (m : ConfigurationModel) :
  tracked m -> tracked (fst (revert_all_changes m)).
Proof.
  intros Ht. unfold revert_all_changes.
  pose proof (tracked_revert_loop (_modified_fields m) (m, 0) Ht) as H.
  destruct (fold_left _ (_modified_fields m) (m, 0)) as [m1 n].
  simpl in *. destruct (Nat.ltb 0 n); [|exact H].
  eapply tracked_ext; [| |exact H]; reflexivity.
Qed.

(** After the loop of [apply_changes] over a tracked set no state is
    flagged. *)
Lemma promoted_states_unmodified (m : ConfigurationModel) (p : string) :
  tracked m ->
  match od_get p (fold_left promote (_modified_fields m) (field_states m)) with
  | Some fs => field_state.is_modified fs
  | None => false
  end = false.
Proof.
  intros [_ Hiff]. rewrite fold_promote_get.
  destruct (existsb (String.eqb p) (_modified_fields m)) eqn:E.
  - destruct (od_get p (field_states m)); reflexivity.
  - specialize (Hiff p). unfold is_field_modified in Hiff.
    destruct (od_get p (field_states m)) as [fs|]; [|reflexivity].
    destruct (field_state.is_modified fs); [|reflexivity].
    exfalso. apply (existsb_eqb_false_not_in _ _ E). now apply Hiff.
Qed.

Lemma tracked_apply_changes (m : ConfigurationModel) (w : World) :
  tracked m -> tracked (model_after (apply_changes m w)).
Proof.
  intros Ht. unfold model_after, apply_changes.
  destruct (match json_config m, json_file_path m with
            | Some c, Some p => json_parser.write_preserving_structure w c p
            | _, _ => (w, true)
            end) as [w1 json_ok].
  destruct json_ok; simpl; [|exact Ht].
  destruct (match ini_config m, ini_file_path m with
            | Some c, Some p => ini_parser.write_preserving_structure w1 c p
            | _, _ => (w1, true)
            end) as [w2 ini_ok].
  destruct ini_ok; simpl; [|exact Ht].
  split; simpl; [constructor|].
  intros p. unfold is_field_modified. simpl.
  rewrite (promoted_states_unmodified m p Ht). split; [intros [] | discriminate].
Qed.

Lemma initial_states_unmodified (json_cfg ini_cfg : option ConfigData)
  (x : string * field_state.FieldState) :
  In x (initial_field_states json_cfg ini_cfg) ->
  field_state.is_modified (snd x) = false.
Proof.
  unfold initial_field_states.
  set (P := fun st : odict field_state.FieldState =>
              forall x, In x st -> field_state.is_modified (snd x) = false).
  assert (P (fold_left
               (fun st kv =>
                  od_set ("ini." ++ fst kv)
                    (field_state.new_FieldState (value (snd kv))) st)
               (config_fields ini_cfg)
               (fold_left
                  (fun st kv =>
                     od_set (fst kv)
                       (field_state.new_FieldState (value (snd kv))) st)
                  (config_fields json_cfg) []))) as H.
  { apply fold_left_invariant.
    - intros st kv Hst y Hy. apply in_od_set in Hy.
      destruct Hy as [->|Hy]; [reflexivity | now apply Hst].
    - apply fold_left_invariant.
      + intros st kv Hst y Hy. apply in_od_set in Hy.
        destruct Hy as [->|Hy]; [reflexivity | now apply Hst].
      + intros y []. }
  intros Hx. exact (H x Hx).
Qed.

Lemma tracked_load_configuration (m : ConfigurationModel) (w : World)
  (json_path ini_path : string) :
  tracked m ->
  tracked (snd (fst (load_configuration m w json_path ini_path))).
Proof.
  intros Ht. unfold load_configuration.
  destruct (json_parser.parse_file w json_path) as [w1 [jc|e]]; simpl;
    [|exact Ht].
  destruct (ini_parser.parse_file w1 ini_path) as [ic|e]; simpl.
  - split; simpl; [constructor|].
    intros p. unfold is_field_modified. simpl.
    destruct (od_get p (initial_field_states (Some jc) (Some ic)))
      as [fs|] eqn:E.
    + apply od_get_in in E. apply initial_states_unmodified in E.
      simpl in E. rewrite E. split; [intros [] | discriminate].
    + split; [intros [] | discriminate].
  - eapply tracked_ext; [| |exact Ht]; reflexivity.
Qed.

Lemma tracked_perform (s : World * ConfigurationModel) (c : model_call) :
  tracked (snd s) -> tracked (snd (model_perform s c)).
Proof.
  intros Ht. destruct c; simpl.
  - now apply tracked_load_configuration.
  - destruct (set_field_value (snd s) field_path v now) as [[m b]|e] eqn:E;
      [|exact Ht].
    simpl. eapply tracked_set_field_value; [exact Ht | exact E].
  - now apply tracked_revert_field.
  - now apply tracked_revert_all_changes.
  - now apply tracked_apply_changes.
Qed.

Lemma tracked_history (w : World) (calls : list model_call) :
  tracked (snd (model_history w calls)).
Proof.
  unfold model_history.
  apply (fold_left_invariant (fun s => tracked (snd s))).
  - intros s c. apply tracked_perform.
  - split; simpl; [constructor|].
    intros p. split; [intros [] | discriminate].
Qed.

(** X3 (ConfigurationModel): whatever calls are made on a new model, loads
    that fail and saves that fail included, the set of modified paths holds
    no path twice and holds exactly the paths whose field is flagged as
    modified; so [has_changes] tells whether some field is flagged. *)
Theorem modified_set_tracks_flags (w : World) (calls : list model_call) :
  let m := snd (model_history w calls) in
  NoDup (get_modified_fields m)
  /\ (forall p, In p (get_modified_fields m) <-> is_field_modified m p = true)
  /\ (has_changes m = true <-> exists p, is_field_modified m p = true).
Proof.
  intros m. destruct (tracked_history w calls) as [Hnd Hiff]. fold m in Hnd, Hiff.
  unfold get_modified_fields. split; [exact Hnd|]. split; [exact Hiff|].
  unfold has_changes. destruct (_modified_fields m) as [|p l] eqn:E; simpl.
  - split; [discriminate|]. intros [p Hp]. apply Hiff in Hp. destruct Hp.
  - split; [|reflexivity]. intros _. exists p. apply Hiff. now left.
Qed.

(** ** The model: reverting *)

Lemma revert_field_modified (m : ConfigurationModel) (p : string) :
  is_field_modified m p = true ->
  exists fs,
    od_get p (field_states m) = Some fs
    /\ field_state.is_modified fs = true
    /\ snd (revert_field m p) = true
    /\ field_states (fst (revert_field m p))
       = od_set p (snd (field_state.revert fs)) (field_states m)
    /\ _modified_fields (fst (revert_field m p))
       = set_discard p (_modified_fields m).
Proof.
  unfold is_field_modified, revert_field.
  destruct (od_get p (field_states m)) as [fs|]; [|discriminate].
  intros E. exists fs. unfold field_state.revert. rewrite E. simpl.
  unfold _update_config_data.
  destruct (startswith "ini." p); repeat split; reflexivity.
Qed.

Lemma revert_field_unmodified (m : ConfigurationModel) (p : string) :
  is_field_modified m p = false -> revert_field m p = (m, false).
Proof.
  unfold is_field_modified, revert_field.
  destruct (od_get p (field_states m)) as [fs|]; [|reflexivity].
  intros E. unfold field_state.revert. rewrite E. reflexivity.
Qed.

Lemma existsb_eqb_true_in (x : string) (l : list string) :
  existsb (String.eqb x) l = true -> In x l.
Proof.
  intros H. apply existsb_exists in H. destruct H as (y & Hy & E).
  apply String.eqb_eq in E. now subst y.
Qed.

Lemma in_existsb_eqb (x : string) (l : list string) :
  In x l -> existsb (String.eqb x) l = true.
Proof.
  intros H. apply existsb_exists. exists x. split; [exact H|].
  apply String.eqb_refl.
Qed.

(** The loop of [revert_all_changes] over a list of flagged paths that
    covers the set. *)
Lemma revert_loop_spec (rest : list string) (m0 : ConfigurationModel)
  (n0 : nat) :
  NoDup rest ->
  (forall p, In p rest -> is_field_modified m0 p = true) ->
  (forall q, In q (_modified_fields m0) -> In q rest) ->
  let r :=
    fold_left
      (fun acc field_path =>
         let (m, ok) := revert_field (fst acc) field_path in
         (m, if ok then S (snd acc) else snd acc))
      rest (m0, n0) in
  snd r = n0 + List.length rest
  /\ _modified_fields (fst r) = []
  /\ forall p,
       od_get p (field_states (fst r))
       = if existsb (String.eqb p) rest
         then option_map (fun fs => snd (field_state.revert fs))
                (od_get p (field_states m0))
         else od_get p (field_states m0).
Proof.
  revert m0 n0. induction rest as [|k rest IH]; intros m0 n0 Hnd Hmod Hsub.
  - simpl. split; [now rewrite Nat.add_0_r|]. split; [|reflexivity].
    destruct (_modified_fields m0) as [|q l]; [reflexivity|].
    destruct (Hsub q). now left.
  - inversion Hnd as [|k' rest' Hk Hnd']; subst.
    destruct (revert_field_modified m0 k (Hmod k (or_introl eq_refl)))
      as (fs & Hget & Hfs & Hok & Hst & Hms).
    cbn [fold_left]. cbn [fst snd].
    destruct (revert_field m0 k) as [m1 ok] eqn:E. simpl in Hok, Hst, Hms.
    subst ok. cbn [fst snd].
    assert (forall p, In p rest -> is_field_modified m1 p = true) as Hmod1.
    { intros p Hp. unfold is_field_modified. rewrite Hst.
      rewrite od_get_set_other by (intros ->; contradiction).
      apply (Hmod p). now right. }
    assert (forall q, In q (_modified_fields m1) -> In q rest) as Hsub1.
    { intros q Hq. rewrite Hms in Hq. apply in_set_discard in Hq.
      destruct Hq as [Hne Hq]. destruct (Hsub q Hq) as [->|H];
        [contradiction | exact H]. }
    destruct (IH m1 (S n0) Hnd' Hmod1 Hsub1) as (Hn & Hempty & Hstates).
    split; [rewrite Hn; simpl; lia|]. split; [exact Hempty|].
    intros p. rewrite Hstates, Hst. simpl.
    destruct (String.eqb_spec p k) as [->|Hne]; simpl.
    + rewrite od_get_set_same, Hget.
      destruct (existsb (String.eqb k) rest) eqn:Ek; [|reflexivity].
      elim Hk. now apply existsb_eqb_true_in.
    + now rewrite od_get_set_other by exact Hne.
Qed.

(** X4 (ConfigurationModel.revert_all_changes): in every state a model can
    reach, [revert_all_changes] returns the number of modified fields,
    leaves the set of modified paths empty and no field flagged, gives every
    field that was modified its original value back and leaves the value of
    every other field alone. *)
Theorem revert_all_changes_reverts_every_field (w : World)
  (calls : list model_call) :
  let m := snd (model_history w calls) in
  let r := revert_all_changes m in
  snd r = change_count m
  /\ get_modified_fields (fst r) = []
  /\ (forall p, is_field_modified (fst r) p = false)
  /\ (forall p, is_field_modified m p = true ->
                get_field_value (fst r) p = original_of m p)
  /\ (forall p, is_field_modified m p = false ->
                get_field_value (fst r) p = get_field_value m p).
Proof.
  intros m r. destruct (tracked_history w calls) as [Hnd Hiff].
  fold m in Hnd, Hiff.
  pose proof (revert_loop_spec (_modified_fields m) m 0 Hnd
                (fun p Hp => proj1 (Hiff p) Hp) (fun q Hq => Hq))
    as (Hn & Hempty & Hstates).
  assert (_modified_fields (fst r) = []
          /\ field_states (fst r)
             = field_states
                 (fst (fold_left
                         (fun acc field_path =>
                            let (m, ok) := revert_field (fst acc) field_path in
                            (m, if ok then S (snd acc) else snd acc))
                         (_modified_fields m) (m, 0)))
          /\ snd r = List.length (_modified_fields m)) as (Hm & Hs & Hc).
  { subst r. unfold revert_all_changes.
    destruct (fold_left _ (_modified_fields m) (m, 0)) as [m1 n].
    simpl in *. destruct (Nat.ltb 0 n); simpl; repeat split; assumption. }
  assert (forall p,
            od_get p (field_states (fst r))
            = if is_field_modified m p
              then option_map (fun fs => snd (field_state.revert fs))
                     (od_get p (field_states m))
              else od_get p (field_states m)) as Hget.
  { intros p. rewrite Hs, Hstates.
    destruct (existsb (String.eqb p) (_modified_fields m)) eqn:E.
    - apply existsb_eqb_true_in in E. apply Hiff in E. now rewrite E.
    - destruct (is_field_modified m p) eqn:E'; [|reflexivity].
      apply Hiff in E'. apply in_existsb_eqb in E'. congruence. }
  split; [exact Hc|]. split; [exact Hm|].
  split; [|split].
  - intros p. unfold is_field_modified at 1. rewrite Hget.
    destruct (is_field_modified m p) eqn:E.
    + unfold is_field_modified in E.
      destruct (od_get p (field_states m)) as [fs|]; [|reflexivity].
      simpl. unfold field_state.revert. rewrite E. reflexivity.
    + exact E.
  - intros p E. unfold get_field_value, original_of. rewrite Hget, E.
    unfold is_field_modified in E.
    destruct (od_get p (field_states m)) as [fs|]; [|reflexivity].
    simpl. unfold field_state.revert. rewrite E. reflexivity.
  - intros p E. unfold get_field_value. now rewrite Hget, E.
Qed.

Lemma apply_changes_unmodified (m : ConfigurationModel) (w : World)
  (p : string) :
  tracked m ->
  success (apply_changes m w) = true ->
  _modified_fields (model_after (apply_changes m w)) = []
  /\ is_field_modified (model_after (apply_changes m w)) p = false
  /\ get_field_value (model_after (apply_changes m w)) p = get_field_value m p.
Proof.
  intros Ht. unfold success, model_after, apply_changes.
  destruct (match json_config m, json_file_path m with
            | Some c, Some p => json_parser.write_preserving_structure w c p
            | _, _ => (w, true)
            end) as [w1 json_ok].
  destruct json_ok; simpl; [|discriminate].
  destruct (match ini_config m, ini_file_path m with
            | Some c, Some p => ini_parser.write_preserving_structure w1 c p
            | _, _ => (w1, true)
            end) as [w2 ini_ok].
  destruct ini_ok; simpl; [|discriminate].
  intros _. split; [reflexivity|]. split.
  - unfold is_field_modified. simpl. now apply promoted_states_unmodified.
  - unfold get_field_value. simpl. rewrite fold_promote_get.
    destruct (existsb (String.eqb p) (_modified_fields m));
      [|reflexivity].
    destruct (od_get p (field_states m)); reflexivity.
Qed.

(** X5 (ConfigurationModel.apply_changes, revert_field, revert_all_changes):
    in every state a model can reach, a save that succeeds keeps the value
    of every field and leaves nothing to revert: no field is flagged, the
    count of changes is 0, [revert_field] returns False on every path and
    [revert_all_changes] returns 0, both without changing the model. *)
Theorem nothing_to_revert_after_apply (w : World) (calls : list model_call) :
  let s := model_history w calls in
  let r := apply_changes (snd s) (fst s) in
  success r = true ->
  change_count (model_after r) = 0
  /\ (forall p, get_field_value (model_after r) p = get_field_value (snd s) p)
  /\ (forall p, is_field_modified (model_after r) p = false)
  /\ (forall p, revert_field (model_after r) p = (model_after r, false))
  /\ revert_all_changes (model_after r) = (model_after r, 0).
Proof.
  intros s r Hok. pose proof (tracked_history w calls) as Ht. fold s in Ht.
  pose proof (fun p => apply_changes_unmodified (snd s) (fst s) p Ht Hok) as H.
  fold r in H.
  assert (_modified_fields (model_after r) = []) as Hm
    by exact (proj1 (H EmptyString)).
  split; [unfold change_count; now rewrite Hm|].
  split; [intros p; apply (H p)|].
  split; [intros p; apply (H p)|].
  split.
  - intros p. apply revert_field_unmodified. apply (H p).
  - unfold revert_all_changes. rewrite Hm. reflexivity.
Qed.

(** The sample files loaded and one field edited: the save succeeds, and
    the edited field cannot be reverted any more. *)
Lemma nothing_to_revert_after_apply_witness :
  success (apply_changes (snd (model_history sample_world sample_calls))
             (fst (model_history sample_world sample_calls))) = true
  /\ is_field_modified (snd (model_history sample_world sample_calls))
       "Graphics.Quality" = true
  /\ revert_field
       (model_after
          (apply_changes (snd (model_history sample_world sample_calls))
             (fst (model_history sample_world sample_calls))))
       "Graphics.Quality"
     = (model_after
          (apply_changes (snd (model_history sample_world sample_calls))
             (fst (model_history sample_world sample_calls))),
        false).
Proof.
  assert (success
            (apply_changes (snd (model_history sample_world sample_calls))
               (fst (model_history sample_world sample_calls))) = true) as Hok
    by (vm_compute; reflexivity).
  split; [exact Hok|]. split; [vm_compute; reflexivity|].
  destruct (nothing_to_revert_after_apply sample_world sample_calls Hok)
    as (_ & _ & _ & Hrev & _).
  exact (Hrev "Graphics.Quality").
Defined.

(** ** The fields of a settings document are its leaves *)

(** Induction on a value through the members of its dictionaries. *)
Lemma pyval_dict_ind (P : pyval -> Prop) :
  (forall v, is_dict v = false -> P v) ->
  (forall d, Forall (fun kv => P (snd kv)) d -> P (VDict d)) ->
  forall v, P v.
Proof.
  intros Hleaf Hdict. fix IH 1. intros v.
  destruct v as [ | b | n | fl | s | l | l | d ];
    try (apply Hleaf; reflexivity).
  apply Hdict.
  induction d as [|[k x] d IHd]; constructor; [apply IH | exact IHd].
Qed.

Lemma in_keys_od_set {V : Type} (k : string) (v : V) (d : odict V)
  (x : string) :
  In x (map fst (od_set k v d)) -> x = k \/ In x (map fst d).
Proof.
  intros H. apply in_map_iff in H. destruct H as ([k' v'] & <- & Hin).
  apply in_od_set in Hin. destruct Hin as [[= -> ->]|Hin]; [now left|].
  right. apply in_map_iff. exists (k', v'). now split.
Qed.

Lemma NoDup_keys_od_set {V : Type} (k : string) (v : V) (d : odict V) :
  NoDup (map fst d) -> NoDup (map fst (od_set k v d)).
Proof.
  induction d as [|[k' v'] d IH]; simpl; intros H.
  - constructor; [intros [] | constructor].
  - inversion H as [|a l Hk Hd]; subst.
    destruct (String.eqb_spec k k') as [->|Hne]; simpl.
    + now constructor.
    + constructor; [|now apply IH].
      intros Hin. apply in_keys_od_set in Hin.
      destruct Hin as [->|Hin]; [now elim Hne | contradiction].
Qed.

(** A table filled by assignments only holds no key twice. *)
Lemma NoDup_keys_fold_od_set {A V : Type} (f : A -> string) (g : A -> V)
  (l : list A) (acc : odict V) :
  NoDup (map fst acc) ->
  NoDup (map fst (fold_left (fun d a => od_set (f a) (g a) d) l acc)).
Proof.
  apply (fold_left_invariant (fun d => NoDup (map fst d))).
  intros d a. apply NoDup_keys_od_set.
Qed.

Lemma hierarchy_step_keys (descs : odict string) (parent_path : string)
  (fs : odict FieldInfo) (item : string * pyval) :
  NoDup (map fst fs) ->
  NoDup (map fst (hierarchy_step descs parent_path fs item)).
Proof.
  intros H. unfold hierarchy_step.
  destruct (snd item);
    try (now apply NoDup_keys_od_set).
  now apply (NoDup_keys_fold_od_set fst
               (fun nested => set_category (snd nested) (fst item))).
Qed.

Lemma hierarchy_of_keys (v : pyval) (descs : odict string)
  (parent_path : string) :
  NoDup (map fst (hierarchy_of v descs parent_path)).
Proof.
  destruct v as [ | b | n | fl | s | l | l | d ]; try constructor.
  rewrite hierarchy_of_dict.
  apply (fold_left_invariant (fun fs => NoDup (map fst fs))).
  - intros fs item. apply hierarchy_step_keys.
  - constructor.
Qed.

Lemma leaf_entry_below (items : odict pyval) (key : string) (v : pyval)
  (parent_path : string) (p : string) (f0 : FieldInfo) :
  In (key, v) items ->
  leaf_entry v (child_path parent_path key) (p, f0) ->
  leaf_entry (VDict items) parent_path (p, set_category f0 key).
Proof.
  intros Hin (Hp & Ho & Ht & Hd & keys & Hk & Hpath). simpl in *.
  repeat split; try assumption.
  exists (key :: keys). split; [now apply holds_below with v | exact Hpath].
Qed.

Lemma leaf_entry_here (items : odict pyval) (key : string) (v : pyval)
  (parent_path d c : string) :
  In (key, v) items ->
  is_dict v = false ->
  leaf_entry (VDict items) parent_path
    (child_path parent_path key,
     new_FieldInfo (child_path parent_path key) v d (preserve_types v) c).
Proof.
  intros Hin Hd. repeat split; try assumption.
  exists [key]. split; [now apply holds_here | reflexivity].
Qed.

Lemma leaf_entries_loop (d : odict pyval) (descs : odict string)
  (parent_path : string) (items : odict pyval) (acc : odict FieldInfo) :
  Forall
    (fun kv =>
       forall parent x,
         In x (hierarchy_of (snd kv) descs parent) ->
         leaf_entry (snd kv) parent x) d ->
  incl items d ->
  (forall x, In x acc -> leaf_entry (VDict d) parent_path x) ->
  forall x,
    In x (fold_left (hierarchy_step descs parent_path) items acc) ->
    leaf_entry (VDict d) parent_path x.
Proof.
  intros Hall. revert acc.
  induction items as [|[key v] items IH]; intros acc Hincl Hacc x;
    [apply Hacc|].
  cbn [fold_left]. apply IH.
  - intros y Hy. apply Hincl. now right.
  - clear x. intros x Hx.
    assert (Hin : In (key, v) d) by (apply Hincl; now left).
    unfold hierarchy_step in Hx. cbn [fst snd] in Hx.
    destruct v as [ | b | n | fl | s | l | l | d' ];
      try (apply in_od_set in Hx; destruct Hx as [->|Hx];
           [now apply leaf_entry_here | now apply Hacc]).
    apply in_merge_nested in Hx. destruct Hx as [Hx | (f0 & Hf0 & Heq)];
      [now apply Hacc|].
    rewrite Forall_forall in Hall. specialize (Hall _ Hin). simpl in Hall.
    specialize (Hall _ _ Hf0).
    destruct x as [p f]. simpl in Heq, Hf0. subst f.
    now apply leaf_entry_below with (VDict d').
Qed.

Lemma hierarchy_of_leaves (v : pyval) (descs : odict string) :
  forall parent_path x,
    In x (hierarchy_of v descs parent_path) -> leaf_entry v parent_path x.
Proof.
  induction v as [v Hv | d IH] using pyval_dict_ind; intros parent_path x.
  - destruct v; try discriminate; intros [].
  - rewrite hierarchy_of_dict.
    apply (leaf_entries_loop d descs parent_path d []);
      [exact IH | apply incl_refl | intros y []].
Qed.

(** X6 (JsonWithCommentsParser.build_field_hierarchy): the table built from
    a document holds no path twice, and each of its fields is a leaf of the
    document: some chain of keys, one object inside the other, leads to the
    field's value, which is not an object; the field's path is that chain as
    the code joins it, and the path is stored in the field; the field's
    type is the one [preserve_types] gives its value, and its original value
    is its value. *)
Theorem hierarchy_fields_are_leaves (data : odict pyval)
  (descs : odict string) :
  let fs := build_field_hierarchy data descs EmptyString in
  NoDup (map fst fs)
  /\ forall p f,
       In (p, f) fs ->
       path f = p
       /\ original_value f = value f
       /\ type f = preserve_types (value f)
       /\ is_dict (value f) = false
       /\ type f <> OBJECT
       /\ exists keys,
            holds_at (VDict data) keys (value f)
            /\ p = path_below EmptyString keys.
Proof.
  intros fs. split; [apply hierarchy_of_keys|].
  intros p f Hin.
  destruct (hierarchy_of_leaves (VDict data) descs EmptyString (p, f) Hin)
    as (Hp & Ho & Ht & Hd & Hk).
  simpl in *. repeat split; try assumption.
  rewrite Ht. destruct (value f); try discriminate.
Qed.

(** ** The fields of a configuration file point at their lines *)

Lemma fold_left_invariant_in {A B : Type} (P : A -> Prop) (f : A -> B -> A)
  (l : list B) (a : A) :
  (forall x b, In b l -> P x -> P (f x b)) -> P a -> P (fold_left f l a).
Proof.
  revert a. induction l as [|b l IH]; simpl; intros a Hstep Ha.
  - exact Ha.
  - apply IH.
    + intros x b' Hb. apply Hstep. now right.
    + apply Hstep; [now left | exact Ha].
Qed.

Lemma ini_parse_line_ok (lines : list string) (st st' : ini_parser.pstate)
  (n : nat) (l : string) :
  nth_error lines n = Some l ->
  ini_data_ok lines (ini_parser.data st) ->
  ini_parser.parse_line st n l = Ok st' ->
  ini_data_ok lines (ini_parser.data st').
Proof.
  intros Hn Hst. unfold ini_parser.parse_line.
  destruct (is_empty (strip l)); [now intros [= <-]|].
  destruct (startswith "//" (strip l)); [now intros [= <-]|].
  destruct (ini_parser.section_header (strip l)) as [name|].
  - intros [= <-]. simpl.
    destruct (od_mem name (ini_parser.data st)); [exact Hst|].
    intros sec d key e Hin He. apply in_od_set in Hin.
    destruct Hin as [[= -> ->]|Hin]; [destruct He|].
    exact (Hst _ _ _ _ Hin He).
  - destruct (ini_parser.current_section st) as [sec|]; [|now intros [= <-]].
    destruct (contains "=" (strip l)) eqn:Heq; [|now intros [= <-]].
    destruct (match split_once "//" (strip l) with
              | Some (line_part, comment_part) =>
                  (strip line_part, strip comment_part)
              | None => (strip l, EmptyString)
              end) as [line1 comment].
    destruct (ini_parser.unpack2 "=" line1) as [kv|e]; simpl; [|discriminate].
    intros [= <-]. simpl.
    intros sec' d key e Hin He. apply in_od_set in Hin.
    destruct Hin as [[= -> ->]|Hin]; [|exact (Hst _ _ _ _ Hin He)].
    apply in_od_set in He. destruct He as [[= -> ->]|He].
    + repeat split; simpl; try assumption.
      exists (strip (snd kv)). reflexivity.
    + destruct (od_get sec (ini_parser.data st)) as [d0|] eqn:Eg;
        [|destruct He].
      apply od_get_in in Eg. exact (Hst _ _ _ _ Eg He).
Qed.

Lemma ini_parse_loop_ok (lines pre rest : list string)
  (st st' : ini_parser.pstate) :
  lines = (pre ++ rest)%list ->
  ini_data_ok lines (ini_parser.data st) ->
  ini_parser.parse_loop rest (List.length pre) st = Ok st' ->
  ini_data_ok lines (ini_parser.data st').
Proof.
  revert pre st. induction rest as [|l rest IH]; intros pre st Hl Hst; simpl.
  - now intros [= <-].
  - destruct (ini_parser.parse_line st (List.length pre) l) as [st1|e] eqn:E;
      simpl; [|discriminate].
    intros H. apply (IH (pre ++ [l])%list st1).
    + rewrite <- app_assoc. exact Hl.
    + apply (ini_parse_line_ok lines st st1 (List.length pre) l);
        [|exact Hst | exact E].
      rewrite Hl, nth_error_app2 by lia. now rewrite Nat.sub_diag.
    + rewrite length_app. simpl. now rewrite Nat.add_1_r.
Qed.

Lemma ini_build_field_info_ok (lines : list string)
  (parsed_data : odict (odict ini_parser.entry)) :
  ini_data_ok lines parsed_data ->
  forall x, In x (ini_parser._build_field_info parsed_data) ->
            ini_field_entry lines x.
Proof.
  intros Hd. unfold ini_parser._build_field_info.
  apply (fold_left_invariant_in
           (fun fs : odict FieldInfo =>
              forall x, In x fs -> ini_field_entry lines x)).
  - intros fs section Hsec Hfs.
    apply (fold_left_invariant_in
             (fun fs : odict FieldInfo =>
                forall x, In x fs -> ini_field_entry lines x)).
    + intros fs' kv Hkv Hfs' x Hx. apply in_od_set in Hx.
      destruct Hx as [->|Hx]; [|now apply Hfs'].
      destruct section as [sec d], kv as [key e]. simpl in *.
      destruct (Hd sec d key e Hsec Hkv) as (Hn & Heq & text & Hv).
      exists sec, key, (ini_parser.e_line_number e),
        (ini_parser.e_original_line e), text.
      simpl. repeat split; assumption.
    + exact Hfs.
  - intros x [].
Qed.

(** X7 (IniParser.parse_file, parse_with_comments, _build_field_info): when
    an INI file parses, the document keeps the lines read, its table holds
    no path twice, and every field of it comes from a line of the file: the
    path is a section name, a dot and a key; the category is the section
    name; the value is what [_parse_ini_value] made of some text, the type
    the one [_determine_field_type] gives that value, the original value the
    value itself; and the line number is the index, in the lines read, of
    the line stored with the field, a line with an equals sign. *)
Theorem ini_fields_point_at_their_lines (w : World) (filepath : string)
  (cfg : ConfigData) :
  ini_parser.parse_file w filepath = Ok cfg ->
  read_lines w filepath = Ok (raw_lines cfg)
  /\ NoDup (map fst (fields cfg))
  /\ forall p f, In (p, f) (fields cfg) ->
                 ini_field_entry (raw_lines cfg) (p, f).
Proof.
  unfold ini_parser.parse_file.
  destruct (exists_file w filepath); simpl; [|discriminate].
  destruct (read_lines w filepath) as [lines|e]; simpl; [|discriminate].
  unfold ini_parser.parse_lines, ini_parser.parse_with_comments.
  destruct (ini_parser.parse_loop lines 0 (ini_parser.mkPstate [] None))
    as [st|e] eqn:E; simpl; [|discriminate].
  intros [= <-]. simpl. split; [reflexivity|]. split.
  - unfold ini_parser._build_field_info.
    apply (fold_left_invariant (fun fs : odict FieldInfo => NoDup (map fst fs)));
      [|constructor].
    intros fs section H.
    apply (fold_left_invariant (fun fs : odict FieldInfo => NoDup (map fst fs)));
      [|exact H].
    intros fs' kv. apply NoDup_keys_od_set.
  - intros p f. apply ini_build_field_info_ok.
    apply (ini_parse_loop_ok lines [] lines (ini_parser.mkPstate [] None) st);
      [reflexivity | | exact E].
    intros sec d key e [].
Qed.

(** The sample configuration file: the field [DISPLAY.Width] was read from
    the line its line number gives. *)
Lemma ini_fields_point_at_their_lines_witness :
  ini_parser.parse_file sample_world "Config_DX11.ini" = Ok sample_ini_config
  /\ (forall f,
        In ("DISPLAY.Width", f) (fields sample_ini_config) ->
        ini_field_entry (raw_lines sample_ini_config) ("DISPLAY.Width", f))
  /\ exists f, In ("DISPLAY.Width", f) (fields sample_ini_config).
Proof.
  split; [exact sample_ini_parses|]. split.
  - intros f.
    exact (proj2 (proj2 (ini_fields_point_at_their_lines sample_world
                           "Config_DX11.ini" sample_ini_config
                           sample_ini_parses)) "DISPLAY.Width" f).
  - destruct (od_get "DISPLAY.Width" (fields sample_ini_config)) as [f|] eqn:E.
    + exists f. now apply od_get_in.
    + vm_compute in E. discriminate.
Defined.

(** ** The documents follow the field states *)

Lemma startswith_drop (x s : string) :
  startswith x s = true -> s = x ++ drop (String.length x) s.
Proof.
  unfold startswith. revert s. induction x as [|a x IH]; intros s; simpl.
  - reflexivity.
  - destruct s as [|b s]; [discriminate|].
    simpl. destruct (ascii_dec a b) as [->|]; [|discriminate].
    intros H. f_equal. now apply IH.
Qed.

Lemma startswith_append (x s : string) : startswith x (x ++ s) = true.
Proof.
  unfold startswith. induction x as [|a x IH]; simpl.
  - now destruct s.
  - destruct (ascii_dec a a); [exact IH | contradiction].
Qed.

Lemma drop_append (x s : string) : drop (String.length x) (x ++ s) = s.
Proof. induction x as [|a x IH]; simpl; [reflexivity | exact IH]. Qed.

Lemma append_inj (x s t : string) : x ++ s = x ++ t -> s = t.
Proof.
  induction x as [|a x IH]; simpl; [auto|]. intros [= H]. now apply IH.
Qed.

Lemma od_get_none_not_in {V : Type} (k : string) (d : odict V) :
  od_get k d = None -> ~ In k (map fst d).
Proof.
  induction d as [|[k' v'] d IH]; simpl; [auto|].
  destruct (String.eqb_spec k k') as [->|Hne]; [discriminate|].
  intros H [Heq|Hin]; [now elim Hne | now apply IH].
Qed.

Lemma od_get_unique {V : Type} (k : string) (v : V) (d : odict V) :
  NoDup (map fst d) -> In (k, v) d -> od_get k d = Some v.
Proof.
  induction d as [|[k' v'] d IH]; simpl; [intros _ []|].
  intros Hnd [[= -> ->]|Hin].
  - now rewrite String.eqb_refl.
  - inversion Hnd as [|a l Hk Hd]; subst.
    destruct (String.eqb_spec k k') as [->|Hne]; [|now apply IH].
    elim Hk. apply in_map_iff. exists (k', v). now split.
Qed.

(** A table filled by assignments: a key that is not assigned keeps its
    entry. *)
Lemma fold_od_set_get_other {A V : Type} (f : A -> string) (g : A -> V)
  (l : list A) (acc : odict V) (q : string) :
  (forall a, In a l -> f a <> q) ->
  od_get q (fold_left (fun d a => od_set (f a) (g a) d) l acc) = od_get q acc.
Proof.
  revert acc. induction l as [|a l IH]; intros acc H; simpl; [reflexivity|].
  rewrite IH by (intros b Hb; apply H; now right).
  apply od_get_set_other. intros ->. apply (H a); [now left | reflexivity].
Qed.

(** ... and a key assigned once holds what was assigned. *)
Lemma fold_od_set_get_in {A V : Type} (f : A -> string) (g : A -> V)
  (l : list A) (acc : odict V) (a : A) :
  NoDup (map f l) -> In a l ->
  od_get (f a) (fold_left (fun d a => od_set (f a) (g a) d) l acc)
  = Some (g a).
Proof.
  revert acc. induction l as [|b l IH]; intros acc Hnd Hin; simpl;
    [destruct Hin|].
  inversion Hnd as [|x y Hb Hl]; subst. destruct Hin as [->|Hin].
  - rewrite fold_od_set_get_other; [apply od_get_set_same|].
    intros c Hc Heq. apply Hb. rewrite <- Heq. now apply in_map.
  - now apply IH.
Qed.

Lemma NoDup_map_prefix (x : string) (l : list string) :
  NoDup l -> NoDup (map (fun k => x ++ k) l).
Proof.
  induction 1 as [|k l Hk Hl IH]; simpl; constructor; [|exact IH].
  intros Hin. apply in_map_iff in Hin. destruct Hin as (k' & Heq & Hk').
  apply append_inj in Heq. now subst k'.
Qed.

(** The field states after a load. *)
Lemma initial_field_states_get (jc ic : ConfigData) (q : string) :
  NoDup (map fst (fields jc)) ->
  NoDup (map fst (fields ic)) ->
  (forall p, In p (map fst (fields jc)) -> startswith "ini." p = false) ->
  od_get q (initial_field_states (Some jc) (Some ic))
  = option_map (fun info => field_state.new_FieldState (value info))
      (if startswith "ini." q then od_get (drop 4 q) (fields ic)
       else od_get q (fields jc)).
Proof.
  intros Hj Hi Hpre. unfold initial_field_states. simpl config_fields.
  set (fj := fun kv : string * FieldInfo => fst kv).
  set (fi := fun kv : string * FieldInfo => "ini." ++ fst kv).
  set (g := fun kv : string * FieldInfo =>
              field_state.new_FieldState (value (snd kv))).
  change (od_get q
            (fold_left (fun st kv => od_set (fi kv) (g kv) st) (fields ic)
               (fold_left (fun st kv => od_set (fj kv) (g kv) st)
                  (fields jc) []))
          = option_map (fun info => field_state.new_FieldState (value info))
              (if startswith "ini." q then od_get (drop 4 q) (fields ic)
               else od_get q (fields jc))).
  assert (NoDup (map fi (fields ic))) as Hi'.
  { unfold fi. rewrite <- (map_map fst (fun k => "ini." ++ k)).
    now apply NoDup_map_prefix. }
  destruct (startswith "ini." q) eqn:Eq.
  - pose proof (startswith_drop _ _ Eq) as Hq. simpl String.length in Hq.
    destruct (od_get (drop 4 q) (fields ic)) as [info|] eqn:Eg; simpl.
    + apply od_get_in in Eg.
      pose proof (fold_od_set_get_in fi g (fields ic)
                    (fold_left (fun st kv => od_set (fj kv) (g kv) st)
                       (fields jc) []) _ Hi' Eg) as H.
      unfold fi at 1 in H. cbn [fst] in H. rewrite <- Hq in H. exact H.
    + rewrite fold_od_set_get_other.
      * rewrite fold_od_set_get_other; [reflexivity|].
        intros a Ha Heq. unfold fj in Heq. subst q.
        rewrite (Hpre (fst a)) in Eq; [discriminate | now apply in_map].
      * intros a Ha Heq. unfold fi in Heq.
        apply (od_get_none_not_in _ _ Eg). rewrite <- Heq.
        rewrite (drop_append "ini."). now apply in_map.
  - rewrite fold_od_set_get_other.
    + destruct (od_get q (fields jc)) as [info|] eqn:Eg; simpl.
      * apply od_get_in in Eg.
        exact (fold_od_set_get_in fj g (fields jc) [] _ Hj Eg).
      * rewrite fold_od_set_get_other; [reflexivity|].
        intros a Ha Heq. unfold fj in Heq.
        apply (od_get_none_not_in _ _ Eg). rewrite <- Heq. now apply in_map.
    + intros a Ha Heq. unfold fi in Heq. subst q.
      now rewrite startswith_append in Eq.
Qed.

Lemma json_parse_file_keys (w w1 : World) (p : string) (c : ConfigData) :
  json_parser.parse_file w p = (w1, Ok c) -> NoDup (map fst (fields c)).
Proof.
  unfold json_parser.parse_file.
  destruct (exists_file w p); simpl; [|discriminate].
  destruct (read_lines w p) as [lines|e]; [|discriminate].
  unfold json_parser.parse_lines.
  destruct (json_loads (recursion_depth w) (_remove_comments lines)) as [v|e].
  - destruct v; try discriminate. intros [= _ <-]. simpl.
    apply hierarchy_of_keys.
  - destruct e; try discriminate.
    destruct (write_lines w _ _) as [w' [u|e]]; discriminate.
Qed.

Lemma ini_parse_file_keys (w : World) (p : string) (c : ConfigData) :
  ini_parser.parse_file w p = Ok c -> NoDup (map fst (fields c)).
Proof.
  unfold ini_parser.parse_file.
  destruct (exists_file w p); simpl; [|discriminate].
  destruct (read_lines w p) as [lines|e]; simpl; [|discriminate].
  unfold ini_parser.parse_lines.
  destruct (ini_parser.parse_with_comments lines) as [parsed|e]; simpl;
    [|discriminate].
  intros [= <-]. simpl. unfold ini_parser._build_field_info.
  apply (fold_left_invariant (fun fs : odict FieldInfo => NoDup (map fst fs)));
    [|constructor].
  intros fs section H.
  apply (fold_left_invariant (fun fs : odict FieldInfo => NoDup (map fst fs)));
    [|exact H].
  intros fs' kv. apply NoDup_keys_od_set.
Qed.

Lemma config_fields_update_same (k : string) (v : pyval)
  (c : option ConfigData) :
  od_get k (config_fields (update_field k v c))
  = option_map (fun info => json_parser.set_value info v)
      (od_get k (config_fields c)).
Proof.
  destruct c as [d|]; simpl; [|reflexivity].
  destruct (od_get k (fields d)) as [info|] eqn:E; simpl.
  - apply od_get_set_same.
  - exact E.
Qed.

Lemma config_fields_update_other (k k' : string) (v : pyval)
  (c : option ConfigData) :
  k' <> k ->
  od_get k' (config_fields (update_field k v c)) = od_get k' (config_fields c).
Proof.
  intros Hne. destruct c as [d|]; simpl; [|reflexivity].
  destruct (od_get k (fields d)) as [info|]; simpl; [|reflexivity].
  now apply od_get_set_other.
Qed.

Lemma get_field_info_update_same (m : ConfigurationModel) (p : string)
  (v : pyval) :
  get_field_info (_update_config_data m p v) p
  = option_map (fun info => json_parser.set_value info v) (get_field_info m p).
Proof.
  unfold get_field_info, _update_config_data.
  destruct (startswith "ini." p); simpl; apply config_fields_update_same.
Qed.

Lemma get_field_info_update_other (m : ConfigurationModel) (p q : string)
  (v : pyval) :
  q <> p ->
  get_field_info (_update_config_data m p v) q = get_field_info m q.
Proof.
  intros Hne. unfold get_field_info, _update_config_data.
  destruct (startswith "ini." p) eqn:Ep, (startswith "ini." q) eqn:Eq; simpl;
    try reflexivity.
  - apply config_fields_update_other. intros Heq. apply Hne.
    rewrite (startswith_drop _ _ Ep), (startswith_drop _ _ Eq). simpl.
    now rewrite Heq.
  - now apply config_fields_update_other.
Qed.

Lemma get_field_info_ext (m m' : ConfigurationModel) (p : string) :
  json_config m' = json_config m -> ini_config m' = ini_config m ->
  get_field_info m' p = get_field_info m p.
Proof. intros Hj Hi. unfold get_field_info. now rewrite Hj, Hi. Qed.

(** Storing a state for a known path and its current value in the
    documents keeps the agreement. *)
Lemma agrees_store (m m' : ConfigurationModel) (p : string)
  (fs0 fs' : field_state.FieldState) :
  (forall q, agrees m q) ->
  od_get p (field_states m) = Some fs0 ->
  field_states m' = od_set p fs' (field_states m) ->
  json_config m'
  = json_config (_update_config_data m p (field_state.current_value fs')) ->
  ini_config m'
  = ini_config (_update_config_data m p (field_state.current_value fs')) ->
  forall q, agrees m' q.
Proof.
  intros Hm Hget Hs Hj Hi q. unfold agrees.
  rewrite (get_field_info_ext
             (_update_config_data m p (field_state.current_value fs')) m' q Hj Hi).
  rewrite Hs. destruct (String.eqb_spec q p) as [->|Hne].
  - rewrite od_get_set_same, get_field_info_update_same.
    specialize (Hm p). unfold agrees in Hm. rewrite Hget in Hm.
    destruct (get_field_info m p) as [info|]; [reflexivity | exact Hm].
  - rewrite od_get_set_other by exact Hne.
    rewrite get_field_info_update_other by exact Hne. apply Hm.
Qed.

Lemma configs_after_update (m : ConfigurationModel)
  (st : odict field_state.FieldState) (mods : list string) (p : string)
  (v : pyval) (e : event) :
  json_config (_notify_observers (_update_config_data (with_states m st mods) p v) e)
  = json_config (_update_config_data m p v)
  /\ ini_config (_notify_observers (_update_config_data (with_states m st mods) p v) e)
     = ini_config (_update_config_data m p v).
Proof.
  unfold _notify_observers, _update_config_data, with_states.
  destruct (startswith "ini." p); split; reflexivity.
Qed.

Lemma agrees_set_field_value (m m' : ConfigurationModel) (p : string)
  (v : pyval) (now : Z) (b : bool) :
  (forall q, agrees m q) ->
  set_field_value m p v now = Ok (m', b) ->
  forall q, agrees m' q.
Proof.
  intros Hm. unfold set_field_value.
  destruct (od_get p (field_states m)) as [fs|] eqn:Hget;
    [|now intros [= <- _]].
  destruct (_convert_value_to_type v (field_state.original_value fs))
    as [converted|e]; simpl; [|discriminate].
  unfold field_state.set_value.
  destruct (py_eq converted (field_state.current_value fs));
    [now intros [= <- _]|].
  intros [= <- _].
  match goal with
  | |- forall q, agrees (_notify_observers
                           (_update_config_data (with_states m (od_set p ?s _) ?l) p ?c) ?e) q =>
      apply (agrees_store m _ p fs s Hm Hget);
        [now rewrite field_states_after_update
        | apply (configs_after_update m (od_set p s (field_states m)) l p c e)
        | apply (configs_after_update m (od_set p s (field_states m)) l p c e)]
  end.
Qed.

Lemma agrees_revert_field (m : ConfigurationModel) (p : string) :
  (forall q, agrees m q) -> forall q, agrees (fst (revert_field m p)) q.
Proof.
  intros Hm. unfold revert_field.
  destruct (od_get p (field_states m)) as [fs|] eqn:Hget; [|exact Hm].
  unfold field_state.revert.
  destruct (field_state.is_modified fs); simpl; [|exact Hm].
  match goal with
  | |- forall q, agrees (_notify_observers
                           (_update_config_data (with_states m (od_set p ?s _) ?l) p ?c) ?e) q =>
      apply (agrees_store m _ p fs s Hm Hget);
        [now rewrite field_states_after_update
        | apply (configs_after_update m (od_set p s (field_states m)) l p c e)
        | apply (configs_after_update m (od_set p s (field_states m)) l p c e)]
  end.
Qed.

Lemma agrees_revert_all_changes (m : ConfigurationModel) :
  (forall q, agrees m q) -> forall q, agrees (fst (revert_all_changes m)) q.
Proof.
  intros Hm. unfold revert_all_changes.
  assert (forall q,
            agrees
              (fst (fold_left
                      (fun acc field_path =>
                         let (m, ok) := revert_field (fst acc) field_path in
                         (m, if ok then S (snd acc) else snd acc))
                      (_modified_fields m) (m, 0))) q) as H.
  { apply (fold_left_invariant
             (fun acc : ConfigurationModel * nat => forall q, agrees (fst acc) q));
      [|exact Hm].
    intros acc p Hacc. pose proof (agrees_revert_field (fst acc) p Hacc) as H.
    destruct (revert_field (fst acc) p) as [m1 ok]. exact H. }
  destruct (fold_left _ (_modified_fields m) (m, 0)) as [m1 n].
  simpl in *. destruct (Nat.ltb 0 n); exact H.
Qed.

Lemma agrees_apply_changes (m : ConfigurationModel) (w : World) :
  (forall q, agrees m q) ->
  forall q, agrees (model_after (apply_changes m w)) q.
Proof.
  intros Hm. unfold model_after, apply_changes.
  destruct (match json_config m, json_file_path m with
            | Some c, Some p => json_parser.write_preserving_structure w c p
            | _, _ => (w, true)
            end) as [w1 json_ok].
  destruct json_ok; simpl; [|exact Hm].
  destruct (match ini_config m, ini_file_path m with
            | Some c, Some p => ini_parser.write_preserving_structure w1 c p
            | _, _ => (w1, true)
            end) as [w2 ini_ok].
  destruct ini_ok; simpl; [|exact Hm].
  intros q. specialize (Hm q). unfold agrees in *. simpl.
  unfold get_field_info in *. simpl. rewrite fold_promote_get.
  destruct (existsb (String.eqb q) (_modified_fields m)); [|exact Hm].
  destruct (od_get q (field_states m)) as [fs|]; exact Hm.
Qed.

Lemma agrees_load_configuration (m0 : ConfigurationModel) (w : World)
  (json_path ini_path : string) :
  let loaded := load_configuration m0 w json_path ini_path in
  snd loaded = true ->
  (forall p,
     In p (map fst (config_fields (json_config (snd (fst loaded))))) ->
     startswith "ini." p = false) ->
  forall q, agrees (snd (fst loaded)) q.
Proof.
  unfold load_configuration.
  destruct (json_parser.parse_file w json_path) as [w1 [jc|e]] eqn:Ej; simpl;
    [|discriminate].
  destruct (ini_parser.parse_file w1 ini_path) as [ic|e] eqn:Ei; simpl;
    [|discriminate].
  intros _ Hpre q. unfold agrees, get_field_info.
  cbn -[drop initial_field_states startswith].
  rewrite (initial_field_states_get jc ic q
             (json_parse_file_keys _ _ _ _ Ej) (ini_parse_file_keys _ _ _ Ei)
             Hpre).
  destruct (startswith "ini." q).
  - destruct (od_get (drop 4 q) (fields ic)); simpl; [reflexivity | exact I].
  - destruct (od_get q (fields jc)); simpl; [reflexivity | exact I].
Qed.

Lemma agrees_edits (calls : list model_call) (s : World * ConfigurationModel) :
  existsb is_load calls = false ->
  (forall q, agrees (snd s) q) ->
  forall q, agrees (snd (fold_left model_perform calls s)) q.
Proof.
  revert s. induction calls as [|c calls IH]; intros s Hc Hs; simpl;
    [exact Hs|].
  simpl in Hc. apply Bool.orb_false_elim in Hc. destruct Hc as [Hc Hcs].
  apply IH; [exact Hcs|].
  destruct c; simpl in *; try discriminate.
  - destruct (set_field_value (snd s) field_path v now) as [[m b]|e] eqn:E;
      [|exact Hs].
    simpl. eapply agrees_set_field_value; [exact Hs | exact E].
  - now apply agrees_revert_field.
  - now apply agrees_revert_all_changes.
  - now apply agrees_apply_changes.
Qed.

(** X8 (ConfigurationModel: _initialize_field_states, set_field_value,
    _update_config_data, revert_field, revert_all_changes, apply_changes,
    get_field_info): after a load that succeeds on files in which no
    settings path starts with the prefix kept for the INI fields, whatever
    edits, reverts and saves follow, the model knows exactly the fields of
    the two documents, and the value a document holds for a field is the
    current value of its field state: what will be written is what the
    model shows. *)
Theorem documents_follow_field_states (m0 : ConfigurationModel) (w : World)
  (json_path ini_path : string) (calls : list model_call) :
  let loaded := load_configuration m0 w json_path ini_path in
  snd loaded = true ->
  (forall p,
     In p (map fst (config_fields (json_config (snd (fst loaded))))) ->
     startswith "ini." p = false) ->
  existsb is_load calls = false ->
  let m := snd (fold_left model_perform calls (fst loaded)) in
  forall p,
    match od_get p (field_states m), get_field_info m p with
    | Some fs, Some info => value info = get_field_value m p
    | None, None => True
    | _, _ => False
    end.
Proof.
  intros loaded Hok Hpre Hcalls m p.
  pose proof (agrees_edits calls (fst loaded) Hcalls
                (agrees_load_configuration m0 w json_path ini_path Hok Hpre) p)
    as H.
  fold m in H. unfold agrees in H. unfold get_field_value.
  destruct (od_get p (field_states m)) as [fs|]; exact H.
Qed.

(** The sample files: after the edits the settings document holds 3 for
    [Graphics.Quality], the value the model shows. *)
Lemma documents_follow_field_states_witness :
  snd (load_configuration new_model sample_world
         "settings.json" "Config_DX11.ini") = true
  /\ existsb is_load edit_calls = false
  /\ get_field_value
       (snd (fold_left model_perform edit_calls
               (fst (load_configuration new_model sample_world
                       "settings.json" "Config_DX11.ini"))))
       "Graphics.Quality" = VInt 3
  /\ match
       od_get "Graphics.Quality"
         (field_states
            (snd (fold_left model_perform edit_calls
                    (fst (load_configuration new_model sample_world
                            "settings.json" "Config_DX11.ini"))))),
       get_field_info
         (snd (fold_left model_perform edit_calls
                 (fst (load_configuration new_model sample_world
                         "settings.json" "Config_DX11.ini"))))
         "Graphics.Quality"
     with
     | Some fs, Some info =>
         value info
         = get_field_value
             (snd (fold_left model_perform edit_calls
                     (fst (load_configuration new_model sample_world
                             "settings.json" "Config_DX11.ini"))))
             "Graphics.Quality"
     | None, None => True
     | _, _ => False
     end.
Proof.
  split; [vm_compute; reflexivity|]. split; [reflexivity|].
  split; [vm_compute; reflexivity|].
  apply (documents_follow_field_states new_model sample_world
           "settings.json" "Config_DX11.ini" edit_calls).
  - vm_compute. reflexivity.
  - intros p Hp. vm_compute in Hp.
    repeat (destruct Hp as [<-|Hp]; [reflexivity|]). destruct Hp.
  - reflexivity.
Defined.

(** ** Searching the field names *)

Lemma contains_empty (s : string) : contains EmptyString s = true.
Proof. destruct s; reflexivity. Qed.

Lemma filter_all {A : Type} (f : A -> bool) (l : list A) :
  (forall x, In x l -> f x = true) -> filter f l = l.
Proof.
  induction l as [|a l IH]; simpl; intros H; [reflexivity|].
  rewrite (H a) by now left. f_equal. apply IH. intros x Hx. apply H. now right.
Qed.

Lemma filter_none {A : Type} (f : A -> bool) (l : list A) :
  (forall x, In x l -> f x = false) -> filter f l = [].
Proof.
  induction l as [|a l IH]; simpl; intros H; [reflexivity|].
  rewrite (H a) by now left. apply IH. intros x Hx. apply H. now right.
Qed.

(** X9 (ConfigurationModel.search_fields): the empty query matches every
    field: the search returns the paths of the settings document in
    document order, then those of the INI document with their prefix; and
    what any query returns is among them. *)
Theorem search_fields_empty_query (m : ConfigurationModel) :
  search_fields m EmptyString
  = (map fst (config_fields (json_config m))
     ++ map (fun kv => ("ini." ++ fst kv)%string)
         (config_fields (ini_config m)))%list
  /\ forall query p,
       In p (search_fields m query) -> In p (search_fields m EmptyString).
Proof.
  assert (search_fields m EmptyString
          = (map fst (config_fields (json_config m))
             ++ map (fun kv => ("ini." ++ fst kv)%string)
                  (config_fields (ini_config m)))%list) as H.
  { unfold search_fields. simpl lower.
    rewrite !filter_all by (intros; apply contains_empty). reflexivity. }
  split; [exact H|].
  intros query p Hp. rewrite H. unfold search_fields in Hp.
  apply in_app_or in Hp. apply in_or_app.
  destruct Hp as [Hp|Hp]; [left|right];
    apply in_map_iff in Hp; destruct Hp as (kv & <- & Hkv);
    apply filter_In in Hkv; destruct Hkv as [Hkv _];
    apply in_map_iff; exists kv; now split.
Qed.

Lemma lower_char_dot (c : ascii) :
  Ascii.eqb (lower_char c) "." = Ascii.eqb c ".".
Proof. destruct c as [[] [] [] [] [] [] [] []]; reflexivity. Qed.

Lemma contains_dot_cons (a : ascii) (r : string) :
  contains "." (String a r) = Ascii.eqb a "." || contains "." r.
Proof.
  change (contains "." (String a r))
    with (String.prefix "." (String a r) || contains "." r).
  change (String.prefix "." (String a r))
    with (if ascii_dec "." a then String.prefix EmptyString r else false).
  destruct (ascii_dec "." a) as [<-|Hne].
  - destruct r; reflexivity.
  - destruct (Ascii.eqb_spec a "."); [now subst a; elim Hne | reflexivity].
Qed.

Lemma contains_dot_lower (s : string) :
  contains "." (lower s) = contains "." s.
Proof.
  unfold lower. induction s as [|a r IH]; [reflexivity|].
  change (map_string lower_char (String a r))
    with (String (lower_char a) (map_string lower_char r)).
  now rewrite !contains_dot_cons, lower_char_dot, IH.
Qed.

Lemma contains_dot_append (q t : string) :
  contains "." q = true -> contains "." (q ++ t) = true.
Proof.
  induction q as [|a q IH]; [discriminate|].
  change (String a q ++ t) with (String a (q ++ t)).
  rewrite !contains_dot_cons. intros H. apply Bool.orb_true_iff in H.
  apply Bool.orb_true_iff. destruct H as [H|H]; [now left | right; now apply IH].
Qed.

(** A text that holds a text with a dot has a dot. *)
Lemma contains_dot_inside (q s : string) :
  contains "." q = true -> contains q s = true -> contains "." s = true.
Proof.
  intros Hq. induction s as [|a r IH].
  - simpl. rewrite Bool.orb_false_r. intros H.
    pose proof (startswith_drop q EmptyString H) as Heq.
    destruct q; [discriminate Hq | discriminate Heq].
  - intros H. simpl in H. apply Bool.orb_true_iff in H. destruct H as [H|H].
    + rewrite (startswith_drop q (String a r) H).
      now apply contains_dot_append.
    + rewrite contains_dot_cons. apply Bool.orb_true_iff. right. now apply IH.
Qed.

Lemma split_char_no_dot (s : string) :
  Forall (fun part => contains "." part = false) (split_char "." s).
Proof.
  induction s as [|a r IH]; simpl.
  - constructor; [reflexivity | constructor].
  - destruct (Ascii.eqb a ".") eqn:E.
    + constructor; [reflexivity | exact IH].
    + destruct (split_char "." r) as [|p ps].
      * constructor; [|constructor]. rewrite contains_dot_cons, E. reflexivity.
      * inversion IH as [|x l Hp Hps]; subst. constructor; [|exact Hps].
        now rewrite contains_dot_cons, E, Hp.
Qed.

Lemma last_segment_no_dot (p : string) :
  contains "." (last_segment p) = false.
Proof.
  unfold last_segment. pose proof (split_char_no_dot p) as H.
  induction H as [|x l Hx Hl IH]; [reflexivity|].
  destruct l as [|y l]; [exact Hx | exact IH].
Qed.

(** X10 (ConfigurationModel.search_fields): only the last segment of a path
    is searched, so a query with a dot in it finds nothing, the full path
    of a field included. *)
Theorem search_fields_dotted_query (m : ConfigurationModel) (query : string) :
  contains "." query = true -> search_fields m query = [].
Proof.
  intros Hq. unfold search_fields.
  assert (forall p, contains (lower query) (lower (last_segment p)) = false)
    as Hno.
  { intros p. destruct (contains (lower query) (lower (last_segment p))) eqn:E;
      [|reflexivity].
    apply contains_dot_inside in E; [|now rewrite contains_dot_lower].
    rewrite contains_dot_lower, last_segment_no_dot in E. discriminate. }
  rewrite !filter_none by (intros; apply Hno). reflexivity.
Qed.

(** The sample model: the path of a field, entered as a query, finds
    nothing, while the name of the field finds the fields of that name. *)
Lemma search_fields_dotted_query_witness :
  contains "." "Graphics.Quality" = true
  /\ search_fields sample_model "Graphics.Quality" = []
  /\ search_fields sample_model "quality"
     = ["Graphics.Quality"; "Sound.Quality"].
Proof.
  split; [reflexivity|]. split.
  - apply (search_fields_dotted_query sample_model "Graphics.Quality").
    reflexivity.
  - vm_compute. reflexivity.
Defined.

(** ** Comparing two configurations *)

Lemma difference_summary_step (x : Difference) (t a b c d : nat) :
  match d_difference_type x with
  | VALUE_CHANGED => increment "value_changed"
  | TYPE_CHANGED => increment "type_changed"
  | FIELD_ADDED => increment "field_added"
  | FIELD_REMOVED => increment "field_removed"
  end [("total", t); ("value_changed", a); ("type_changed", b);
       ("field_added", c); ("field_removed", d)]
  = [("total", t);
     ("value_changed", a + count_of VALUE_CHANGED [x]);
     ("type_changed", b + count_of TYPE_CHANGED [x]);
     ("field_added", c + count_of FIELD_ADDED [x]);
     ("field_removed", d + count_of FIELD_REMOVED [x])].
Proof.
  unfold count_of. cbn [filter].
  destruct (d_difference_type x); cbn [DifferenceType_eqb List.length];
    rewrite ?Nat.add_0_r, ?Nat.add_1_r; reflexivity.
Qed.

Lemma count_of_cons (t : DifferenceType) (x : Difference)
  (ds : list Difference) :
  count_of t (x :: ds) = count_of t [x] + count_of t ds.
Proof.
  unfold count_of. cbn [filter].
  destruct (DifferenceType_eqb (d_difference_type x) t); reflexivity.
Qed.

Lemma difference_summary_loop (ds : list Difference) (t a b c d : nat) :
  fold_left
    (fun summary diff =>
       match d_difference_type diff with
       | VALUE_CHANGED => increment "value_changed" summary
       | TYPE_CHANGED => increment "type_changed" summary
       | FIELD_ADDED => increment "field_added" summary
       | FIELD_REMOVED => increment "field_removed" summary
       end)
    ds
    [("total", t); ("value_changed", a); ("type_changed", b);
     ("field_added", c); ("field_removed", d)]
  = [("total", t);
     ("value_changed", a + count_of VALUE_CHANGED ds);
     ("type_changed", b + count_of TYPE_CHANGED ds);
     ("field_added", c + count_of FIELD_ADDED ds);
     ("field_removed", d + count_of FIELD_REMOVED ds)].
Proof.
  revert a b c d. induction ds as [|x ds IH]; intros a b c d.
  - unfold count_of. simpl. now rewrite !Nat.add_0_r.
  - cbn [fold_left].
    replace (match d_difference_type x with
             | VALUE_CHANGED =>
                 increment "value_changed"
                   [("total", t); ("value_changed", a); ("type_changed", b);
                    ("field_added", c); ("field_removed", d)]
             | TYPE_CHANGED =>
                 increment "type_changed"
                   [("total", t); ("value_changed", a); ("type_changed", b);
                    ("field_added", c); ("field_removed", d)]
             | FIELD_ADDED =>
                 increment "field_added"
                   [("total", t); ("value_changed", a); ("type_changed", b);
                    ("field_added", c); ("field_removed", d)]
             | FIELD_REMOVED =>
                 increment "field_removed"
                   [("total", t); ("value_changed", a); ("type_changed", b);
                    ("field_added", c); ("field_removed", d)]
             end)
      with [("total", t);
            ("value_changed", a + count_of VALUE_CHANGED [x]);
            ("type_changed", b + count_of TYPE_CHANGED [x]);
            ("field_added", c + count_of FIELD_ADDED [x]);
            ("field_removed", d + count_of FIELD_REMOVED [x])]
      by (rewrite <- difference_summary_step;
          destruct (d_difference_type x); reflexivity).
    rewrite IH, !(count_of_cons _ x ds), !Nat.add_assoc. reflexivity.
Qed.

Lemma count_of_total (ds : list Difference) :
  count_of VALUE_CHANGED ds + count_of TYPE_CHANGED ds
  + count_of FIELD_ADDED ds + count_of FIELD_REMOVED ds
  = List.length ds.
Proof.
  unfold count_of. induction ds as [|x ds IH]; [reflexivity|].
  cbn [filter List.length].
  destruct (d_difference_type x); cbn [DifferenceType_eqb List.length]; lia.
Qed.

(** X11 (ComparisonEngine.get_difference_summary): the summary holds, under
    its five keys, the length of the list and the number of differences of
    each of the four types, and the four numbers add up to the total. *)
Theorem difference_summary_adds_up (differences : list Difference) :
  get_difference_summary differences
  = [("total", List.length differences);
     ("value_changed", count_of VALUE_CHANGED differences);
     ("type_changed", count_of TYPE_CHANGED differences);
     ("field_added", count_of FIELD_ADDED differences);
     ("field_removed", count_of FIELD_REMOVED differences)]
  /\ count_of VALUE_CHANGED differences + count_of TYPE_CHANGED differences
     + count_of FIELD_ADDED differences + count_of FIELD_REMOVED differences
     = List.length differences.
Proof.
  split; [|apply count_of_total].
  unfold get_difference_summary. apply difference_summary_loop.
Qed.

(** Grouping by a key: each group holds, in the order of the list, the
    elements of its key. *)
Lemma group_fold {A B : Type} (key : A -> string) (val : A -> B)
  (l : list A) (acc : odict (list B)) (c : string) :
  od_get c
    (fold_left
       (fun g a =>
          od_set (key a)
            ((match od_get (key a) g with Some old => old | None => [] end)
             ++ [val a])%list g)
       l acc)
  = match od_get c acc with
    | Some old =>
        Some (old ++ map val (filter (fun a => String.eqb (key a) c) l))%list
    | None =>
        match map val (filter (fun a => String.eqb (key a) c) l) with
        | [] => None
        | new => Some new
        end
    end.
Proof.
  revert acc. induction l as [|a l IH]; intros acc.
  - simpl. destruct (od_get c acc) as [old|]; [|reflexivity].
    now rewrite app_nil_r.
  - cbn [fold_left filter]. rewrite IH.
    destruct (String.eqb_spec (key a) c) as [->|Hne].
    + rewrite od_get_set_same. cbn [map].
      destruct (od_get c acc) as [old|].
      * now rewrite <- app_assoc.
      * reflexivity.
    + rewrite od_get_set_other by (intros Heq; now elim Hne).
      reflexivity.
Qed.

(** X12 (ComparisonEngine.categorize_differences): the group of a category
    is the list of the differences of that category, in the order of the
    list; a category without a difference has no group. *)
Theorem categorize_differences_groups (differences : list Difference)
  (c : string) :
  od_get c (categorize_differences differences)
  = match filter (fun d => String.eqb (d_category d) c) differences with
    | [] => None
    | group => Some group
    end.
Proof.
  unfold categorize_differences.
  pose proof (group_fold d_category (fun d => d) differences [] c) as H.
  simpl od_get in H. rewrite map_id in H. exact H.
Qed.

(** X13 (JsonWithCommentsParser._build_categories,
    IniParser._build_categories): the list of a category holds the paths of
    the fields of that category, in the order of the table; a category
    without a field has no list. *)
Theorem build_categories_groups (fs : odict FieldInfo) (c : string) :
  ini_parser._build_categories fs = json_parser._build_categories fs
  /\ od_get c (json_parser._build_categories fs)
     = match map fst (filter (fun x => String.eqb (category (snd x)) c) fs) with
       | [] => None
       | paths => Some paths
       end.
Proof.
  split; [reflexivity|].
  unfold json_parser._build_categories.
  exact (group_fold (fun x : string * FieldInfo => category (snd x)) fst fs [] c).
Qed.

















(** ** What loading and saving do to the files *)

Lemma length_append (s t : string) :
  String.length (s ++ t) = String.length s + String.length t.
Proof. induction s as [|c s IH]; simpl; [reflexivity | now rewrite IH]. Qed.

Lemma sibling_length (prefix p : string) :
  String.length (sibling prefix p) = String.length prefix + String.length p.
Proof.
  induction p as [|c r IH]; cbn [sibling].
  - simpl. now rewrite Nat.add_0_r.
  - destruct (contains "/" r); [simpl; rewrite IH; lia|].
    destruct (Ascii.eqb c "/"); [simpl|]; rewrite length_append; simpl; lia.
Qed.

Lemma sibling_other (p : string) : sibling "debug_cleaned_" p <> p.
Proof.
  intros H. apply (f_equal String.length) in H.
  rewrite sibling_length in H. simpl in H. lia.
Qed.

Lemma write_lines_files (w : World) (p q : string) (lines : list string) :
  q <> p -> od_get q (files (fst (write_lines w p lines))) = od_get q (files w).
Proof.
  intros Hne. unfold write_lines.
  destruct (existsb (String.eqb p) (unwritable w)); simpl; [reflexivity|].
  now apply od_get_set_other.
Qed.

(** The files after a parse of a settings file: as before, or as after the
    writing of the debug file, and then the parse raised. *)
Lemma json_parse_file_world (w : World) (p : string) :
  fst (json_parser.parse_file w p) = w
  \/ exists text e,
       fst (json_parser.parse_file w p)
       = fst (write_lines w (sibling "debug_cleaned_" p) [text])
       /\ snd (json_parser.parse_file w p) = Raise e.
Proof.
  unfold json_parser.parse_file.
  destruct (exists_file w p); simpl; [|now left].
  destruct (read_lines w p) as [lines|e]; [|now left].
  destruct (json_parser.parse_lines (recursion_depth w) lines)
    as [[c|e] text]; [now left|].
  destruct e; try (now left).
  right.
  destruct (write_lines w (sibling "debug_cleaned_" p) [text])
    as [w' [u|e]] eqn:E.
  - exists text, JSONDecodeError. simpl. now rewrite E.
  - exists text, e. simpl. now rewrite E.
Qed.

(** X15 (JsonWithCommentsParser.parse_file, IniParser.parse_file,
    ConfigurationModel.load_configuration): loading never changes the
    settings file it reads; the only file it can write is the debug copy
    beside the settings file; and a load that succeeds leaves every file,
    and the record of the writes, as they were. *)
Theorem loading_leaves_the_files (m : ConfigurationModel) (w : World)
  (json_path ini_path : string) :
  let r := load_configuration m w json_path ini_path in
  od_get json_path (files (fst (fst r))) = od_get json_path (files w)
  /\ (forall q, q <> sibling "debug_cleaned_" json_path ->
                od_get q (files (fst (fst r))) = od_get q (files w))
  /\ (snd r = true -> fst (fst r) = w).
Proof.
  intros r.
  assert (fst (fst r) = fst (json_parser.parse_file w json_path)) as Hw.
  { subst r. unfold load_configuration.
    destruct (json_parser.parse_file w json_path) as [w1 [jc|e]];
      [|reflexivity].
    destruct (ini_parser.parse_file w1 ini_path); reflexivity. }
  assert (snd r = true -> exists jc, snd (json_parser.parse_file w json_path) = Ok jc)
    as Hok.
  { subst r. unfold load_configuration.
    destruct (json_parser.parse_file w json_path) as [w1 [jc|e]];
      [|discriminate].
    intros _. now exists jc. }
  rewrite Hw.
  destruct (json_parse_file_world w json_path) as [H|(text & e & H & He)].
  - rewrite H. repeat split; reflexivity.
  - rewrite H. split; [|split].
    + apply write_lines_files. intros Heq. symmetry in Heq.
      exact (sibling_other _ Heq).
    + intros q Hq. now apply write_lines_files.
    + intros Ht. destruct (Hok Ht) as [jc Hjc]. congruence.
Qed.

Lemma json_write_files (w : World) (c : ConfigData) (p q : string) :
  q <> p ->
  od_get q (files (fst (json_parser.write_preserving_structure w c p)))
  = od_get q (files w).
Proof.
  intros Hne. unfold json_parser.write_preserving_structure.
  destruct (json_parser.new_lines c) as [lines|e0]; [|reflexivity].
  pose proof (write_lines_files w p q lines Hne) as H.
  destruct (write_lines w p lines) as [w' [u|e]]; exact H.
Qed.

Lemma ini_write_files (w : World) (c : ConfigData) (p q : string) :
  q <> p ->
  od_get q (files (fst (ini_parser.write_preserving_structure w c p)))
  = od_get q (files w).
Proof.
  intros Hne. unfold ini_parser.write_preserving_structure.
  destruct (ini_parser.new_lines c) as [lines|e0]; [|reflexivity].
  pose proof (write_lines_files w p q lines Hne) as H.
  destruct (write_lines w p lines) as [w' [u|e]]; exact H.
Qed.

(** X16 (ConfigurationModel.apply_changes and the two writers): a save,
    whether it succeeds or fails, leaves alone every file other than the two
    files of the model. *)
Theorem apply_changes_touches_only_its_files (m : ConfigurationModel)
  (w : World) (q : string) :
  json_file_path m <> Some q ->
  ini_file_path m <> Some q ->
  od_get q (files (world_after (apply_changes m w))) = od_get q (files w).
Proof.
  intros Hj Hi. unfold world_after, apply_changes.
  assert (od_get q
            (files (fst (match json_config m, json_file_path m with
                         | Some c, Some p =>
                             json_parser.write_preserving_structure w c p
                         | _, _ => (w, true)
                         end)))
          = od_get q (files w)) as H1.
  { destruct (json_config m) as [c|]; [|reflexivity].
    destruct (json_file_path m) as [p|]; [|reflexivity].
    apply json_write_files. intros ->. now apply Hj. }
  destruct (match json_config m, json_file_path m with
            | Some c, Some p => json_parser.write_preserving_structure w c p
            | _, _ => (w, true)
            end) as [w1 json_ok].
  simpl in H1. destruct json_ok; simpl; [|exact H1].
  assert (od_get q
            (files (fst (match ini_config m, ini_file_path m with
                         | Some c, Some p =>
                             ini_parser.write_preserving_structure w1 c p
                         | _, _ => (w1, true)
                         end)))
          = od_get q (files w1)) as H2.
  { destruct (ini_config m) as [c|]; [|reflexivity].
    destruct (ini_file_path m) as [p|]; [|reflexivity].
    apply ini_write_files. intros ->. now apply Hi. }
  destruct (match ini_config m, ini_file_path m with
            | Some c, Some p => ini_parser.write_preserving_structure w1 c p
            | _, _ => (w1, true)
            end) as [w2 ini_ok].
  simpl in H2. destruct ini_ok; simpl; now rewrite H2.
Qed.

(** The edited sample model saved in a folder that holds a third file: the
    third file is as before. *)
Lemma apply_changes_touches_only_its_files_witness :
  json_file_path edited_model <> Some "other.json"
  /\ ini_file_path edited_model <> Some "other.json"
  /\ od_get "other.json"
       (files (world_after (apply_changes edited_model other_world)))
     = od_get "other.json" (files other_world).
Proof.
  assert (json_file_path edited_model <> Some "other.json") as Hj
    by (vm_compute; discriminate).
  assert (ini_file_path edited_model <> Some "other.json") as Hi
    by (vm_compute; discriminate).
  split; [exact Hj|]. split; [exact Hi|].
  exact (apply_changes_touches_only_its_files edited_model other_world
           "other.json" Hj Hi).
Defined.

(** ** What every field state of a model keeps *)

Section StatesInvariant.

Variable P : field_state.FieldState -> Prop.

Hypothesis P_new : forall v, P (field_state.new_FieldState v).

Hypothesis P_set_value :
  forall fs v converted now,
    P fs ->
    _convert_value_to_type v (field_state.original_value fs) = Ok converted ->
    P (snd (field_state.set_value fs converted now)).

Hypothesis P_revert : forall fs, P fs -> P (snd (field_state.revert fs)).

Hypothesis P_apply_changes : forall fs, P fs -> P (field_state.apply_changes fs).

Lemma states_all_store (m m' : ConfigurationModel) (p : string)
  (fs' : field_state.FieldState) :
  states_all P m -> P fs' ->
  field_states m' = od_set p fs' (field_states m) ->
  states_all P m'.
Proof.
  intros Hm Hfs Hs q fs. rewrite Hs. intros Hin. apply in_od_set in Hin.
  destruct Hin as [[= -> ->]|Hin]; [exact Hfs | exact (Hm q fs Hin)].
Qed.

Lemma states_all_set_field_value (m m' : ConfigurationModel) (p : string)
  (v : pyval) (now : Z) (b : bool) :
  states_all P m -> set_field_value m p v now = Ok (m', b) -> states_all P m'.
Proof.
  intros Hm. unfold set_field_value.
  destruct (od_get p (field_states m)) as [fs|] eqn:Hget;
    [|now intros [= <- _]].
  destruct (_convert_value_to_type v (field_state.original_value fs))
    as [converted|e] eqn:Ec; simpl; [|discriminate].
  pose proof (P_set_value fs v converted now
                (Hm p fs (od_get_in _ _ _ Hget)) Ec) as Hfs.
  destruct (field_state.set_value fs converted now) as [changed fs'].
  destruct changed; [|now intros [= <- _]].
  intros [= <- _]. simpl in Hfs.
  apply (states_all_store m _ p fs' Hm Hfs).
  now rewrite field_states_after_update.
Qed.

Lemma states_all_revert_field (m : ConfigurationModel) (p : string) :
  states_all P m -> states_all P (fst (revert_field m p)).
Proof.
  intros Hm. unfold revert_field.
  destruct (od_get p (field_states m)) as [fs|] eqn:Hget; [|exact Hm].
  pose proof (P_revert fs (Hm p fs (od_get_in _ _ _ Hget))) as Hfs.
  destruct (field_state.revert fs) as [reverted fs'].
  destruct reverted; [|exact Hm]. simpl in *.
  apply (states_all_store m _ p fs' Hm Hfs).
  now rewrite field_states_after_update.
Qed.

Lemma states_all_revert_all_changes (m : ConfigurationModel) :
  states_all P m -> states_all P (fst (revert_all_changes m)).
Proof.
  intros Hm. unfold revert_all_changes.
  assert (states_all P
            (fst (fold_left
                    (fun acc field_path =>
                       let (m, ok) := revert_field (fst acc) field_path in
                       (m, if ok then S (snd acc) else snd acc))
                    (_modified_fields m) (m, 0)))) as H.
  { apply (fold_left_invariant
             (fun acc : ConfigurationModel * nat => states_all P (fst acc)));
      [|exact Hm].
    intros acc p Hacc. pose proof (states_all_revert_field (fst acc) p Hacc) as H.
    destruct (revert_field (fst acc) p) as [m1 ok]. exact H. }
  destruct (fold_left _ (_modified_fields m) (m, 0)) as [m1 n].
  simpl in *. destruct (Nat.ltb 0 n); exact H.
Qed.

Lemma states_all_promote (st : odict field_state.FieldState)
  (l : list string) :
  (forall x, In x st -> P (snd x)) ->
  forall x, In x (fold_left promote l st) -> P (snd x).
Proof.
  apply (fold_left_invariant
           (fun st : odict field_state.FieldState =>
              forall x, In x st -> P (snd x))).
  intros st' k Hst x. unfold promote.
  destruct (od_get k st') as [fs0|] eqn:Hget; [|apply Hst].
  intros Hin. apply in_od_set in Hin. destruct Hin as [->|Hin]; [|now apply Hst].
  simpl. apply P_apply_changes.
  exact (Hst (k, fs0) (od_get_in _ _ _ Hget)).
Qed.

Lemma states_all_apply_changes (m : ConfigurationModel) (w : World) :
  states_all P m -> states_all P (model_after (apply_changes m w)).
Proof.
  intros Hm. unfold model_after, apply_changes.
  destruct (match json_config m, json_file_path m with
            | Some c, Some p => json_parser.write_preserving_structure w c p
            | _, _ => (w, true)
            end) as [w1 json_ok].
  destruct json_ok; simpl; [|exact Hm].
  destruct (match ini_config m, ini_file_path m with
            | Some c, Some p => ini_parser.write_preserving_structure w1 c p
            | _, _ => (w1, true)
            end) as [w2 ini_ok].
  destruct ini_ok; simpl; [|exact Hm].
  intros p fs Hin. simpl in Hin.
  exact (states_all_promote (field_states m) (_modified_fields m)
           (fun x Hx => Hm (fst x) (snd x)
                          (eq_ind _ (fun y => In y (field_states m)) Hx _
                             (surjective_pairing x)))
           (p, fs) Hin).
Qed.

Lemma states_all_load_configuration (m : ConfigurationModel) (w : World)
  (json_path ini_path : string) :
  states_all P m ->
  states_all P (snd (fst (load_configuration m w json_path ini_path))).
Proof.
  intros Hm. unfold load_configuration.
  destruct (json_parser.parse_file w json_path) as [w1 [jc|e]]; simpl;
    [|exact Hm].
  destruct (ini_parser.parse_file w1 ini_path) as [ic|e]; simpl;
    [|exact Hm].
  intros p fs. cbn [field_states _notify_observers _initialize_field_states
                      json_config ini_config].
  change (In (p, fs) (initial_field_states (Some jc) (Some ic))
          -> P (snd (p, fs))).
  generalize (p, fs). clear p fs.
  unfold initial_field_states.
  apply (fold_left_invariant
           (fun st : odict field_state.FieldState =>
              forall x, In x st -> P (snd x))).
  - intros st kv Hst x Hx. apply in_od_set in Hx.
    destruct Hx as [->|Hx]; [apply P_new | now apply Hst].
  - apply (fold_left_invariant
             (fun st : odict field_state.FieldState =>
                forall x, In x st -> P (snd x))).
    + intros st kv Hst x Hx. apply in_od_set in Hx.
      destruct Hx as [->|Hx]; [apply P_new | now apply Hst].
    + intros x [].
Qed.

Lemma states_all_history (w : World) (calls : list model_call) :
  states_all P (snd (model_history w calls)).
Proof.
  unfold model_history.
  apply (fold_left_invariant (fun s => states_all P (snd s))).
  - intros s c Hs. destruct c; simpl.
    + now apply states_all_load_configuration.
    + destruct (set_field_value (snd s) field_path v now) as [[m b]|e] eqn:E;
        [|exact Hs].
      simpl. eapply states_all_set_field_value; [exact Hs | exact E].
    + now apply states_all_revert_field.
    + now apply states_all_revert_all_changes.
    + now apply states_all_apply_changes.
  - intros p fs [].
Qed.

End StatesInvariant.

Lemma bind_ok_inv {A B : Type} (m : result A) (k : A -> result B) (b : B) :
  bind m k = Ok b -> exists a, m = Ok a /\ k a = Ok b.
Proof.
  destruct m as [a|e]; [|discriminate]. intros H. exists a. now split.
Qed.

Lemma try_except_cases {A : Type} (m : result A) (handled : list exn)
  (h : result A) (a : A) :
  try_except m handled h = Ok a -> m = Ok a \/ h = Ok a.
Proof.
  unfold try_except. destruct m as [x|e]; [now left|].
  destruct (isinstance_exn e handled); [now right | discriminate].
Qed.

(** The type of the converted value is the type the original value calls
    for. *)
Lemma convert_value_type (v original converted : pyval) :
  _convert_value_to_type v original = Ok converted ->
  same_type converted
    (match original with
     | VBool _ | VInt _ | VFloat _ => original
     | _ => VStr EmptyString
     end) = true.
Proof.
  unfold _convert_value_to_type.
  destruct original as [ | ob | on | ofl | os | ol | ol | od ];
    try (now intros [= <-]);
    try (destruct v;
         [ now intros [= <-]
         | intros H; apply bind_ok_inv in H; destruct H as [t [_ H]];
           now injection H as <- .. ]).
  - intros H. apply try_except_cases in H. destruct H as [H|H].
    + destruct v as [ | b | n | f | s | l | l | d ];
        try (apply bind_ok_inv in H; destruct H as [k [_ H]];
             now injection H as <-).
      destruct (is_empty (strip s)); [now injection H as <-|].
      apply bind_ok_inv in H. destruct H as [f [_ H]].
      apply bind_ok_inv in H. destruct H as [k [_ H]].
      now injection H as <-.
    + apply bind_ok_inv in H. destruct H as [t [_ H]].
      now injection H as <-.
  - intros H. apply try_except_cases in H. destruct H as [H|H].
    + destruct v as [ | b | n | f | s | l | l | d ];
        try (apply bind_ok_inv in H; destruct H as [k [_ H]];
             now injection H as <-).
      destruct (is_empty (strip s)); [now injection H as <-|].
      apply bind_ok_inv in H. destruct H as [f [_ H]].
      now injection H as <-.
    + apply bind_ok_inv in H. destruct H as [t [_ H]].
      now injection H as <-.
Qed.

Lemma type_stable_history (w : World) (calls : list model_call) :
  states_all type_stable (snd (model_history w calls)).
Proof.
  apply states_all_history.
  - intros v Hs. simpl. destruct v; try discriminate; reflexivity.
  - intros fs v converted now Hfs Hc. unfold field_state.set_value.
    destruct (py_eq converted (field_state.current_value fs)); [exact Hfs|].
    intros Hs. simpl in *. apply convert_value_type in Hc.
    destruct (field_state.original_value fs); try discriminate; exact Hc.
  - intros fs Hfs. unfold field_state.revert.
    destruct (field_state.is_modified fs); simpl; [|exact Hfs].
    intros Hs. simpl in *.
    destruct (field_state.original_value fs); try discriminate; reflexivity.
  - intros fs Hfs Hs. simpl in *.
    destruct (field_state.current_value fs); try discriminate; reflexivity.
Qed.

(** X17 (ConfigurationModel.set_field_value, _convert_value_to_type,
    revert_field, apply_changes; FieldState): in every state a model can
    reach, a field whose original value is a bool, an int, a float or a str
    holds a current value of the same type, whatever was entered for it. *)
Theorem scalar_fields_keep_their_type (w : World) (calls : list model_call)
  (p : string) :
  let m := snd (model_history w calls) in
  scalar (original_of m p) = true ->
  same_type (get_field_value m p) (original_of m p) = true.
Proof.
  intros m. unfold original_of, get_field_value.
  destruct (od_get p (field_states m)) as [fs|] eqn:E; [|discriminate].
  exact (type_stable_history w calls p fs (od_get_in _ _ _ E)).
Qed.

(** The sample model after the text 3 was entered for the integer field
    [Graphics.Quality]: the field holds the integer 3. *)
Lemma scalar_fields_keep_their_type_witness :
  scalar (original_of (snd (model_history sample_world sample_calls))
            "Graphics.Quality") = true
  /\ get_field_value (snd (model_history sample_world sample_calls))
       "Graphics.Quality" = VInt 3
  /\ same_type
       (get_field_value (snd (model_history sample_world sample_calls))
          "Graphics.Quality")
       (original_of (snd (model_history sample_world sample_calls))
          "Graphics.Quality") = true.
Proof.
  assert (scalar (original_of (snd (model_history sample_world sample_calls))
                    "Graphics.Quality") = true) as H
    by (vm_compute; reflexivity).
  split; [exact H|]. split; [vm_compute; reflexivity|].
  exact (scalar_fields_keep_their_type sample_world sample_calls
           "Graphics.Quality" H).
Defined.

(** X18 (ConfigurationModel.set_field_value, _convert_value_to_type,
    FieldState.set_value): in every state a model can reach, entering for a
    field with a scalar original value the value the field already holds
    changes nothing and returns False, unless that value is a NaN, which
    equals nothing. *)
Theorem reentering_the_value_is_a_noop (w : World) (calls : list model_call)
  (p : string) (now : Z) :
  let m := snd (model_history w calls) in
  scalar (original_of m p) = true ->
  py_eq (get_field_value m p) (get_field_value m p) = true ->
  set_field_value m p (get_field_value m p) now = Ok (m, false).
Proof.
  intros m. unfold original_of, get_field_value, set_field_value.
  destruct (od_get p (field_states m)) as [fs|] eqn:E; [|discriminate].
  intros Hs Heq.
  pose proof (type_stable_history w calls p fs (od_get_in _ _ _ E) Hs) as Ht.
  unfold field_state.set_value.
  destruct (field_state.original_value fs) as [ | b | n | f | s | l | l | d ];
    try discriminate;
    destruct (field_state.current_value fs) as [ | b' | n' | f' | s' | l' | l' | d' ];
    try discriminate; simpl in *; now rewrite Heq.
Qed.

(** The sample model after the text 3 was entered for [Graphics.Quality]:
    entering the integer 3 again changes nothing. *)
Lemma reentering_the_value_is_a_noop_witness :
  scalar (original_of (snd (model_history sample_world sample_calls))
            "Graphics.Quality") = true
  /\ set_field_value (snd (model_history sample_world sample_calls))
       "Graphics.Quality" (VInt 3) 5%Z
     = Ok (snd (model_history sample_world sample_calls), false).
Proof.
  assert (scalar (original_of (snd (model_history sample_world sample_calls))
                    "Graphics.Quality") = true) as H
    by (vm_compute; reflexivity).
  split; [exact H|].
  assert (get_field_value (snd (model_history sample_world sample_calls))
            "Graphics.Quality" = VInt 3) as Hv by (vm_compute; reflexivity).
  pose proof (reentering_the_value_is_a_noop sample_world sample_calls
                "Graphics.Quality" 5%Z H) as Hn.
  rewrite Hv in Hn. exact (Hn eq_refl).
Defined.

Lemma no_messages_history (w : World) (calls : list model_call) :
  states_all no_messages (snd (model_history w calls)).
Proof.
  apply states_all_history.
  - intros v. repeat split.
  - intros fs v converted now Hfs _. unfold field_state.set_value.
    destruct (py_eq converted (field_state.current_value fs)); [exact Hfs|].
    repeat split.
  - intros fs Hfs. unfold field_state.revert.
    destruct (field_state.is_modified fs); [repeat split | exact Hfs].
  - intros fs Hfs. exact Hfs.
Qed.

(** X19 (ConfigurationModel.is_valid, FieldState.is_valid): no method of the
    model records a validation message, so in every state a model reaches
    through its own methods every field state has empty message lists and
    the state VALID, and [is_valid] is True. *)
Theorem model_is_always_valid (w : World) (calls : list model_call) :
  let m := snd (model_history w calls) in
  is_valid m = true
  /\ forall p fs,
       In (p, fs) (field_states m) ->
       field_state.validation_errors fs = []
       /\ field_state.validation_warnings fs = []
       /\ field_state.validation_state fs = field_state.VALID.
Proof.
  intros m. pose proof (no_messages_history w calls) as H. fold m in H.
  split; [|exact H].
  unfold is_valid. apply forallb_forall. intros [p fs] Hin.
  destruct (H p fs Hin) as (He & _ & _). simpl.
  unfold field_state.is_valid, field_state.has_errors. now rewrite He.
Qed.

(** ** Integers written and read back *)

Lemma digits_loop_numeral (u : Decimal.uint) (acc : Z) (k : nat) :
  digits_loop (NilEmpty.string_of_uint u) acc k
  = (digits_value u acc, k + Decimal.nb_digits u, EmptyString).
Proof.
  revert acc k. induction u; intros acc k; cbn [NilEmpty.string_of_uint];
    try (cbn [digits_loop digits_value Decimal.nb_digits];
         match goal with
         | |- context [is_digit ?c] => change (is_digit c) with true
         end;
         cbv iota; rewrite IHu; rewrite Nat.add_succ_r; reflexivity).
  simpl. now rewrite Nat.add_0_r.
Qed.

Lemma digits_value_pos (u : Decimal.uint) (acc : positive) :
  digits_value u (Z.pos acc) = Z.pos (Pos.of_uint_acc u acc).
Proof.
  revert acc. induction u; intros acc; cbn [digits_value Pos.of_uint_acc];
    [reflexivity|..];
    match goal with
    | |- digits_value _ ?z = _ =>
        match goal with
        | |- _ = Z.pos (Pos.of_uint_acc _ ?p) =>
            replace z with (Z.pos p) by lia; apply IHu
        end
    end.
Qed.

Lemma digits_value_of_uint (u : Decimal.uint) :
  digits_value u 0 = Z.of_N (Pos.of_uint u).
Proof.
  induction u; cbn [digits_value Pos.of_uint Z.of_N];
    try reflexivity; try exact IHu;
    match goal with
    | |- digits_value _ ?z = Z.pos (Pos.of_uint_acc _ ?p) =>
        change z with (Z.pos p); apply digits_value_pos
    end.
Qed.

Lemma digits_value_to_uint (p : positive) :
  digits_value (Pos.to_uint p) 0 = Z.pos p.
Proof.
  rewrite digits_value_of_uint, DecimalPos.Unsigned.of_to. reflexivity.
Qed.

Lemma numeral_digits (u : Decimal.uint) :
  all_chars is_digit (NilEmpty.string_of_uint u) = true.
Proof. induction u; simpl; try reflexivity; exact IHu. Qed.

Lemma all_chars_weaken (f g : ascii -> bool) (s : string) :
  (forall c, f c = true -> g c = true) ->
  all_chars f s = true -> all_chars g s = true.
Proof.
  intros H. induction s as [|c r IH]; simpl; [reflexivity|].
  intros Hc. apply andb_prop in Hc. destruct Hc as [Hc Hr].
  now rewrite (H c Hc), IH.
Qed.

Lemma decimal_of_int_chars (n : Z) :
  all_chars numeral_char (decimal_of_int n) = true.
Proof.
  assert (forall u, all_chars numeral_char (NilEmpty.string_of_uint u) = true)
    as H.
  { intros u. apply (all_chars_weaken is_digit); [|apply numeral_digits].
    intros c Hc. unfold numeral_char. now rewrite Hc. }
  unfold decimal_of_int. destruct n as [|p|p]; simpl; try reflexivity.
  - unfold NilZero.string_of_uint. destruct (Pos.to_uint p); try apply H.
    reflexivity.
  - unfold NilZero.string_of_uint.
    destruct (Pos.to_uint p) eqn:E; rewrite <- ?E; try apply H.
    reflexivity.
Qed.

Lemma numeral_char_facts (c : ascii) :
  numeral_char c = true ->
  is_space c = false /\ lower_char c = c /\ Ascii.eqb c "." = false
  /\ is_blank c = false /\ numeral_char_of c = c.
Proof.
  destruct c as [[] [] [] [] [] [] [] []]; try discriminate;
    intros _; repeat split.
Qed.

Lemma lstrip_numeral (s : string) :
  all_chars numeral_char s = true -> lstrip s = s.
Proof.
  destruct s as [|c r]; [reflexivity|]. simpl. intros H.
  apply andb_prop in H. destruct H as [Hc _].
  now rewrite (proj1 (numeral_char_facts c Hc)).
Qed.

Lemma rstrip_numeral (s : string) :
  all_chars numeral_char s = true -> rstrip s = s.
Proof.
  induction s as [|c r IH]; [reflexivity|]. simpl. intros H.
  apply andb_prop in H. destruct H as [Hc Hr]. rewrite (IH Hr).
  destruct r; [|reflexivity].
  now rewrite (proj1 (numeral_char_facts c Hc)).
Qed.

Lemma strip_numeral (s : string) :
  all_chars numeral_char s = true -> strip s = s.
Proof.
  intros H. unfold strip. rewrite (rstrip_numeral s H). now apply lstrip_numeral.
Qed.

Lemma map_numeral (s : string) :
  all_chars numeral_char s = true -> map_string numeral_char_of s = s.
Proof.
  induction s as [|c r IH]; [reflexivity|]. simpl. intros H.
  apply andb_prop in H. destruct H as [Hc Hr]. rewrite (IH Hr).
  now rewrite (proj2 (proj2 (proj2 (proj2 (numeral_char_facts c Hc))))).
Qed.

Lemma rstrip_blank_numeral (s : string) :
  all_chars numeral_char s = true -> rstrip_blank s = s.
Proof.
  induction s as [|c r IH]; [reflexivity|]. simpl. intros H.
  apply andb_prop in H. destruct H as [Hc Hr]. rewrite (IH Hr).
  destruct r; [|reflexivity].
  now rewrite (proj1 (proj2 (proj2 (proj2 (numeral_char_facts c Hc))))).
Qed.

(** [int] and [float] read a numeral as it stands. *)
Lemma numeral_text_numeral (s : string) :
  all_chars numeral_char s = true -> numeral_text s = s.
Proof.
  intros H. unfold numeral_text.
  rewrite (map_numeral s H), (rstrip_blank_numeral s H).
  destruct s as [|c r]; [reflexivity|]. simpl in H.
  apply andb_prop in H. destruct H as [Hc _]. cbn [lstrip_blank].
  now rewrite (proj1 (proj2 (proj2 (proj2 (numeral_char_facts c Hc))))).
Qed.

Lemma lower_numeral (s : string) :
  all_chars numeral_char s = true -> lower s = s.
Proof.
  unfold lower. induction s as [|c r IH]; [reflexivity|]. simpl. intros H.
  apply andb_prop in H. destruct H as [Hc Hr].
  rewrite (IH Hr). now rewrite (proj1 (proj2 (numeral_char_facts c Hc))).
Qed.

Lemma no_dot_numeral (s : string) :
  all_chars numeral_char s = true -> contains "." s = false.
Proof.
  induction s as [|c r IH]; [reflexivity|]. intros H. simpl in H.
  apply andb_prop in H. destruct H as [Hc Hr].
  rewrite contains_dot_cons, (IH Hr).
  now rewrite (proj1 (proj2 (proj2 (numeral_char_facts c Hc)))).
Qed.

Lemma digitpart_numeral (p : positive) :
  digitpart (NilEmpty.string_of_uint (Pos.to_uint p))
  = Some (Z.pos p, Decimal.nb_digits (Pos.to_uint p), EmptyString)
  /\ parse_sign (NilEmpty.string_of_uint (Pos.to_uint p))
     = (false, NilEmpty.string_of_uint (Pos.to_uint p)).
Proof.
  pose proof (digits_loop_numeral (Pos.to_uint p) 0 0) as H.
  rewrite digits_value_to_uint in H. simpl in H.
  pose proof (DecimalPos.Unsigned.to_uint_nonnil p) as Hn.
  destruct (Pos.to_uint p) eqn:E; try (now elim Hn);
    cbn [NilEmpty.string_of_uint] in *; split;
    try reflexivity; unfold digitpart; change (is_digit _) with true;
    cbv iota; now rewrite H.
Qed.

(** A numeral has as many characters as digits. *)
Lemma length_string_of_uint (u : Decimal.uint) :
  String.length (NilEmpty.string_of_uint u) = Decimal.nb_digits u.
Proof. induction u; simpl; try reflexivity; now rewrite IHu. Qed.

Lemma decimal_of_pos (p : positive) :
  decimal_of_int (Z.pos p) = NilEmpty.string_of_uint (Pos.to_uint p)
  /\ decimal_of_int (Z.neg p)
     = String "-" (NilEmpty.string_of_uint (Pos.to_uint p)).
Proof.
  unfold decimal_of_int. cbn [Z.to_int NilZero.string_of_int].
  unfold NilZero.string_of_uint.
  pose proof (DecimalPos.Unsigned.to_uint_nonnil p) as Hn.
  destruct (Pos.to_uint p) eqn:E; try (now elim Hn); split; reflexivity.
Qed.

(** [int] reads the decimal numeral of [n] as [n], unless it has too many
    digits. *)
Lemma int_of_decimal (n : Z) :
  int_of_str (decimal_of_int n)
  = if (digits_of n <=? max_str_digits)%Z then Ok n else Raise ValueError.
Proof.
  unfold int_of_str, digits_of.
  rewrite (numeral_text_numeral _ (decimal_of_int_chars n)).
  destruct n as [|p|p]; [reflexivity| |]; cbn [Z.abs];
    destruct (decimal_of_pos p) as [Hp Hm];
    destruct (digitpart_numeral p) as [Hd Hs].
  - rewrite Hp, Hs, Hd, length_string_of_uint. reflexivity.
  - rewrite Hm, Hp. cbn [parse_sign]. rewrite Hd, length_string_of_uint.
    reflexivity.
Qed.

(** [str] writes the decimal numeral, unless it has too many digits. *)
Lemma str_of_int_decimal (n : Z) :
  str_of_int n
  = if (digits_of n <=? max_str_digits)%Z
    then Ok (decimal_of_int n) else Raise ValueError.
Proof. reflexivity. Qed.

(** X20 (IniParser._format_value_for_ini, _parse_ini_value): an integer is
    written for an INTEGER field as its decimal numeral, unless the numeral
    has more than 4300 digits, which makes the writing raise ValueError.
    Written and read back it is the same integer, except 0 and 1, which
    are written as the texts the reader takes for the booleans False and
    True.  A boolean written for a BOOLEAN field is read back as the same
    boolean. *)
Theorem ini_integer_round_trip (n : Z) (b : bool) :
  ini_parser._format_value_for_ini (VInt n) INTEGER
  = (if (digits_of n <=? max_str_digits)%Z
     then Ok (decimal_of_int n) else Raise ValueError)
  /\ (forall text,
        ini_parser._format_value_for_ini (VInt n) INTEGER = Ok text ->
        ini_parser._parse_ini_value text
        = (if (n =? 1)%Z then VBool true
           else if (n =? 0)%Z then VBool false
           else VInt n))
  /\ exists text,
       ini_parser._format_value_for_ini (VBool b) BOOLEAN = Ok text
       /\ ini_parser._parse_ini_value text = VBool b.
Proof.
  assert (Hf : ini_parser._format_value_for_ini (VInt n) INTEGER
               = if (digits_of n <=? max_str_digits)%Z
                 then Ok (decimal_of_int n) else Raise ValueError).
  { unfold ini_parser._format_value_for_ini, py_str, py_repr.
    cbn [printable repr_text]. rewrite str_of_int_decimal.
    destruct (digits_of n <=? max_str_digits)%Z; reflexivity. }
  split; [exact Hf|].
  split; [|destruct b; eexists; split; reflexivity].
  intros text. rewrite Hf.
  destruct (digits_of n <=? max_str_digits)%Z eqn:Hd; [|discriminate].
  intros [= <-].
  destruct (Z.eqb_spec n 1) as [->|H1]; [reflexivity|].
  destruct (Z.eqb_spec n 0) as [->|H0]; [reflexivity|].
  unfold ini_parser._parse_ini_value.
  pose proof (decimal_of_int_chars n) as Hc.
  rewrite (strip_numeral _ Hc), (lower_numeral _ Hc), (no_dot_numeral _ Hc).
  pose proof (int_of_decimal n) as Hi. rewrite Hd in Hi.
  assert (forall word r,
            int_of_str word = r -> r <> Ok n ->
            String.eqb (decimal_of_int n) word = false) as Hw.
  { intros word r Hr Hne.
    destruct (String.eqb (decimal_of_int n) word) eqn:E; [|reflexivity].
    apply String.eqb_eq in E. congruence. }
  unfold ini_parser.mem_str, ini_parser.bool_words_true,
    ini_parser.bool_words_false. cbn [existsb].
  rewrite (Hw "true" (Raise ValueError)), (Hw "on" (Raise ValueError)),
    (Hw "yes" (Raise ValueError)), (Hw "1" (Ok 1%Z)),
    (Hw "false" (Raise ValueError)), (Hw "off" (Raise ValueError)),
    (Hw "no" (Raise ValueError)), (Hw "0" (Ok 0%Z));
    try reflexivity; try discriminate; try congruence.
  cbn [orb negb]. rewrite Hi. reflexivity.
Qed.

(** The integer 12 is written as the text 12 and read back; the largest
    integer of 4300 digits is written, and the next one, ten to the power
    4300, is not. *)
Lemma ini_integer_round_trip_witness :
  ini_parser._format_value_for_ini (VInt 12) INTEGER = Ok "12"
  /\ ini_parser._parse_ini_value "12" = VInt 12
  /\ digits_of (10 ^ 4300 - 1) = 4300%Z
  /\ ini_parser._format_value_for_ini (VInt (10 ^ 4300 - 1)) INTEGER
     = Ok (decimal_of_int (10 ^ 4300 - 1))
  /\ digits_of (10 ^ 4300) = 4301%Z
  /\ ini_parser._format_value_for_ini (VInt (10 ^ 4300)) INTEGER
     = Raise ValueError.
Proof.
  destruct (ini_integer_round_trip 12 true) as [H12 [Hr _]].
  split; [exact H12|]. split; [exact (Hr "12" H12)|].
  assert (Ha : digits_of (10 ^ 4300 - 1) = 4300%Z) by (vm_compute; reflexivity).
  assert (Hb : digits_of (10 ^ 4300) = 4301%Z) by (vm_compute; reflexivity).
  split; [exact Ha|].
  split.
  { destruct (ini_integer_round_trip (10 ^ 4300 - 1) true) as [H _].
    rewrite H, Ha. reflexivity. }
  split; [exact Hb|].
  destruct (ini_integer_round_trip (10 ^ 4300) true) as [H _].
  rewrite H, Hb. reflexivity.
Defined.

(** ** The errors of the INI parser *)

Lemma split_once_contains (sep s : string) :
  contains sep s = true -> exists kv, split_once sep s = Some kv.
Proof.
  induction s as [|c r IH]; cbn [split_once contains].
  - destruct (String.prefix sep EmptyString); [eauto | discriminate].
  - destruct (String.prefix sep (String c r)); [eauto|].
    cbn [orb]. intros H. destruct (IH H) as [[a b] ->]. eauto.
Qed.

Lemma split_once_none (sep s : string) :
  split_once sep s = None -> contains sep s = false.
Proof.
  intros H. destruct (contains sep s) eqn:E; [|reflexivity].
  destruct (split_once_contains sep s E) as [kv Hkv]. congruence.
Qed.

Lemma ini_parse_line_raises (st : ini_parser.pstate) (n : nat) (l : string)
  (e : exn) :
  ini_parser.parse_line st n l = Raise e ->
  e = ValueError /\ equals_in_comment_only l = true.
Proof.
  unfold ini_parser.parse_line, equals_in_comment_only.
  destruct (is_empty (strip l)); [discriminate|].
  destruct (startswith "//" (strip l)); [discriminate|].
  destruct (ini_parser.section_header (strip l)); [discriminate|].
  destruct (ini_parser.current_section st); [|discriminate].
  destruct (contains "=" (strip l)) eqn:Heq; [|discriminate].
  destruct (split_once "//" (strip l)) as [[line_part comment_part]|].
  - unfold ini_parser.unpack2.
    destruct (split_once "=" (strip line_part)) as [kv|] eqn:Es; simpl;
      [discriminate|].
    intros [= <-]. rewrite (split_once_none _ _ Es). now split.
  - unfold ini_parser.unpack2.
    destruct (split_once "=" (strip l)) as [kv|] eqn:Es; simpl;
      [discriminate|].
    apply split_once_none in Es. congruence.
Qed.

Lemma ini_parse_line_returns (st : ini_parser.pstate) (n : nat) (l : string) :
  equals_in_comment_only l = false ->
  exists st', ini_parser.parse_line st n l = Ok st'.
Proof.
  intros H. destruct (ini_parser.parse_line st n l) as [st'|e] eqn:E;
    [now exists st'|].
  apply ini_parse_line_raises in E. destruct E as [_ E]. congruence.
Qed.

Lemma ini_parse_loop_raises (lines : list string) (n : nat)
  (st : ini_parser.pstate) (e : exn) :
  ini_parser.parse_loop lines n st = Raise e ->
  e = ValueError /\ exists l, In l lines /\ equals_in_comment_only l = true.
Proof.
  revert n st. induction lines as [|l lines IH]; intros n st; simpl;
    [discriminate|].
  destruct (ini_parser.parse_line st n l) as [st1|e1] eqn:E; simpl.
  - intros H. destruct (IH _ _ H) as [He (l' & Hin & Hl')].
    split; [exact He|]. exists l'. split; [now right | exact Hl'].
  - intros [= <-]. apply ini_parse_line_raises in E. destruct E as [He Hl].
    split; [exact He|]. exists l. split; [now left | exact Hl].
Qed.

Lemma ini_parse_loop_returns (lines : list string) (n : nat)
  (st : ini_parser.pstate) :
  (forall l, In l lines -> equals_in_comment_only l = false) ->
  exists st', ini_parser.parse_loop lines n st = Ok st'.
Proof.
  intros H. destruct (ini_parser.parse_loop lines n st) as [st'|e] eqn:E;
    [now exists st'|].
  apply ini_parse_loop_raises in E. destruct E as [_ (l & Hin & Hl)].
  rewrite (H l Hin) in Hl. discriminate.
Qed.

(** X21 (IniParser.parse_file, parse_with_comments): the INI parser raises
    FileNotFoundError for a missing file and, on a file that is read as
    text, otherwise only ValueError, and that only when some line read,
    neither blank nor a comment nor a section header, has all its equals
    signs inside its comment; a file without such a line parses. *)
Theorem ini_parse_file_errors (w : World) (filepath : string) :
  (forall e,
     ini_parser.parse_file w filepath = Raise e ->
     (e = FileNotFoundError /\ exists_file w filepath = false)
     \/ (e = ValueError
         /\ exists lines l,
              read_lines w filepath = Ok lines /\ In l lines
              /\ equals_in_comment_only l = true))
  /\ (forall lines,
        read_lines w filepath = Ok lines ->
        (forall l, In l lines -> equals_in_comment_only l = false) ->
        exists cfg, ini_parser.parse_file w filepath = Ok cfg).
Proof.
  unfold ini_parser.parse_file, exists_file, od_mem, read_lines.
  destruct (od_get filepath (files w)) as [content|]; simpl.
  - split.
    + intros e. unfold ini_parser.parse_lines, ini_parser.parse_with_comments.
      destruct (ini_parser.parse_loop _ 0 _) as [st|e1] eqn:E; simpl;
        [discriminate|].
      intros [= <-]. right. apply ini_parse_loop_raises in E.
      destruct E as [He (l & Hin & Hl)]. split; [exact He|].
      exists (readlines (universal_newlines content)), l. now repeat split.
    + intros lines [= <-] H.
      unfold ini_parser.parse_lines, ini_parser.parse_with_comments.
      destruct (ini_parse_loop_returns _ 0 (ini_parser.mkPstate [] None) H)
        as [st ->].
      simpl. eauto.
  - split; [|discriminate].
    intros e [= <-]. left. now split.
Qed.

(** A configuration file with the line [Width // was Width=1920] in a
    section: the parser raises ValueError, and the line is found. *)
Lemma ini_parse_file_errors_witness :
  ini_parser.parse_file broken_ini_world "Config_DX11.ini" = Raise ValueError
  /\ ((ValueError = FileNotFoundError
       /\ exists_file broken_ini_world "Config_DX11.ini" = false)
      \/ (ValueError = ValueError
          /\ exists lines l,
               read_lines broken_ini_world "Config_DX11.ini" = Ok lines
               /\ In l lines /\ equals_in_comment_only l = true)).
Proof.
  assert (ini_parser.parse_file broken_ini_world "Config_DX11.ini"
          = Raise ValueError) as H by (vm_compute; reflexivity).
  split; [exact H|].
  exact (proj1 (ini_parse_file_errors broken_ini_world "Config_DX11.ini")
           ValueError H).
Defined.

(** ** The categories of a model *)

Lemma in_fold_od_set {A V : Type} (f : A -> string) (g : A -> V)
  (l : list A) (acc : odict V) (x : string * V) :
  In x (fold_left (fun d a => od_set (f a) (g a) d) l acc) ->
  In x acc \/ exists a, In a l /\ x = (f a, g a).
Proof.
  revert acc. induction l as [|a l IH]; intros acc; simpl; [now left|].
  intros H. destruct (IH _ H) as [Hacc|(b & Hb & Hx)].
  - apply in_od_set in Hacc. destruct Hacc as [->|Hacc]; [|now left].
    right. exists a. split; [now left | reflexivity].
  - right. exists b. split; [now right | exact Hx].
Qed.

Lemma fold_od_set_get_key {A V : Type} (key : A -> string) (prefix : string)
  (g : A -> V) (l : list A) (acc : odict V) (c : string) :
  NoDup (map key l) ->
  (forall a, In a l -> od_get (prefix ++ key a) acc = None) ->
  od_get (prefix ++ c) acc = None ->
  od_get (prefix ++ c)
    (fold_left (fun d a => od_set (prefix ++ key a) (g a) d) l acc)
  = option_map g (find (fun a => String.eqb (key a) c) l).
Proof.
  revert acc. induction l as [|a l IH]; intros acc Hnd Hacc Hc; simpl;
    [now rewrite Hc|].
  inversion Hnd as [|x y Ha Hl]; subst.
  destruct (String.eqb_spec (key a) c) as [<-|Hne].
  - rewrite fold_od_set_get_other; [apply od_get_set_same|].
    intros b Hb Heq. apply append_inj in Heq. apply Ha. rewrite <- Heq.
    now apply in_map.
  - apply IH; [exact Hl | |].
    + intros b Hb. rewrite od_get_set_other; [apply Hacc; now right|].
      intros Heq. apply append_inj in Heq. apply Ha. rewrite <- Heq.
      now apply in_map.
    + rewrite od_get_set_other; [exact Hc|].
      intros Heq. apply append_inj in Heq. now elim Hne.
Qed.

Lemma find_key {V : Type} (d : odict V) (c : string) :
  option_map snd (find (fun kv => String.eqb (fst kv) c) d) = od_get c d.
Proof.
  induction d as [|[k v] d IH]; simpl; [reflexivity|].
  rewrite String.eqb_sym. destruct (String.eqb c k); [reflexivity | exact IH].
Qed.

(** X22 (ConfigurationModel.get_categories): for documents whose category
    tables hold no name twice, as the parsers build them, the table of the
    model holds each JSON category under its name after the prefix
    [JSON - ], with its list of paths, and each INI category under its name
    after the prefix [DX11 - ], with its paths after the prefix [ini.]; and
    it holds no other key. *)
Theorem get_categories_prefixes (m : ConfigurationModel) :
  NoDup (map fst (config_categories (json_config m))) ->
  NoDup (map fst (config_categories (ini_config m))) ->
  (forall c,
     od_get ("JSON - " ++ c) (get_categories m)
     = od_get c (config_categories (json_config m)))
  /\ (forall c,
        od_get ("DX11 - " ++ c) (get_categories m)
        = option_map (map (fun f => "ini." ++ f))
            (od_get c (config_categories (ini_config m))))
  /\ (forall k paths,
        In (k, paths) (get_categories m) ->
        (exists c, k = "JSON - " ++ c
                   /\ In (c, paths) (config_categories (json_config m)))
        \/ (exists c l, k = "DX11 - " ++ c
                        /\ paths = map (fun f => "ini." ++ f) l
                        /\ In (c, l) (config_categories (ini_config m)))).
Proof.
  intros Hj Hi. unfold get_categories.
  set (jc := config_categories (json_config m)) in *.
  set (ic := config_categories (ini_config m)) in *.
  set (js := fold_left
               (fun cats kv => od_set ("JSON - " ++ fst kv) (snd kv) cats)
               jc []).
  assert (forall k, od_get ("DX11 - " ++ k) js = None) as Hjs.
  { intros k. unfold js.
    rewrite (fold_od_set_get_other (fun kv => "JSON - " ++ fst kv) snd);
      [reflexivity|].
    intros a _. discriminate. }
  split; [|split].
  - intros c.
    rewrite (fold_od_set_get_other
               (fun kv : string * list string => "DX11 - " ++ fst kv)
               (fun kv => map (fun f => "ini." ++ f) (snd kv)))
      by (intros a _; discriminate).
    unfold js.
    rewrite (fold_od_set_get_key fst "JSON - " snd jc [] c Hj)
      by reflexivity.
    apply find_key.
  - intros c.
    rewrite (fold_od_set_get_key fst "DX11 - "
               (fun kv => map (fun f => "ini." ++ f) (snd kv)) ic js c Hi)
      by (intros; apply Hjs).
    rewrite <- find_key.
    destruct (find (fun kv => String.eqb (fst kv) c) ic); reflexivity.
  - intros k paths Hin.
    apply (in_fold_od_set
             (fun kv : string * list string => "DX11 - " ++ fst kv)
             (fun kv => map (fun f => "ini." ++ f) (snd kv))) in Hin.
    destruct Hin as [Hin|([c l] & Hcl & [= -> ->])].
    + left. unfold js in Hin.
      apply (in_fold_od_set
               (fun kv : string * list string => "JSON - " ++ fst kv) snd)
        in Hin.
      destruct Hin as [[]|([c l] & Hcl & [= -> ->])].
      exists c. now split.
    + right. exists c, l. now repeat split.
Qed.

(** The sample model: the category [Graphics] of the settings file and the
    category [DISPLAY] of the configuration file, under their prefixes. *)
Lemma get_categories_prefixes_witness :
  NoDup (map fst (config_categories (json_config sample_model)))
  /\ NoDup (map fst (config_categories (ini_config sample_model)))
  /\ od_get "JSON - Graphics" (get_categories sample_model)
     = od_get "Graphics" (config_categories (json_config sample_model))
  /\ od_get "JSON - Graphics" (get_categories sample_model) <> None
  /\ od_get "DX11 - DISPLAY" (get_categories sample_model)
     = option_map (map (fun f => "ini." ++ f))
         (od_get "DISPLAY" (config_categories (ini_config sample_model)))
  /\ od_get "DX11 - DISPLAY" (get_categories sample_model) <> None.
Proof.
  assert (NoDup (map fst (config_categories (json_config sample_model))))
    as Hj.
  { vm_compute. repeat constructor; simpl; intuition discriminate. }
  assert (NoDup (map fst (config_categories (ini_config sample_model))))
    as Hi.
  { vm_compute. repeat constructor; simpl; intuition discriminate. }
  destruct (get_categories_prefixes sample_model Hj Hi) as (H1 & H2 & _).
  split; [exact Hj|]. split; [exact Hi|].
  split; [exact (H1 "Graphics")|].
  split; [vm_compute; discriminate|].
  split; [exact (H2 "DISPLAY")|].
  vm_compute. discriminate.
Defined.

(** ** A configuration compared with itself *)

(** Induction on a value through the items of its lists, tuples and
    dictionaries. *)
Lemma pyval_nested_ind (P : pyval -> Prop) :
  P VNone -> (forall b, P (VBool b)) -> (forall n, P (VInt n)) ->
  (forall f, P (VFloat f)) -> (forall s, P (VStr s)) ->
  (forall l, Forall P l -> P (VList l)) ->
  (forall l, Forall P l -> P (VTuple l)) ->
  (forall d, Forall (fun kv => P (snd kv)) d -> P (VDict d)) ->
  forall v, P v.
Proof.
  intros HN HB HI HF HS HL HT HD. fix IH 1. intros v.
  destruct v as [ | b | n | f | s | l | l | d ];
    [exact HN | apply HB | apply HI | apply HF | apply HS | | | ].
  - apply HL. induction l as [|x l IHl]; constructor; [apply IH | exact IHl].
  - apply HT. induction l as [|x l IHl]; constructor; [apply IH | exact IHl].
  - apply HD.
    induction d as [|[k x] d IHd]; constructor; [apply IH | exact IHd].
Qed.

Lemma float_eqb_refl (f : float) :
  finite_float f = true -> PrimFloat.eqb f f = true.
Proof.
  unfold finite_float. rewrite FloatAxioms.eqb_spec.
  destruct (Prim2SF f) as [s|s| |s m e]; try discriminate; intros _.
  - reflexivity.
  - unfold SFeqb, SFcompare.
    destruct s; rewrite Z.compare_refl, Pos.compare_cont_refl; reflexivity.
Qed.

Lemma float_close_self (f : float) :
  finite_float f = true ->
  PrimFloat.ltb (PrimFloat.abs (PrimFloat.sub f f)) tolerance = true.
Proof.
  unfold finite_float.
  rewrite FloatAxioms.ltb_spec, FloatAxioms.abs_spec, FloatAxioms.sub_spec.
  assert (FloatAxioms.SF64sub (Prim2SF f) (Prim2SF f) = S754_zero false
          \/ finite_float f = false) as H.
  { unfold finite_float, FloatAxioms.SF64sub, SFsub.
    destruct (Prim2SF f) as [s|s| |s m e]; try (now right); left.
    - destruct s; reflexivity.
    - rewrite Z.sub_diag. reflexivity. }
  unfold finite_float in H.
  destruct (Prim2SF f) as [s|s| |s m e]; try discriminate; intros _;
    (destruct H as [->|H]; [|discriminate]); vm_compute; reflexivity.
Qed.

Lemma finite_list (l : list pyval) :
  finite (VList l) = true -> Forall (fun x => finite x = true) l.
Proof.
  induction l as [|x l IH]; [constructor|].
  intros H. cbn [finite] in H. apply andb_prop in H. destruct H as [Hx Hl].
  constructor; [exact Hx | now apply IH].
Qed.

Lemma finite_dict (d : list (string * pyval)) :
  finite (VDict d) = true -> Forall (fun kv => finite (snd kv) = true) d.
Proof.
  induction d as [|[k x] d IH]; [constructor|].
  intros H. cbn [finite] in H. apply andb_prop in H. destruct H as [Hx Hd].
  constructor; [exact Hx | now apply IH].
Qed.

(** A finite value equals itself. *)
Lemma py_eq_refl (v : pyval) : finite v = true -> py_eq v v = true.
Proof.
  induction v as [ | b | n | f | s | l IH | l IH | d IH ]
    using pyval_nested_ind; intros Hf.
  - reflexivity.
  - simpl. now destruct b.
  - simpl. apply Z.eqb_refl.
  - simpl. now apply float_eqb_refl.
  - simpl. apply String.eqb_refl.
  - apply finite_list in Hf. cbn [py_eq].
    induction IH as [|x l Hx Hl IHl]; [reflexivity|].
    inversion Hf as [|y z Hfx Hfl]; subst.
    rewrite (Hx Hfx), orb_true_r. simpl. now apply IHl.
  - apply (finite_list l) in Hf. cbn [py_eq].
    induction IH as [|x l Hx Hl IHl]; [reflexivity|].
    inversion Hf as [|y z Hfx Hfl]; subst.
    rewrite (Hx Hfx), orb_true_r. simpl. now apply IHl.
  - apply finite_dict in Hf. cbn [py_eq].
    induction IH as [|[k x] d Hx Hd IHd]; [reflexivity|].
    inversion Hf as [|y z Hfx Hfd]; subst. simpl in Hx, Hfx.
    rewrite String.eqb_refl, (Hx Hfx), orb_true_r. simpl. now apply IHd.
Qed.

Lemma all_equal_refl (l : list pyval) :
  Forall (fun x => _values_equal x x = Ok true) l ->
  (fix all_equal (xs ys : list pyval) {struct xs} : result bool :=
     match xs, ys with
     | v1 :: xs', v2 :: ys' =>
         bind (_values_equal v1 v2) (fun b =>
           if b then all_equal xs' ys' else Ok false)
     | _, _ => Ok true
     end) l l = Ok true.
Proof.
  induction 1 as [|x l Hx Hl IH]; [reflexivity|].
  rewrite Hx. simpl. exact IH.
Qed.

(** The comparison finds a finite value equal to itself. *)
Lemma values_equal_refl (v : pyval) :
  finite v = true -> _values_equal v v = Ok true.
Proof.
  induction v as [ | b | n | f | s | l IH | l IH | d IH ]
    using pyval_nested_ind; intros Hf.
  - reflexivity.
  - simpl. now destruct b.
  - simpl. now rewrite Z.eqb_refl.
  - cbn [_values_equal is_number is_int is_float orb andb close_floats
           float_of_pyval bind].
    now rewrite float_close_self.
  - simpl. now rewrite String.eqb_refl.
  - apply finite_list in Hf.
    cbn [_values_equal is_number is_int is_float is_str is_bool is_seq
           is_list is_tuple orb andb seq_items].
    rewrite Nat.eqb_refl. cbn [negb]. apply all_equal_refl.
    clear -IH Hf. induction IH as [|x l Hx Hl IHl]; constructor;
      inversion Hf; subst; auto.
  - apply (finite_list l) in Hf.
    cbn [_values_equal is_number is_int is_float is_str is_bool is_seq
           is_list is_tuple orb andb seq_items].
    rewrite Nat.eqb_refl. cbn [negb]. apply all_equal_refl.
    clear -IH Hf. induction IH as [|x l Hx Hl IHl]; constructor;
      inversion Hf; subst; auto.
  - cbn [_values_equal is_number is_int is_float is_str is_bool orb andb].
    f_equal. apply py_eq_refl. exact Hf.
Qed.

Lemma FieldType_eqb_refl (t : FieldType) : FieldType_eqb t t = true.
Proof. destruct t; reflexivity. Qed.

Lemma compare_paths_self (config_data : odict FieldInfo)
  (paths : list string) :
  (forall p f, In (p, f) config_data -> finite (value f) = true) ->
  compare_paths config_data config_data paths = Ok [].
Proof.
  intros H. induction paths as [|p paths IH]; [reflexivity|].
  cbn [compare_paths]. rewrite IH.
  assert (compare_path config_data config_data p = Ok []) as ->.
  { unfold compare_path.
    destruct (od_get p config_data) as [f|] eqn:E; [|reflexivity].
    rewrite FieldType_eqb_refl. cbn [negb].
    rewrite (values_equal_refl (value f) (H p f (od_get_in _ _ _ E))).
    reflexivity. }
  reflexivity.
Qed.

(** X23 (ComparisonEngine.compare_configurations, _values_equal): a
    configuration whose values hold no NaN and no infinity, compared with
    itself, shows no difference, whatever paths are iterated. *)
Theorem compare_configurations_self (all_paths : list string)
  (config_data : odict FieldInfo) :
  (forall p f, In (p, f) config_data -> finite (value f) = true) ->
  compare_configurations all_paths config_data config_data = Ok [].
Proof.
  intros H. unfold compare_configurations.
  now rewrite (compare_paths_self config_data all_paths H).
Qed.

(** The settings of the sample file, compared with themselves. *)
Lemma compare_configurations_self_witness :
  (forall p f, In (p, f) (fields sample_json_config) ->
               finite (value f) = true)
  /\ fields sample_json_config <> []
  /\ compare_configurations (map fst (fields sample_json_config))
       (fields sample_json_config) (fields sample_json_config)
     = Ok [].
Proof.
  assert (forall p f, In (p, f) (fields sample_json_config) ->
                      finite (value f) = true) as H.
  { intros p f Hin.
    assert (forallb (fun x => finite (value (snd x)))
              (fields sample_json_config) = true) as Hall
      by (vm_compute; reflexivity).
    rewrite forallb_forall in Hall. exact (Hall (p, f) Hin). }
  split; [exact H|]. split; [vm_compute; discriminate|].
  exact (compare_configurations_self _ _ H).
Defined.

(** ** Settings paths that start with the INI prefix *)

(** X24 (ConfigurationModel.set_field_value, _update_config_data): a path
    that starts with [ini.] is always looked up in the INI document, so
    setting the value of a settings field whose own path starts with [ini.]
    never changes the settings document, although the field state
    changes. *)
Theorem ini_prefixed_path_never_updates_json (m m' : ConfigurationModel)
  (p : string) (v : pyval) (now : Z) (b : bool) :
  startswith "ini." p = true ->
  set_field_value m p v now = Ok (m', b) ->
  json_config m' = json_config m.
Proof.
  intros Hp. unfold set_field_value.
  destruct (od_get p (field_states m)) as [fs|]; [|now intros [= <- _]].
  destruct (_convert_value_to_type v (field_state.original_value fs))
    as [converted|e]; simpl; [|discriminate].
  destruct (field_state.set_value fs converted now) as [changed fs'].
  destruct changed; [|now intros [= <- _]].
  intros [= <- _]. unfold _notify_observers, _update_config_data.
  rewrite Hp. reflexivity.
Qed.

(** A settings file with the field [x] inside the object [ini]: after 5 was
    entered for [ini.x] the model shows 5, and the settings document still
    holds 1. *)
Lemma ini_prefixed_path_never_updates_json_witness :
  startswith "ini." "ini.x" = true
  /\ exists m',
       set_field_value ini_named_model "ini.x" (VStr "5") 1%Z = Ok (m', true)
       /\ get_field_value m' "ini.x" = VInt 5
       /\ json_config m' = json_config ini_named_model
       /\ option_map value
            (od_get "ini.x" (config_fields (json_config m')))
          = Some (VInt 1).
Proof.
  split; [reflexivity|].
  destruct (set_field_value ini_named_model "ini.x" (VStr "5") 1%Z)
    as [[m' b]|e] eqn:E; [|vm_compute in E; discriminate].
  assert (b = true) as -> by (vm_compute in E; now injection E as _ <-).
  exists m'. split; [reflexivity|].
  pose proof (ini_prefixed_path_never_updates_json ini_named_model m'
                "ini.x" (VStr "5") 1%Z true eq_refl E) as Hj.
  split; [vm_compute in E; injection E as <-; vm_compute; reflexivity|].
  split; [exact Hj|].
  rewrite Hj. vm_compute. reflexivity.
Defined.

(** ** The errors of the settings parser *)



(** ** C1: the round trip of a parsed file *)

Lemma float_eqb_self (f : float) : is_nan f = false -> PrimFloat.eqb f f = true.
Proof.
  unfold is_nan, PrimFloat.is_nan. intros H. now apply negb_false_iff in H.
Qed.

(** Inside a container an element is found equal to itself, NaN or not. *)
Lemma elem_eq_self (x : pyval) :
  (is_nan_value x = false -> py_eq x x = true) ->
  same_nan x x || py_eq x x = true.
Proof.
  intros H. destruct (is_nan_value x) eqn:E.
  - destruct x; try discriminate. simpl in E. unfold same_nan.
    now rewrite E.
  - rewrite (H eq_refl). apply orb_true_r.
Qed.

(** Every value but a NaN equals itself. *)
Lemma py_eq_self (v : pyval) : is_nan_value v = false -> py_eq v v = true.
Proof.
  induction v as [ | b | n | f | s | l IH | l IH | d IH ]
    using pyval_nested_ind; intros Hn.
  - reflexivity.
  - simpl. now destruct b.
  - simpl. apply Z.eqb_refl.
  - simpl. now apply float_eqb_self.
  - simpl. apply String.eqb_refl.
  - cbn [py_eq]. clear Hn.
    induction IH as [|x l Hx Hl IHl]; [reflexivity|].
    rewrite (elem_eq_self x Hx). exact IHl.
  - cbn [py_eq]. clear Hn.
    induction IH as [|x l Hx Hl IHl]; [reflexivity|].
    rewrite (elem_eq_self x Hx). exact IHl.
  - cbn [py_eq]. clear Hn.
    induction IH as [|[k x] d Hx Hd IHd]; [reflexivity|].
    simpl in Hx. rewrite String.eqb_refl, (elem_eq_self x Hx). exact IHd.
Qed.

(** A document whose fields all hold their original value, none of them a
    NaN, has no dirty field. *)
Lemma as_parsed_clean (c : ConfigData) :
  (forall x, In x (fields c) -> original_value (snd x) = value (snd x)) ->
  no_nan_field c = true -> clean c = true.
Proof.
  intros Ho Hn. unfold clean. apply forallb_forall. intros x Hx.
  unfold no_nan_field in Hn. rewrite forallb_forall in Hn.
  specialize (Hn x Hx). apply negb_true_iff in Hn.
  unfold dirty, py_ne. rewrite (Ho x Hx), (py_eq_self _ Hn). reflexivity.
Qed.

(** Both parsers give every field its value as original value. *)
Lemma json_parse_file_originals (w w1 : World) (p : string) (c : ConfigData) :
  json_parser.parse_file w p = (w1, Ok c) ->
  forall x, In x (fields c) -> original_value (snd x) = value (snd x).
Proof.
  unfold json_parser.parse_file.
  destruct (exists_file w p); simpl; [|discriminate].
  destruct (read_lines w p) as [lines|e]; [|discriminate].
  unfold json_parser.parse_lines.
  destruct (json_loads (recursion_depth w) (_remove_comments lines)) as [v|e].
  - destruct v; try discriminate. intros [= _ <-]. simpl.
    intros x Hx. unfold build_field_hierarchy in Hx.
    apply hierarchy_of_leaves in Hx. destruct Hx as (_ & H & _). exact H.
  - destruct e; try discriminate.
    destruct (write_lines w _ _) as [w' [u|e]]; discriminate.
Qed.

Lemma ini_parse_file_originals (w : World) (p : string) (c : ConfigData) :
  ini_parser.parse_file w p = Ok c ->
  forall x, In x (fields c) -> original_value (snd x) = value (snd x).
Proof.
  unfold ini_parser.parse_file.
  destruct (exists_file w p); simpl; [|discriminate].
  destruct (read_lines w p) as [lines|e]; simpl; [|discriminate].
  unfold ini_parser.parse_lines.
  destruct (ini_parser.parse_with_comments lines) as [parsed|e]; simpl;
    [|discriminate].
  intros [= <-]. simpl. unfold ini_parser._build_field_info.
  apply (fold_left_invariant
           (fun fs : odict FieldInfo =>
              forall x, In x fs -> original_value (snd x) = value (snd x)));
    [|intros x []].
  intros fs section H.
  apply (fold_left_invariant
           (fun fs : odict FieldInfo =>
              forall x, In x fs -> original_value (snd x) = value (snd x)));
    [|exact H].
  intros fs' kv H' x Hx. apply in_od_set in Hx.
  destruct Hx as [->|Hx]; [reflexivity | now apply H'].
Qed.

(** The writer leaves the lines of a document without dirty field, on a
    path it can write. *)
Lemma json_write_clean (w : World) (c : ConfigData) (out : string) :
  clean c = true -> writable w out = true ->
  written (json_parser.write_preserving_structure w c out) out
    (to_linesep (linesep w) (writelines (raw_lines c))).
Proof.
  intros Hc Hw. unfold written, json_parser.write_preserving_structure.
  rewrite (json_new_lines_clean c Hc).
  assert (Hx : existsb (String.eqb out) (unwritable w) = false).
  { unfold writable in Hw. now apply negb_true_iff in Hw. }
  destruct (write_lines_ok w out (raw_lines c) Hx) as [Hok Hget].
  destruct (write_lines w out (raw_lines c)) as [w' r]. simpl in *.
  subst r. now split.
Qed.

Lemma ini_write_clean (w : World) (c : ConfigData) (out : string) :
  clean c = true -> writable w out = true ->
  written (ini_parser.write_preserving_structure w c out) out
    (to_linesep (linesep w) (writelines (raw_lines c))).
Proof.
  intros Hc Hw. unfold written, ini_parser.write_preserving_structure.
  rewrite (ini_new_lines_clean c Hc).
  assert (Hx : existsb (String.eqb out) (unwritable w) = false).
  { unfold writable in Hw. now apply negb_true_iff in Hw. }
  destruct (write_lines_ok w out (raw_lines c) Hx) as [Hok Hget].
  destruct (write_lines w out (raw_lines c)) as [w' r]. simpl in *.
  subst r. now split.
Qed.

(** C1, as amended.  A file parses (by the JSON parser, by the INI parser)
    and no field of the parsed document holds a NaN as its value.  Then no
    field of the document is dirty, every [FieldInfo.value] being equal to
    its [original_value]; and [write_preserving_structure], called on the
    parsed document and any path that can be written, succeeds and leaves
    there the content of the file that was read with every line terminator
    written as the one of the platform: the very content of the file
    exactly when the file is in native form. *)
Theorem roundtrip_unchanged_fields
  (w w1 wj wi : World) (pj pi outj outi tj ti : string)
  (cj ci : ConfigData) :
  od_get pj (files w) = Some tj ->
  od_get pi (files w) = Some ti ->
  json_parser.parse_file w pj = (w1, Ok cj) ->
  ini_parser.parse_file w pi = Ok ci ->
  no_nan_field cj = true -> no_nan_field ci = true ->
  writable wj outj = true -> writable wi outi = true ->
  clean cj = true /\ clean ci = true
  /\ written (json_parser.write_preserving_structure wj cj outj) outj
       (normalized (linesep wj) tj)
  /\ written (ini_parser.write_preserving_structure wi ci outi) outi
       (normalized (linesep wi) ti)
  /\ (written (json_parser.write_preserving_structure wj cj outj) outj tj
      <-> native (linesep wj) tj)
  /\ (written (ini_parser.write_preserving_structure wi ci outi) outi ti
      <-> native (linesep wi) ti).
Proof.
  intros Hfj Hfi Hpj Hpi Hnj Hni Hwj Hwi.
  pose proof (json_parse_file_raw_lines _ _ _ _ _ Hfj Hpj) as Hlj.
  pose proof (ini_parse_file_raw_lines _ _ _ _ Hfi Hpi) as Hli.
  pose proof (as_parsed_clean cj (json_parse_file_originals _ _ _ _ Hpj) Hnj)
    as Hcj.
  pose proof (as_parsed_clean ci (ini_parse_file_originals _ _ _ Hpi) Hni)
    as Hci.
  assert (Hj : written (json_parser.write_preserving_structure wj cj outj)
                 outj (normalized (linesep wj) tj)).
  { pose proof (json_write_clean wj cj outj Hcj Hwj) as H.
    now rewrite Hlj, writelines_readlines in H. }
  assert (Hi : written (ini_parser.write_preserving_structure wi ci outi)
                 outi (normalized (linesep wi) ti)).
  { pose proof (ini_write_clean wi ci outi Hci Hwi) as H.
    now rewrite Hli, writelines_readlines in H. }
  split; [exact Hcj|]. split; [exact Hci|].
  split; [exact Hj|]. split; [exact Hi|]. split; split.
  - intros H. exact (written_unique _ _ _ _ Hj H).
  - intros Hn. unfold native in Hn. now rewrite Hn in Hj.
  - intros H. exact (written_unique _ _ _ _ Hi H).
  - intros Hn. unfold native in Hn. now rewrite Hn in Hi.
Qed.

(** The sample files on the Windows machine parse, no field of theirs is a
    NaN, the files are in native form, and writing the parsed documents
    back over the files read leaves the same two contents. *)
Lemma roundtrip_unchanged_fields_witness :
  json_parser.parse_file sample_world "settings.json"
  = (sample_world, Ok sample_json_config)
  /\ ini_parser.parse_file sample_world "Config_DX11.ini" = Ok sample_ini_config
  /\ no_nan_field sample_json_config = true
  /\ no_nan_field sample_ini_config = true
  /\ native (linesep sample_world) sample_json
  /\ native (linesep sample_world) sample_ini
  /\ written (json_parser.write_preserving_structure sample_world
                sample_json_config "settings.json") "settings.json" sample_json
  /\ written (ini_parser.write_preserving_structure sample_world
                sample_ini_config "Config_DX11.ini") "Config_DX11.ini" sample_ini.
Proof.
  assert (Hnj : native (linesep sample_world) sample_json)
    by (vm_compute; reflexivity).
  assert (Hni : native (linesep sample_world) sample_ini)
    by (vm_compute; reflexivity).
  assert (Hj0 : no_nan_field sample_json_config = true)
    by (vm_compute; reflexivity).
  assert (Hi0 : no_nan_field sample_ini_config = true)
    by (vm_compute; reflexivity).
  split; [exact sample_json_parses|].
  split; [exact sample_ini_parses|].
  split; [exact Hj0|]. split; [exact Hi0|].
  split; [exact Hnj|]. split; [exact Hni|].
  destruct (roundtrip_unchanged_fields sample_world sample_world sample_world
              sample_world "settings.json" "Config_DX11.ini" "settings.json"
              "Config_DX11.ini" sample_json sample_ini
              sample_json_config sample_ini_config
              eq_refl eq_refl sample_json_parses sample_ini_parses
              Hj0 Hi0 eq_refl eq_refl)
    as [_ [_ [_ [_ [Hj Hi]]]]].
  split; [exact (proj2 Hj Hnj) | exact (proj2 Hi Hni)].
Defined.
